(** * Connection manager, request router and page executors of the
      WFDL extension, embedded from the JavaScript sources

    - [WebSocketManager] (utils/websocket-manager.js): connect, disconnect,
      send, the transport event handlers, reconnection and heartbeat.
    - [WFDLValidatorPopup] (popup script): target selection, execution and
      the response frame of a validation request.
    - [getWFDL], [_executeWfdlGet], [handleGetWFDLRequest]: the page-context
      executors and the background selection routine.

    The browser is modelled explicitly: WebSocket objects with their
    [readyState], promises, timers, the frames put on the wire, the console
    and the invocations of subscribed callbacks. *)

From Stdlib Require Import ZArith Lia DecimalString.
From stdpp Require Import base list strings.

Local Open Scope string_scope.
Set Warnings "-register-all".

(** ** JavaScript values *)

(** Abrupt completion: a thrown [Error] is represented by its [message]. *)
Inductive Completion (A : Type) : Type :=
| Normal (a : A)
| Throw (message : string).
Arguments Normal {A} a.
Arguments Throw {A} message.

Inductive JsVal : Type :=
| JUndefined
| JNull
| JBool (b : bool)
| JNum (n : Z)
| JBigInt (n : Z)
| JStr (s : string)
| JArr (xs : list JsVal)
| JObj (fields : list (string * JsVal)).

(** ToBoolean *)
Definition truthy (v : JsVal) : bool :=
  match v with
  | JUndefined | JNull => false
  | JBool b => b
  | JNum n | JBigInt n => negb (n =? 0)%Z
  | JStr s => negb (String.eqb s EmptyString)
  | JArr _ | JObj _ => true
  end.

(** [a || b] *)
Definition js_or (a b : JsVal) : JsVal := if truthy a then a else b.

Fixpoint lookup_field (k : string) (fs : list (string * JsVal)) : JsVal :=
  match fs with
  | [] => JUndefined
  | (k', v) :: fs' => if String.eqb k k' then v else lookup_field k fs'
  end.

(** [v.k] on a value that is neither [undefined] nor [null]. *)
Definition prop (v : JsVal) (k : string) : JsVal :=
  match v with
  | JObj fs => lookup_field k fs
  | _ => JUndefined
  end.

(** [v.k] in general: reading a property of [undefined] or [null] throws
    a TypeError. *)
Definition get (v : JsVal) (k : string) : Completion JsVal :=
  match v with
  | JUndefined => Throw ("Cannot read properties of undefined (reading '" ++ k ++ "')")
  | JNull => Throw ("Cannot read properties of null (reading '" ++ k ++ "')")
  | _ => Normal (prop v k)
  end.

Definition dec (n : Z) : string := NilZero.string_of_int (Z.to_int n).
Definition dec_nat (n : nat) : string := dec (Z.of_nat n).

Definition join_with (sep : string) (l : list string) : string :=
  match l with
  | [] => EmptyString
  | x :: r => fold_left (fun acc y => acc ++ sep ++ y) r x
  end.

(** ToString, as used by template literals and [new Error(x)]. *)
Fixpoint to_string (v : JsVal) : string :=
  match v with
  | JUndefined => "undefined"
  | JNull => "null"
  | JBool true => "true"
  | JBool false => "false"
  | JNum n | JBigInt n => dec n
  | JStr s => s
  | JArr xs =>
      join_with ","
        (map (fun x => match x with
                       | JUndefined | JNull => EmptyString
                       | _ => to_string x
                       end) xs)
  | JObj _ => "[object Object]"
  end.

(** [String.prototype.includes] *)
Fixpoint includes (s sub : string) : bool :=
  String.prefix sub s ||
  match s with
  | EmptyString => false
  | String _ s' => includes s' sub
  end.

(** *** JSON.stringify *)

Definition dquote : Ascii.ascii := Ascii.ascii_of_nat 34.
Definition backslash : Ascii.ascii := Ascii.ascii_of_nat 92.

(** A hexadecimal digit, in lower case. *)
Definition hex_digit (n : nat) : Ascii.ascii :=
  Ascii.ascii_of_nat (if Nat.ltb n 10 then 48 + n else 87 + n).

(** QuoteJSONString, one character: the quote, the backslash and every
    control character are escaped. *)
Definition escape (c : Ascii.ascii) : string :=
  let n := Ascii.nat_of_ascii c in
  if Ascii.eqb c dquote then String backslash (String dquote EmptyString)
  else if Ascii.eqb c backslash then String backslash (String backslash EmptyString)
  else if Nat.eqb n 8 then String backslash "b"
  else if Nat.eqb n 12 then String backslash "f"
  else if Nat.eqb n 10 then String backslash "n"
  else if Nat.eqb n 13 then String backslash "r"
  else if Nat.eqb n 9 then String backslash "t"
  else if Nat.ltb n 32 then
    String backslash
      ("u00" ++ String (hex_digit (n / 16)) (String (hex_digit (n mod 16)) EmptyString))
  else String c EmptyString.

Fixpoint quote_chars (s : string) : string :=
  match s with
  | EmptyString => EmptyString
  | String c s' => escape c ++ quote_chars s'
  end.

Definition quote (s : string) : string :=
  String dquote (quote_chars s ++ String dquote EmptyString).

(** [JSON.stringify v]: [Normal None] is the [undefined] returned for a
    value with no JSON text; a BigInt makes it throw a TypeError. A
    number is an integer and is printed in plain decimal, as JavaScript
    prints the integers it represents exactly (up to 2^53 in magnitude);
    the fields of an object are printed in the order of the list, whose
    keys are distinct in an object of the program. *)
Fixpoint JSON_stringify (v : JsVal) : Completion (option string) :=
  match v with
  | JUndefined => Normal None
  | JNull => Normal (Some "null")
  | JBool true => Normal (Some "true")
  | JBool false => Normal (Some "false")
  | JNum n => Normal (Some (dec n))
  | JBigInt _ => Throw "Do not know how to serialize a BigInt"
  | JStr s => Normal (Some (quote s))
  | JArr xs =>
      let fix elems (l : list JsVal) : Completion (list string) :=
        match l with
        | [] => Normal []
        | x :: r =>
            match JSON_stringify x with
            | Throw m => Throw m
            | Normal o =>
                match elems r with
                | Throw m => Throw m
                | Normal ss => Normal (default "null" o :: ss)
                end
            end
        end in
      match elems xs with
      | Throw m => Throw m
      | Normal ss => Normal (Some ("[" ++ join_with "," ss ++ "]"))
      end
  | JObj fs =>
      let fix members (l : list (string * JsVal)) : Completion (list string) :=
        match l with
        | [] => Normal []
        | (k, x) :: r =>
            match JSON_stringify x with
            | Throw m => Throw m
            | Normal o =>
                match members r with
                | Throw m => Throw m
                | Normal ss =>
                    Normal (match o with
                            | Some s => (quote k ++ ":" ++ s) :: ss
                            | None => ss
                            end)
                end
            end
        end in
      match members fs with
      | Throw m => Throw m
      | Normal ss => Normal (Some ("{" ++ join_with "," ss ++ "}"))
      end
  end.

(** ** CONFIG (config.js) *)

Module CONFIG.
Definition prodUrl : string := "wss://wfdl-validator-worker.webflowlabs.workers.dev/ws".
Definition devUrl : string := "ws://localhost:8787/ws".
Definition reconnectDelay : N := 2000.
Definition heartbeatInterval : N := 30000.
Definition connectionTimeout : N := 5000.
Definition maxReconnectAttempts : nat := 3.

(** [CONFIG.designerUrls.isDesignerPage]; a tab without a [url] makes
    [url.includes] throw. *)
Definition isDesignerPage (url : option string) : Completion bool :=
  match url with
  | None => Throw "Cannot read properties of undefined (reading 'includes')"
  | Some u =>
      Normal (includes u ".design.webflow.com" ||
              includes u ".design.wfdev.io" ||
              includes u ".wfdev.io")
  end.
End CONFIG.

(** ** Logger (utils/logger.js) *)

Inductive Level := debug | info | warn | error.

Definition logLevels (l : Level) : nat :=
  match l with debug => 0 | info => 1 | warn => 2 | error => 3 end.

(** [this.currentLevel = this.logLevels.info], never changed by the
    extension. *)
Definition currentLevel : nat := logLevels info.

Definition LogEntry : Type := Level * string.

(** [Logger._log]: entries below the current level are dropped. The
    console is modelled as the list of entries written; the data object
    of an entry and its copy to the popup's activity log are left out. *)
Definition _log (level : Level) (message : string) (console : list LogEntry)
  : list LogEntry :=
  if Nat.ltb (logLevels level) currentLevel then console
  else console ++ [(level, message)].

(** ** The browser: transports, promises, timers *)

Inductive ReadyState := CONNECTING | OPEN | CLOSING | CLOSED.

(** What the handlers that [_attemptConnection] installs on a transport
    close over: the connect timeout and the promise they settle. *)
Record Handlers := { timeout : nat; promise : nat }.

Record WebSocket := { readyState : ReadyState; handlers : option Handlers }.

(** The value a promise is rejected with: an [Error] object, or the
    transport's error event. *)
Inductive Reason := ErrorObject (message : string) | ErrorEvent.

Inductive Settled := Pending | Resolved (b : bool) | Rejected (r : Reason).

(** [catchers] counts the [.catch] reactions that [_attemptReconnection]
    attached to a promise that was still pending. *)
Record Promise := { settled : Settled; catchers : nat }.

Inductive TimerKind :=
| ConnectionTimeout (p : nat)
| ReconnectTimer
| HeartbeatTimer.

(** A timer created by [setTimeout] or [setInterval]; its handle is its
    index. [active] is false once it was cleared or, for a timeout, run. *)
Record Timer := { kind : TimerKind; active : bool }.

(** The argument an event listener is called with. *)
Inductive Payload :=
| NoData
| CloseEvent (code : nat)
| ErrorEventData
| Message (m : JsVal).

(** A subscribed callback: opaque, identified by [cb_id]; [cb_throws] is
    the message of the [Error] it throws, if it throws one. A callback
    that throws another value is a [Thrown.Callback], below. *)
Record Callback := { cb_id : nat; cb_throws : option string }.

Record Listeners := {
  on_open : list Callback;
  on_close : list Callback;
  on_error : list Callback;
  on_message : list Callback
}.

Record Browser := {
  sockets : list WebSocket;
  closes : list (nat * option nat);   (* calls of ws.close(code) *)
  wire : list (nat * string);         (* frames transmitted, per transport *)
  promises : list Promise;
  timers : list Timer;
  console : list LogEntry;
  invoked : list (nat * Payload);     (* listener invocations *)
  now : string                        (* new Date().toISOString() *)
}.

(** ** WebSocketManager (utils/websocket-manager.js) *)

Record WebSocketManager := {
  ws : option nat;
  isConnected : bool;
  reconnectAttempts : nat;
  heartbeatInterval : option nat;
  extensionId : string;
  connectionPromise : option nat;
  eventListeners : Listeners
}.

Record World := { manager : WebSocketManager; browser : Browser }.

(** The constructor. *)
Definition new_WebSocketManager (id : string) (ls : Listeners) : WebSocketManager :=
  {| ws := None; isConnected := false; reconnectAttempts := 0;
     heartbeatInterval := None; extensionId := id; connectionPromise := None;
     eventListeners := ls |}.

Definition new_Browser (time : string) : Browser :=
  {| sockets := []; closes := []; wire := []; promises := []; timers := [];
     console := []; invoked := []; now := time |}.

Definition set_ws v (m : WebSocketManager) :=
  {| ws := v; isConnected := isConnected m; reconnectAttempts := reconnectAttempts m;
     heartbeatInterval := heartbeatInterval m; extensionId := extensionId m;
     connectionPromise := connectionPromise m; eventListeners := eventListeners m |}.
Definition set_isConnected v (m : WebSocketManager) :=
  {| ws := ws m; isConnected := v; reconnectAttempts := reconnectAttempts m;
     heartbeatInterval := heartbeatInterval m; extensionId := extensionId m;
     connectionPromise := connectionPromise m; eventListeners := eventListeners m |}.
Definition set_reconnectAttempts v (m : WebSocketManager) :=
  {| ws := ws m; isConnected := isConnected m; reconnectAttempts := v;
     heartbeatInterval := heartbeatInterval m; extensionId := extensionId m;
     connectionPromise := connectionPromise m; eventListeners := eventListeners m |}.
Definition set_heartbeatInterval v (m : WebSocketManager) :=
  {| ws := ws m; isConnected := isConnected m; reconnectAttempts := reconnectAttempts m;
     heartbeatInterval := v; extensionId := extensionId m;
     connectionPromise := connectionPromise m; eventListeners := eventListeners m |}.
Definition set_connectionPromise v (m : WebSocketManager) :=
  {| ws := ws m; isConnected := isConnected m; reconnectAttempts := reconnectAttempts m;
     heartbeatInterval := heartbeatInterval m; extensionId := extensionId m;
     connectionPromise := v; eventListeners := eventListeners m |}.

Definition set_sockets v (b : Browser) :=
  {| sockets := v; closes := closes b; wire := wire b; promises := promises b;
     timers := timers b; console := console b; invoked := invoked b; now := now b |}.
Definition set_closes v (b : Browser) :=
  {| sockets := sockets b; closes := v; wire := wire b; promises := promises b;
     timers := timers b; console := console b; invoked := invoked b; now := now b |}.
Definition set_wire v (b : Browser) :=
  {| sockets := sockets b; closes := closes b; wire := v; promises := promises b;
     timers := timers b; console := console b; invoked := invoked b; now := now b |}.
Definition set_promises v (b : Browser) :=
  {| sockets := sockets b; closes := closes b; wire := wire b; promises := v;
     timers := timers b; console := console b; invoked := invoked b; now := now b |}.
Definition set_timers v (b : Browser) :=
  {| sockets := sockets b; closes := closes b; wire := wire b; promises := promises b;
     timers := v; console := console b; invoked := invoked b; now := now b |}.
Definition set_console v (b : Browser) :=
  {| sockets := sockets b; closes := closes b; wire := wire b; promises := promises b;
     timers := timers b; console := v; invoked := invoked b; now := now b |}.
Definition set_invoked v (b : Browser) :=
  {| sockets := sockets b; closes := closes b; wire := wire b; promises := promises b;
     timers := timers b; console := console b; invoked := v; now := now b |}.

(** *** A state monad over the world *)

Definition M (A : Type) : Type := World -> A * World.

Definition ret {A} (a : A) : M A := fun w => (a, w).
Definition bind {A B} (m : M A) (k : A -> M B) : M B :=
  fun w => let (a, w') := m w in k a w'.
Definition gets {A} (f : World -> A) : M A := fun w => (f w, w).
Definition this {A} (f : WebSocketManager -> A) : M A := fun w => (f (manager w), w).
Definition assign (f : WebSocketManager -> WebSocketManager) : M unit :=
  fun w => (tt, {| manager := f (manager w); browser := browser w |}).
Definition effect (f : Browser -> Browser) : M unit :=
  fun w => (tt, {| manager := manager w; browser := f (browser w) |}).
Definition exec {A} (m : M A) (w : World) : World := snd (m w).
Definition eval {A} (m : M A) (w : World) : A := fst (m w).

Declare Scope js_scope.
Delimit Scope js_scope with js.
Notation "x <- m ;; k" := (bind m (fun x => k))
  (at level 100, m at next level, right associativity) : js_scope.
Notation "m ;; k" := (bind m (fun _ => k))
  (at level 100, right associativity) : js_scope.
Local Open Scope js_scope.

Definition logger (level : Level) (message : string) : M unit :=
  effect (fun b => set_console (_log level message (console b)) b).

(** *** Browser primitives *)

Definition new_WebSocket : M nat :=
  s <- gets (fun w => length (sockets (browser w)));;
  effect (fun b => set_sockets
            (sockets b ++ [{| readyState := CONNECTING; handlers := None |}]) b);;
  ret s.

Definition install_handlers (s : nat) (h : Handlers) : M unit :=
  effect (fun b => set_sockets
    (alter (fun k => {| readyState := readyState k; handlers := Some h |}) s (sockets b)) b).

Definition set_readyState (s : nat) (r : ReadyState) : M unit :=
  effect (fun b => set_sockets
    (alter (fun k => {| readyState := r; handlers := handlers k |}) s (sockets b)) b).

Definition readyState_of (s : nat) (w : World) : option ReadyState :=
  readyState <$> sockets (browser w) !! s.

(** [ws.close(code)]: starts the closing handshake of a transport that is
    connecting or open, and does nothing otherwise. *)
Definition ws_close (s : nat) (code : option nat) : M unit :=
  r <- gets (readyState_of s);;
  effect (fun b => set_closes (closes b ++ [(s, code)]) b);;
  match r with
  | Some CONNECTING | Some OPEN => set_readyState s CLOSING
  | _ => ret tt
  end.

(** [ws.send(data)]: throws while the transport is still connecting,
    transmits when it is open, and silently discards the data when it is
    closing or closed. *)
Definition ws_send (s : nat) (data : string) : M (Completion unit) :=
  r <- gets (readyState_of s);;
  match r with
  | Some CONNECTING =>
      ret (Throw "Failed to execute 'send' on 'WebSocket': Still in CONNECTING state.")
  | Some OPEN =>
      effect (fun b => set_wire (wire b ++ [(s, data)]) b);; ret (Normal tt)
  | _ => ret (Normal tt)
  end.

Definition new_Promise : M nat :=
  p <- gets (fun w => length (promises (browser w)));;
  effect (fun b => set_promises (promises b ++ [{| settled := Pending; catchers := 0 |}]) b);;
  ret p.

Definition settled_of (p : nat) (w : World) : option Settled :=
  settled <$> promises (browser w) !! p.

Definition resolve (p : nat) (v : bool) : M unit :=
  effect (fun b => set_promises
    (alter (fun c => match settled c with
                     | Pending => {| settled := Resolved v; catchers := catchers c |}
                     | _ => c
                     end) p (promises b)) b).

Fixpoint repeat_log (n : nat) (level : Level) (message : string) : M unit :=
  match n with
  | 0 => ret tt
  | S n' => logger level message;; repeat_log n' level message
  end.

(** [reject(reason)]: settles a pending promise and runs the [.catch]
    reactions attached by the reconnection timer. *)
Definition reject (p : nat) (r : Reason) : M unit :=
  c <- gets (fun w => promises (browser w) !! p);;
  match c with
  | Some {| settled := Pending; catchers := n |} =>
      effect (fun b => set_promises
                (<[p := {| settled := Rejected r; catchers := 0 |}]> (promises b)) b);;
      repeat_log n error "Reconnection failed"
  | _ => ret tt
  end.

Definition new_timer (k : TimerKind) : M nat :=
  h <- gets (fun w => length (timers (browser w)));;
  effect (fun b => set_timers (timers b ++ [{| kind := k; active := true |}]) b);;
  ret h.

Definition setTimeout := new_timer.
Definition setInterval := new_timer.

Definition clear_timer (h : nat) : M unit :=
  effect (fun b => set_timers
    (alter (fun t => {| kind := kind t; active := false |}) h (timers b)) b).

Definition clearTimeout := clear_timer.
Definition clearInterval := clear_timer.

Definition toISOString : M string := gets (fun w => now (browser w)).

(** *** Methods *)

(** [send(message)] for a message that is a plain value: what is thrown
    inside the [try] is then a [TypeError] or the transport's exception,
    whose [message] the [catch] block can read. [Thrown.send], below,
    takes a message whose serialisation can throw any value. *)
Definition send (message : JsVal) : M bool :=
  connected <- this isConnected;;
  transport <- this ws;;
  match connected, transport with
  | true, Some s =>
      (* try *)
      match JSON_stringify message with
      | Throw _ => logger error "Error sending message";; ret false
      | Normal messageString =>
          sent <- ws_send s (default "undefined" messageString);;
          match sent with
          | Throw _ => logger error "Error sending message";; ret false
          | Normal _ =>
              match get message "type" with
              | Throw _ => logger error "Error sending message";; ret false
              | Normal _ => logger debug "Message sent";; ret true
              end
          end
      end
  | _, _ =>
      logger error "Cannot send message: not connected";; ret false
  end.

Definition listeners_of (event : string) (l : Listeners) : option (list Callback) :=
  if String.eqb event "open" then Some (on_open l)
  else if String.eqb event "close" then Some (on_close l)
  else if String.eqb event "error" then Some (on_error l)
  else if String.eqb event "message" then Some (on_message l)
  else None.

(** One iteration of the [forEach] in [_emitEvent]: the callback runs, and
    an exception it raises is caught and logged. *)
Definition invoke (data : Payload) (callback : Callback) : M unit :=
  effect (fun b => set_invoked (invoked b ++ [(cb_id callback, data)]) b);;
  match cb_throws callback with
  | Some _ => logger error "Error in event listener"
  | None => ret tt
  end.

Fixpoint forEach {A} (f : A -> M unit) (l : list A) : M unit :=
  match l with
  | [] => ret tt
  | x :: r => f x;; forEach f r
  end.

(** [_emitEvent(event, data = null)] *)
Definition _emitEvent (event : string) (data : Payload) : M unit :=
  ls <- this eventListeners;;
  match listeners_of event ls with
  | Some callbacks => forEach (invoke data) callbacks
  | None => ret tt
  end.

(** [_registerExtension()] *)
Definition _registerExtension : M unit :=
  id <- this extensionId;;
  timestamp <- toISOString;;
  _ <- send (JObj [("type", JStr "register"); ("id", JStr id);
                   ("timestamp", JStr timestamp)]);;
  ret tt.

(** [_startHeartbeat()] *)
Definition _startHeartbeat : M unit :=
  h <- setInterval HeartbeatTimer;;
  assign (set_heartbeatInterval (Some h)).

(** The callback given to [setInterval] by [_startHeartbeat]. *)
Definition heartbeat_tick : M unit :=
  connected <- this isConnected;;
  if connected then
    id <- this extensionId;;
    timestamp <- toISOString;;
    _ <- send (JObj [("type", JStr "heartbeat"); ("id", JStr id);
                     ("timestamp", JStr timestamp)]);;
    ret tt
  else ret tt.

(** [_attemptConnection()]: creates the promise and, in its executor, the
    transport, the connect timeout and the handlers. The URL is the
    constant of [CONFIG], for which [new WebSocket] does not throw. *)
Definition _attemptConnection : M nat :=
  p <- new_Promise;;
  logger info "Connecting to WebSocket";;
  s <- new_WebSocket;;
  assign (set_ws (Some s));;
  t <- setTimeout (ConnectionTimeout p);;
  install_handlers s {| timeout := t; promise := p |};;
  ret p.

(** What an [async] call of [connect()] resolves to: a value at once, or
    the outcome of the promise it returns. *)
Inductive ConnectResult := Returns (b : bool) | Follows (p : nat).

(** [connect()] *)
Definition connect : M ConnectResult :=
  connected <- this isConnected;;
  if connected then
    logger warn "Already connected to WebSocket";; ret (Returns true)
  else
    pending <- this connectionPromise;;
    match pending with
    | Some p => logger info "Connection already in progress";; ret (Follows p)
    | None =>
        p <- _attemptConnection;;
        assign (set_connectionPromise (Some p));;
        ret (Follows p)
    end.

(** [disconnect()] *)
Definition disconnect : M unit :=
  connected <- this isConnected;;
  transport <- this ws;;
  match connected, transport with
  | true, Some s =>
      logger info "Disconnecting from WebSocket";;
      hb <- this heartbeatInterval;;
      match hb with
      | Some h => clearInterval h;; assign (set_heartbeatInterval None)
      | None => ret tt
      end;;
      ws_close s (Some 1000);;
      assign (set_isConnected false);;
      assign (set_connectionPromise None)
  | _, _ => logger warn "Not connected to WebSocket"
  end.

(** The callback given to [setTimeout] by [_attemptReconnection]:
    [connect().catch(...)] logs when the connection promise rejects. *)
Definition reconnect_tick : M unit :=
  connected <- this isConnected;;
  if connected then ret tt
  else
    r <- connect;;
    match r with
    | Returns _ => ret tt
    | Follows p =>
        c <- gets (fun w => promises (browser w) !! p);;
        match c with
        | Some {| settled := Pending; catchers := n |} =>
            effect (fun b => set_promises
                      (<[p := {| settled := Pending; catchers := S n |}]> (promises b)) b)
        | Some {| settled := Rejected _ |} => logger error "Reconnection failed"
        | _ => ret tt
        end
    end.

(** [_attemptReconnection()] *)
Definition _attemptReconnection : M unit :=
  attempts <- this reconnectAttempts;;
  if Nat.leb CONFIG.maxReconnectAttempts attempts then
    logger error "Max reconnection attempts reached"
  else
    assign (set_reconnectAttempts (S attempts));;
    logger info ("Attempting reconnection (" ++ dec_nat (S attempts) ++ "/"
                 ++ dec_nat CONFIG.maxReconnectAttempts ++ ")");;
    _ <- setTimeout ReconnectTimer;;
    ret tt.

(** The callback of the connect timeout. *)
Definition timeout_tick (p : nat) : M unit :=
  logger error "Connection timeout";;
  transport <- this ws;;
  match transport with
  | Some s => ws_close s None;; reject p (ErrorObject "Connection timeout")
  | None => ret tt (* [this.ws.close()] throws; the promise stays pending *)
  end.

(** [ws.onopen] *)
Definition onopen (h : Handlers) : M unit :=
  clearTimeout (timeout h);;
  logger info "WebSocket connected successfully";;
  assign (set_isConnected true);;
  assign (set_reconnectAttempts 0);;
  assign (set_connectionPromise None);;
  _registerExtension;;
  _startHeartbeat;;
  _emitEvent "open" NoData;;
  resolve (promise h) true.

(** [ws.onclose] *)
Definition onclose (h : Handlers) (code : nat) : M unit :=
  clearTimeout (timeout h);;
  logger info "WebSocket connection closed";;
  assign (set_isConnected false);;
  assign (set_connectionPromise None);;
  hb <- this heartbeatInterval;;
  match hb with
  | Some i => clearInterval i;; assign (set_heartbeatInterval None)
  | None => ret tt
  end;;
  _emitEvent "close" (CloseEvent code);;
  (if Nat.eqb code 1000 then ret tt else _attemptReconnection);;
  resolve (promise h) false.

(** [ws.onerror] *)
Definition onerror (h : Handlers) : M unit :=
  clearTimeout (timeout h);;
  logger error "WebSocket error";;
  assign (set_isConnected false);;
  assign (set_connectionPromise None);;
  _emitEvent "error" ErrorEventData;;
  reject (promise h) ErrorEvent.

(** [message.type === name] *)
Definition is_type (message : JsVal) (name : string) : bool :=
  match prop message "type" with
  | JStr t => String.eqb t name
  | _ => false
  end.

Section Dispatch.

(** [JSON.parse], a built-in of the platform: the parsed value, or the
    message of the SyntaxError it throws. *)
Variable JSON_parse : string -> Completion JsVal.

(** [_handleMessage(data)] *)
Definition _handleMessage (data : string) : M unit :=
  (* try *)
  match JSON_parse data with
  | Throw _ => logger error "Error parsing message"
  | Normal message =>
      match get message "type" with
      | Throw _ => logger error "Error parsing message"
      | Normal _ =>
          logger debug "Received message";;
          (if is_type message "registered" then
             logger info "Successfully registered with server"
           else if is_type message "heartbeat_ack" then
             logger debug "Heartbeat acknowledged"
           else if is_type message "error" then
             logger error "Server error"
           else ret tt);;
          _emitEvent "message" (Message message)
      end
  end.

(** *** Events *)

(** What can happen to the manager: a call by its owner, an event of a
    transport, or a timer coming due. *)
Inductive Event :=
| Connect
| Disconnect
| Send (message : JsVal)
| Opened (s : nat)
| Received (s : nat) (data : string)
| Closed (s : nat) (code : nat)
| Errored (s : nat)
| Fired (h : nat).

(** The browser delivers [open] to a connecting transport, [message] to
    an open or closing one, and [error] and [close] to one whose close
    event was not delivered yet; an expired or cleared timer never runs.
    [error] reports a failed connection: the transport is no longer
    usable and its [close] event follows. *)
Definition step (e : Event) : M unit :=
  match e with
  | Connect => _ <- connect;; ret tt
  | Disconnect => disconnect
  | Send message => _ <- send message;; ret tt
  | Opened s =>
      k <- gets (fun w => sockets (browser w) !! s);;
      match k with
      | Some {| readyState := CONNECTING; handlers := h |} =>
          set_readyState s OPEN;;
          match h with Some h => onopen h | None => ret tt end
      | _ => ret tt
      end
  | Received s data =>
      k <- gets (fun w => sockets (browser w) !! s);;
      match k with
      | Some {| readyState := OPEN; handlers := Some _ |}
      | Some {| readyState := CLOSING; handlers := Some _ |} => _handleMessage data
      | _ => ret tt
      end
  | Closed s code =>
      k <- gets (fun w => sockets (browser w) !! s);;
      match k with
      | Some {| readyState := CLOSED |} | None => ret tt
      | Some {| handlers := h |} =>
          set_readyState s CLOSED;;
          match h with Some h => onclose h code | None => ret tt end
      end
  | Errored s =>
      k <- gets (fun w => sockets (browser w) !! s);;
      match k with
      | Some {| readyState := CLOSED |} | None => ret tt
      | Some {| handlers := h |} =>
          set_readyState s CLOSING;;
          match h with Some h => onerror h | None => ret tt end
      end
  | Fired h =>
      t <- gets (fun w => timers (browser w) !! h);;
      match t with
      | Some {| kind := ConnectionTimeout p; active := true |} =>
          clear_timer h;; timeout_tick p
      | Some {| kind := ReconnectTimer; active := true |} =>
          clear_timer h;; reconnect_tick
      | Some {| kind := HeartbeatTimer; active := true |} => heartbeat_tick
      | _ => ret tt
      end
  end.

Fixpoint run (es : list Event) (w : World) : World :=
  match es with
  | [] => w
  | e :: r => run r (exec (step e) w)
  end.

End Dispatch.

(** The world right after [new WebSocketManager()]. *)
Definition initial (id : string) (ls : Listeners) (time : string) : World :=
  {| manager := new_WebSocketManager id ls; browser := new_Browser time |}.

(** A transport is live while it is connecting or open. *)
Definition live (k : WebSocket) : bool :=
  match readyState k with
  | CONNECTING | OPEN => true
  | CLOSING | CLOSED => false
  end.

Definition live_transports (w : World) : nat :=
  length (List.filter live (sockets (browser w))).

(** ** The chrome extension APIs used by the request router *)

Module tab.
(** A [chrome.tabs.Tab]; [url] is absent without the host permission. *)
Record Tab := {
  id : nat;
  url : option string;
  title : string;
  status : string;
  discarded : bool;
  active : bool
}.
End tab.
Abbreviation Tab := tab.Tab.

(** The outcomes of the asynchronous API calls made while one request is
    served: a resolved value, or the message of the rejection. *)
Record Chrome := {
  (* chrome.tabs.query({ active: true, currentWindow: true }) *)
  query_active : Completion (list Tab);
  (* chrome.tabs.query({ url: CONFIG.designerUrls.patterns }) *)
  query_designer : Completion (list Tab);
  (* chrome.tabs.get(tabId) *)
  tabs_get : nat -> Completion (option Tab);
  (* chrome.scripting.executeScript(...): the [result] of each injection *)
  executeScript : nat -> Completion (list JsVal);
  (* chrome.tabs.sendMessage(tabId, message) *)
  sendMessage : nat -> JsVal -> Completion JsVal
}.

(** The predicate of both [designerTabs.filter(...)] calls. *)
Definition loaded (t : Tab) : Completion bool :=
  if String.eqb (tab.status t) "complete" && negb (tab.discarded t)
  then CONFIG.isDesignerPage (tab.url t)
  else Normal false.

(** [Array.prototype.filter] with a predicate that may throw. *)
Fixpoint filter_tabs (f : Tab -> Completion bool) (l : list Tab)
  : Completion (list Tab) :=
  match l with
  | [] => Normal []
  | t :: r =>
      match f t with
      | Throw m => Throw m
      | Normal keep =>
          match filter_tabs f r with
          | Throw m => Throw m
          | Normal r' => Normal (if keep then t :: r' else r')
          end
      end
  end.

(** ** WFDLValidatorPopup (popup script) *)

(** The DOM updates of the popup ([updateStats], [updateConnectionStatus])
    are left out. *)

Record Popup := { requestCount : nat; successCount : nat }.

(** [findDesignerTab()] *)
Definition findDesignerTab (chrome : Chrome) : M (Completion nat) :=
  match query_active chrome with
  | Throw m => ret (Throw m)
  | Normal tabs =>
      let activeTab := head tabs in
      let first :=
        match activeTab with
        | None => Normal None
        | Some t =>
            match CONFIG.isDesignerPage (tab.url t) with
            | Throw m => Throw m
            | Normal true => Normal (Some t)
            | Normal false => Normal None
            end
        end in
      match first with
      | Throw m => ret (Throw m)
      | Normal (Some t) =>
          logger info "Using active Designer tab";; ret (Normal (tab.id t))
      | Normal None =>
          match query_designer chrome with
          | Throw m => ret (Throw m)
          | Normal [] =>
              ret (Throw "No Webflow Designer tabs found - validation requires Designer page")
          | Normal designerTabs =>
              match filter_tabs loaded designerTabs with
              | Throw m => ret (Throw m)
              | Normal [] =>
                  ret (Throw "No loaded Designer tabs found - please refresh Designer page")
              | Normal (selectedTab :: _) =>
                  logger info "Using first loaded Designer tab";;
                  ret (Normal (tab.id selectedTab))
              end
          end
      end
  end.

Definition opt_str (o : option string) : JsVal :=
  match o with Some s => JStr s | None => JUndefined end.

(** The [try] block of [executeDesignerValidation]. *)
Definition executeDesignerValidation_try (chrome : Chrome) (tabId : nat) (requestId : JsVal)
  : M (Completion JsVal) :=
  match tabs_get chrome tabId with
  | Throw m => ret (Throw m)
  | Normal None => ret (Throw "Designer tab no longer exists")
  | Normal (Some t) =>
      if negb (String.eqb (tab.status t) "complete") then
        ret (Throw ("Designer tab is not fully loaded (status: " ++ tab.status t ++ ")"))
      else if tab.discarded t then
        ret (Throw "Designer tab has been discarded - please refresh the page")
      else
        match executeScript chrome tabId with
        | Throw m => ret (Throw m)
        | Normal results =>
            let result := default JUndefined (head results) in
            if negb (truthy result) then
              ret (Throw "No result from script execution")
            else if negb (truthy (prop result "success")) then
              ret (Throw (to_string (js_or (prop result "error")
                                           (JStr "Validation execution failed"))))
            else
              timestamp <- toISOString;;
              logger info "Designer validation completed successfully";;
              ret (Normal (JObj [
                ("success", JBool true);
                ("requestId", requestId);
                ("validationResult", prop result "data");
                ("source", JStr "wf.exportTrainingData");
                ("context", JObj [("url", opt_str (tab.url t));
                                  ("title", JStr (tab.title t));
                                  ("tabId", JNum (Z.of_nat (tab.id t)))]);
                ("timestamp", JStr timestamp)]))
        end
  end.

(** [executeDesignerValidation(tabId, requestId = null)] *)
Definition executeDesignerValidation (chrome : Chrome) (tabId : nat) (requestId : JsVal)
  : M (Completion JsVal) :=
  let requestId := match requestId with JUndefined => JNull | _ => requestId end in
  logger info "Executing Designer validation via chrome.scripting";;
  r <- executeDesignerValidation_try chrome tabId requestId;;
  match r with
  | Normal formattedResult => ret (Normal formattedResult)
  | Throw m =>
      logger error "Designer validation failed";;
      if includes m "Could not establish connection" ||
         includes m "Receiving end does not exist" then
        ret (Throw "Cannot communicate with Designer page - content script not loaded. Please refresh the Designer page and try again.")
      else if includes m "timeout" then
        ret (Throw "Designer page validation timed out - page may be busy or unresponsive")
      else ret (Throw ("Designer validation failed: " ++ m))
  end.

(** [sendValidationResult(requestId, result)] *)
Definition sendValidationResult (requestId result : JsVal) : M unit :=
  id <- this extensionId;;
  ok <- send (JObj [("type", JStr "validation_result");
                    ("requestId", requestId);
                    ("id", JStr id);
                    ("result", result)]);;
  if ok then logger info "Sent validation result"
  else logger error "Failed to send validation result".

(** [handleValidationRequest(message)], for a [message] object as
    dispatched by [handleWebSocketMessage]. *)
Definition handleValidationRequest (chrome : Chrome) (message : JsVal) (popup : Popup)
  : M Popup :=
  logger info "Processing validation request";;
  let popup := {| requestCount := S (requestCount popup);
                  successCount := successCount popup |} in
  (* try *)
  let requestId := js_or (prop message "requestId") (prop message "id") in
  found <- findDesignerTab chrome;;
  r <- match found with
       | Throw m => ret (Throw m)
       | Normal tabId => executeDesignerValidation chrome tabId requestId
       end;;
  match r with
  | Normal result =>
      logger info "Validation completed successfully";;
      sendValidationResult requestId result;;
      ret {| requestCount := requestCount popup;
             successCount := S (successCount popup) |}
  | Throw m =>
      logger error "Validation request failed";;
      sendValidationResult (prop message "requestId")
        (JObj [("success", JBool false);
               ("error", JStr m);
               ("requestId", prop message "requestId")]);;
      ret popup
  end.

(** [handleWebSocketMessage(message)]; the request it starts is followed
    to its end. *)
Definition handleWebSocketMessage (chrome : Chrome) (message : JsVal) (popup : Popup)
  : M Popup :=
  logger debug "Received WebSocket message";;
  if is_type message "wfdl_validation_request" then
    handleValidationRequest chrome message popup
  else if is_type message "registered" then
    logger info "Successfully registered with server";; ret popup
  else if is_type message "heartbeat_ack" then
    logger debug "Heartbeat acknowledged";; ret popup
  else if is_type message "ack" then
    logger info "Validation result acknowledged";; ret popup
  else if is_type message "error" then
    logger error "Server error";; ret popup
  else
    logger warn "Unknown message type";; ret popup.

(** ** Background service worker *)

(** The [try] block of [handleGetWFDLRequest]. *)
Definition handleGetWFDLRequest_try (chrome : Chrome) (messageData : JsVal)
  : M (Completion JsVal) :=
  match query_designer chrome with
  | Throw m => ret (Throw m)
  | Normal [] => ret (Throw "No Webflow Designer tabs found")
  | Normal designerTabs =>
      match filter_tabs loaded designerTabs with
      | Throw m => ret (Throw m)
      | Normal [] =>
          ret (Throw "No loaded Designer tabs found - please refresh Designer page")
      | Normal ((first :: _) as loadedTabs) =>
          (* loadedTabs.find(tab => tab.active) || loadedTabs[0] *)
          let activeTab := default first (List.find tab.active loadedTabs) in
          logger info "Using Designer tab";;
          match sendMessage chrome (tab.id activeTab)
                  (JObj [("type", JStr "get_wfdl");
                         ("wfdl", js_or (prop messageData "payload")
                                        (prop messageData "wfdl"));
                         ("requestId", prop messageData "requestId")]) with
          | Throw m => ret (Throw m)
          | Normal result =>
              logger info "got WFDL of the page";; ret (Normal result)
          end
      end
  end.

(** [handleGetWFDLRequest(messageData)] *)
Definition handleGetWFDLRequest (chrome : Chrome) (messageData : JsVal) : M JsVal :=
  logger info "Handling get WFDL request";;
  r <- handleGetWFDLRequest_try chrome messageData;;
  match r with
  | Normal result => ret result
  | Throw m =>
      logger error "get WFDL failed";;
      timestamp <- toISOString;;
      ret (JObj [("success", JBool false);
                 ("error", JStr m);
                 ("requestId", prop messageData "requestId");
                 ("timestamp", JStr timestamp)])
  end.

(** ** Page-context executors *)

(** A method of the page's [wf] object; [ThrowsError] is a method that
    throws an [Error] with the given message. A method that throws
    another value is a [Thrown.Method], below. *)
Inductive Method :=
| NotAFunction                   (* absent, or not callable *)
| ReturnsValue (v : JsVal)
| ThrowsError (message : string).

(** The global [wf] of the Designer page. *)
Inductive WfBinding :=
| Undeclared                     (* no such global *)
| DeclaredUndefined
| IsNull
| WfObject (exportTrainingData extractTrainingData : Method).

(** The page as the executors see it: [wf], the two [window] properties
    through which the injected script reports back ([JUndefined] when
    absent), and the exception raised by the DOM calls of [getWFDL], if
    any. *)
Record Page := {
  wf : WfBinding;
  __wfdlValidationError : JsVal;
  __wfdlValidationResult : JsVal;
  dom_exception : option string
}.

Definition not_available : string :=
  "wf.exportTrainingData not available in page context".

(** The script that [getWFDL] injects: [validationCode] inside the
    [try] of [wrappedCode]. It returns the page it leaves behind; the
    error it rethrows is reported to the page, not to [getWFDL]. *)
Definition validationCode (page : Page) : Completion Page :=
  match wf page with
  | Undeclared =>
      (* typeof wf?.exportTrainingData *)
      Throw "wf is not defined"
  | DeclaredUndefined | WfObject NotAFunction _ =>
      Throw not_available
  | IsNull =>
      Throw "Cannot read properties of null (reading 'exportTrainingData')"
  | WfObject (ThrowsError m) _ => Throw m
  | WfObject (ReturnsValue result) _ =>
      Normal {| wf := wf page;
                __wfdlValidationError := __wfdlValidationError page;
                __wfdlValidationResult := result;
                dom_exception := dom_exception page |}
  end.

Definition wrappedCode (page : Page) : Page :=
  match validationCode page with
  | Normal page' => page'
  | Throw m =>
      {| wf := wf page;
         __wfdlValidationError := JStr m;
         __wfdlValidationResult := __wfdlValidationResult page;
         dom_exception := dom_exception page |}
  end.

(** [getWFDL()]: the result object and the page afterwards. *)
Definition getWFDL (page : Page) : Completion JsVal * Page :=
  (* try *)
  match dom_exception page with
  | Some m =>
      (Normal (JObj [("success", JBool false);
                     ("error", JStr ("JavaScript Error: " ++ m))]), page)
  | None =>
      let page := wrappedCode page in
      if truthy (__wfdlValidationError page) then
        (Normal (JObj [("success", JBool false);
                       ("error", __wfdlValidationError page)]),
         {| wf := wf page;
            __wfdlValidationError := JUndefined;
            __wfdlValidationResult := __wfdlValidationResult page;
            dom_exception := dom_exception page |})
      else
        (Normal (JObj [("success", JBool true);
                       ("data", __wfdlValidationResult page)]),
         {| wf := wf page;
            __wfdlValidationError := __wfdlValidationError page;
            __wfdlValidationResult := JUndefined;
            dom_exception := dom_exception page |})
  end.

(** [ValidationExecutor._executeWfdlGet(notuse)] *)
Definition _executeWfdlGet (page : Page) : Completion JsVal :=
  (* try *)
  match wf page with
  | Undeclared | DeclaredUndefined | WfObject _ NotAFunction =>
      Normal (JObj [("success", JBool false);
                    ("error", JStr "wf.extractTrainingData not available in page context")])
  | IsNull =>
      Normal (JObj [("success", JBool false);
                    ("error", JStr ("get WFDL failed: " ++
                       "Cannot read properties of null (reading 'extractTrainingData')"))])
  | WfObject _ (ReturnsValue result) =>
      Normal (JObj [("success", JBool true); ("data", result)])
  | WfObject _ (ThrowsError m) =>
      Normal (JObj [("success", JBool false);
                    ("error", JStr ("get WFDL failed: " ++ m))])
  end.

(** ** Observations used by the statements *)

(** [m] leaves the observation [obs] of the world unchanged. *)
Definition preserves {A X} (obs : World -> X) (m : M A) : Prop :=
  forall w, obs (exec m w) = obs w.

(** Everything but the console and the record of listener invocations. *)
Definition state (w : World) :=
  (manager w, sockets (browser w), closes (browser w), wire (browser w),
   promises (browser w), timers (browser w), now (browser w)).

(** The kinds of all timers ever created, in creation order. *)
Definition kinds (w : World) : list TimerKind := kind <$> timers (browser w).

Definition is_reconnect (k : TimerKind) : bool :=
  match k with ReconnectTimer => true | _ => false end.

(** How many reconnection attempts were scheduled so far. *)
Definition reconnects_scheduled (w : World) : nat :=
  length (List.filter is_reconnect (kinds w)).

(** The reconnection state: the attempt counter and the number of
    reconnection timers created so far. *)
Definition recon (w : World) : nat * nat :=
  (reconnectAttempts (manager w), reconnects_scheduled w).

(** What [_attemptReconnection] does to it. *)
Definition bump (r : nat * nat) : nat * nat :=
  if Nat.leb CONFIG.maxReconnectAttempts (fst r) then r else (S (fst r), S (snd r)).

(** Whether the manager considers itself connected, and its counter. *)
Definition link (w : World) : bool * nat :=
  (isConnected (manager w), reconnectAttempts (manager w)).

Definition is_open (e : Event) : bool :=
  match e with Opened _ => true | _ => false end.

Definition no_open (es : list Event) : bool :=
  forallb (fun e => negb (is_open e)) es.

(** The event is a close with a code other than 1000 that the browser
    delivers to [onclose]. *)
Definition unclean_close (e : Event) (w : World) : bool :=
  match e with
  | Closed s code =>
      match sockets (browser w) !! s with
      | Some {| readyState := CLOSED |} | None => false
      | Some {| handlers := h |} => bool_decide (is_Some h) && negb (Nat.eqb code 1000)
      end
  | _ => false
  end.

(** The number of unclean closes handled along a run. *)
Fixpoint unclean_closes (JSON_parse : string -> Completion JsVal)
    (es : list Event) (w : World) : nat :=
  match es with
  | [] => 0
  | e :: r =>
      (if unclean_close e w then 1 else 0) +
      unclean_closes JSON_parse r (exec (step JSON_parse e) w)
  end.

Definition no_listeners : Listeners :=
  {| on_open := []; on_close := []; on_error := []; on_message := [] |}.

(** A parser that rejects every frame, for runs without inbound frames. *)
Definition reject_all (data : string) : Completion JsVal :=
  Throw "Unexpected end of JSON input".

(** Everything but the console. *)
Definition but_console (w : World) :=
  (manager w, sockets (browser w), closes (browser w), wire (browser w),
   promises (browser w), timers (browser w), invoked (browser w), now (browser w)).

(** Everything [send] cannot touch: all but the wire and the console. *)
Definition but_wire (w : World) :=
  (manager w, sockets (browser w), closes (browser w), promises (browser w),
   timers (browser w), invoked (browser w), now (browser w)).

(** The manager right after a successful connect. *)
Definition connected_world : World :=
  run reject_all [Connect; Opened 0]
      (initial "ext" no_listeners "2025-01-01T00:00:00.000Z").

(** [JSON.parse] restricted to three texts, for concrete runs: every
    other text is taken to be malformed. *)
Definition parse_literals (data : string) : Completion JsVal :=
  if String.eqb data "{}" then Normal (JObj [])
  else if String.eqb data "[]" then Normal (JArr [])
  else if String.eqb data "null" then Normal JNull
  else Throw "Unexpected token in JSON".

(** The text of the frame by which the server acknowledges a
    registration. *)
Definition registered_frame : string :=
  "{" ++ quote "type" ++ ":" ++ quote "registered" ++ "}".

(** [JSON.parse] restricted to that frame and the three texts above. *)
Definition parse_registered (data : string) : Completion JsVal :=
  if String.eqb data registered_frame then
    Normal (JObj [("type", JStr "registered")])
  else parse_literals data.

(** A manager with two message subscribers, the first of which throws. *)
Definition subscribed_world : World :=
  run parse_literals [Connect; Opened 0]
      (initial "ext"
         {| on_open := []; on_close := []; on_error := [];
            on_message := [{| cb_id := 7; cb_throws := Some "handler failed" |};
                           {| cb_id := 8; cb_throws := None |}] |}
         "2025-01-01T00:00:00.000Z").

Definition connected (w : World) : bool := isConnected (manager w).

Definition heartbeat (w : World) : option nat := heartbeatInterval (manager w).

Definition timers_of (w : World) : list Timer := timers (browser w).

Definition attempts (w : World) : nat := reconnectAttempts (manager w).

Definition subscribed (w : World) : Listeners := eventListeners (manager w).

(** Whether the timer with handle [i] is still scheduled. *)
Definition scheduled (i : nat) (w : World) : bool :=
  match timers (browser w) !! i with
  | Some t => active t
  | None => false
  end.

(** *** Concrete requests and tabs *)

Definition fresh_popup : Popup := {| requestCount := 0; successCount := 0 |}.

(** A request that carries its correlation id in [id]. *)
Definition request_r1 : JsVal :=
  JObj [("type", JStr "wfdl_validation_request"); ("id", JStr "r1");
        ("payload", JStr "x")].

Definition loading_active : Tab :=
  {| tab.id := 1; tab.url := Some "https://site.design.webflow.com/";
     tab.title := "Site"; tab.status := "loading"; tab.discarded := false;
     tab.active := true |}.

Definition loaded_background : Tab :=
  {| tab.id := 2; tab.url := Some "https://site.design.webflow.com/";
     tab.title := "Site"; tab.status := "complete"; tab.discarded := false;
     tab.active := false |}.

Definition loaded_active : Tab :=
  {| tab.id := 3; tab.url := Some "https://site.design.webflow.com/";
     tab.title := "Site"; tab.status := "complete"; tab.discarded := false;
     tab.active := true |}.

Definition other_page : Tab :=
  {| tab.id := 5; tab.url := Some "https://example.com/";
     tab.title := "Example"; tab.status := "complete"; tab.discarded := false;
     tab.active := true |}.

Definition mk_chrome (activeTabs designerTabs : list Tab) : Chrome :=
  {| query_active := Normal activeTabs;
     query_designer := Normal designerTabs;
     tabs_get := fun i =>
       match List.find (fun t => Nat.eqb (tab.id t) i) designerTabs with
       | Some t => Normal (Some t)
       | None => Throw ("No tab with id: " ++ dec_nat i ++ ".")
       end;
     executeScript := fun _ =>
       Normal [JObj [("success", JBool true); ("data", JStr "wfdl")]];
     sendMessage := fun i _ => Normal (JObj [("answeredBy", JNum (Z.of_nat i))]) |}.

(** No Designer tab is open; the focused tab shows another site. *)
Definition no_tabs : Chrome := mk_chrome [other_page] [].

(** The focused Designer tab is loaded. *)
Definition one_tab : Chrome := mk_chrome [loaded_active] [loaded_active].

(** The focused Designer tab is still loading; another one is loaded. *)
Definition two_tabs : Chrome :=
  mk_chrome [loading_active] [loading_active; loaded_background].

(** *** Results of the page executors *)


(** [window.__wfdlValidationError] is absent or a string, as [getWFDL]
    and its injected script leave it. *)
Definition slot_clean (page : Page) : Prop :=
  __wfdlValidationError page = JUndefined \/
  exists s, __wfdlValidationError page = JStr s.


(** * The rest of the extension *)

(** ** WebSocketManager: subscriptions *)

#[global] Instance Callback_eq_dec : EqDecision Callback.
Proof. solve_decision. Defined.

(** The names every object inherits from [Object.prototype]: looked up
    on [this.eventListeners] they yield a function (or the prototype),
    which is truthy and has neither [push] nor [indexOf]. *)
Definition inherited_names : list string :=
  ["constructor"; "hasOwnProperty"; "isPrototypeOf"; "propertyIsEnumerable";
   "toLocaleString"; "toString"; "valueOf"; "__proto__"; "__defineGetter__";
   "__defineSetter__"; "__lookupGetter__"; "__lookupSetter__"].

Definition inherited (event : string) : bool :=
  existsb (String.eqb event) inherited_names.

(** [this.eventListeners[event] = callbacks], for one of the four own keys. *)
Definition set_listeners (event : string) (callbacks : list Callback) (l : Listeners)
  : Listeners :=
  if String.eqb event "open" then
    {| on_open := callbacks; on_close := on_close l; on_error := on_error l;
       on_message := on_message l |}
  else if String.eqb event "close" then
    {| on_open := on_open l; on_close := callbacks; on_error := on_error l;
       on_message := on_message l |}
  else if String.eqb event "error" then
    {| on_open := on_open l; on_close := on_close l; on_error := callbacks;
       on_message := on_message l |}
  else if String.eqb event "message" then
    {| on_open := on_open l; on_close := on_close l; on_error := on_error l;
       on_message := callbacks |}
  else l.

Definition set_eventListeners v (m : WebSocketManager) :=
  {| ws := ws m; isConnected := isConnected m; reconnectAttempts := reconnectAttempts m;
     heartbeatInterval := heartbeatInterval m; extensionId := extensionId m;
     connectionPromise := connectionPromise m; eventListeners := v |}.

(** [on(event, callback)] *)
Definition on (event : string) (callback : Callback) : M (Completion unit) :=
  ls <- this eventListeners;;
  match listeners_of event ls with
  | Some callbacks =>
      assign (set_eventListeners (set_listeners event (callbacks ++ [callback]) ls));;
      ret (Normal tt)
  | None =>
      if inherited event then
        ret (Throw "this.eventListeners[event].push is not a function")
      else
        logger warn ("Unknown event type: " ++ event);; ret (Normal tt)
  end.

(** [Array.prototype.indexOf]; [None] stands for -1. *)
Fixpoint indexOf (callback : Callback) (l : list Callback) : option nat :=
  match l with
  | [] => None
  | c :: r =>
      if decide (c = callback) then Some 0 else S <$> indexOf callback r
  end.

(** [off(event, callback)] *)
Definition off (event : string) (callback : Callback) : M (Completion unit) :=
  ls <- this eventListeners;;
  match listeners_of event ls with
  | Some callbacks =>
      match indexOf callback callbacks with
      | Some index =>
          (* splice(index, 1) *)
          assign (set_eventListeners (set_listeners event (delete index callbacks) ls));;
          ret (Normal tt)
      | None => ret (Normal tt)
      end
  | None =>
      if inherited event then
        ret (Throw "this.eventListeners[event].indexOf is not a function")
      else ret (Normal tt)
  end.

Definition wire_of (w : World) : list (nat * string) := wire (browser w).

(** The frame [_registerExtension] builds. *)
Definition registrationMessage (w : World) : JsVal :=
  JObj [("type", JStr "register"); ("id", JStr (extensionId (manager w)));
        ("timestamp", JStr (now (browser w)))].

(** The frame a heartbeat tick builds. *)
Definition heartbeatMessage (w : World) : JsVal :=
  JObj [("type", JStr "heartbeat"); ("id", JStr (extensionId (manager w)));
        ("timestamp", JStr (now (browser w)))].

(** The transport a frame handed to [send] is transmitted on, if any:
    the manager has to consider itself connected and [this.ws] has to be
    open. *)
Definition transmits (w : World) : option nat :=
  if isConnected (manager w) then
    match ws (manager w) with
    | Some s =>
        match readyState_of s w with
        | Some OPEN => Some s
        | _ => None
        end
    | None => None
    end
  else None.

(** ** Logger: the class (utils/logger.js) *)

Module Logger.

(** A logger object; [logLevels] is the same table in every instance. *)
Record t := { context : string; currentLevel : nat }.

(** [new Logger(context)] *)
Definition new (context : string) : t :=
  {| context := context; currentLevel := logLevels info |}.

Definition name (l : Level) : string :=
  match l with debug => "debug" | info => "info" | warn => "warn" | error => "error" end.

(** [Object.keys(this.logLevels)], in insertion order. *)
Definition keys : list Level := [debug; info; warn; error].

(** The own property of [this.logLevels] that a key names, if any. *)
Definition own (key : string) : option Level :=
  List.find (fun l => String.eqb (name l) key) keys.

(** [setLevel(level)]: [hasOwnProperty] converts its argument to a
    property key. *)
Definition setLevel (level : JsVal) (lg : t) : t :=
  match own (to_string level) with
  | Some l => {| context := context lg; currentLevel := logLevels l |}
  | None => lg
  end.

(** [child(context)] *)
Definition child (ctx : string) (lg : t) : t :=
  let childLogger := new (context lg ++ ":" ++ ctx) in
  let key := List.find (fun l => Nat.eqb (logLevels l) (currentLevel lg)) keys in
  setLevel (match key with Some l => JStr (name l) | None => JUndefined end) childLogger.

(** [String.prototype.toUpperCase], on ASCII text. *)
Definition upper (c : Ascii.ascii) : Ascii.ascii :=
  let n := Ascii.nat_of_ascii c in
  if Nat.leb 97 n && Nat.leb n 122 then Ascii.ascii_of_nat (n - 32) else c.

Fixpoint toUpperCase (s : string) : string :=
  match s with
  | EmptyString => EmptyString
  | String c r => String (upper c) (toUpperCase r)
  end.

Inductive ConsoleMethod := console_error | console_warn | console_debug | console_log.

(** One call of a console method: the formatted message and, when it was
    passed, the data. *)
Record Line := { method : ConsoleMethod; logMessage : string; logData : option JsVal }.

(** What a logger writes to: the console and, in the popup, whatever
    [window.logToUI] updates. *)
Record Sink (UI : Type) := { lines : list Line; ui : UI }.
Arguments lines {UI} _.
Arguments ui {UI} _.

Section Log.
Context {UI : Type}.
(** [new Date().toISOString()], and [window.logToUI] where it is set. *)
Variable timestamp : string.
Variable logToUI : option (string -> string -> JsVal -> UI -> UI).

(** [_log(level, message, data = null)] for the four public levels. *)
Definition _log (lg : t) (level : Level) (message : string) (data : JsVal)
    (out : Sink UI) : Sink UI :=
  let data := match data with JUndefined => JNull | _ => data end in
  if Nat.ltb (logLevels level) (currentLevel lg) then out
  else
    let logMessage :=
      "[" ++ timestamp ++ "] [" ++ context lg ++ "] [" ++
      toUpperCase (name level) ++ "] " ++ message in
    let consoleMethod :=
      match level with
      | error => console_error
      | warn => console_warn
      | debug => console_debug
      | info => console_log
      end in
    let line := {| method := consoleMethod; logMessage := logMessage;
                   logData := if truthy data then Some data else None |} in
    {| lines := lines out ++ [line];
       ui := match logToUI with
             | Some f => f message (name level) data (ui out)
             | None => ui out
             end |}.

(** The calls [debug], [info], [warn] and [error] made on one logger, in
    order. *)
Definition Call : Type := Level * string * JsVal.

Definition log_all (lg : t) (calls : list Call) (out : Sink UI) : Sink UI :=
  fold_left (fun out c => _log lg c.1.1 c.1.2 c.2 out) calls out.
End Log.

(** What [setLevel] and [child] can make of a logger. *)
Inductive Op := SetLevel (level : JsVal) | Child (ctx : string).

Definition apply (lg : t) (op : Op) : t :=
  match op with
  | SetLevel level => setLevel level lg
  | Child ctx => child ctx lg
  end.

Definition derive (ops : list Op) (lg : t) : t := fold_left apply ops lg.

(** Whether a call passes the level filter of [lg]. *)
Definition passes (lg : t) (c : Call) : bool :=
  negb (Nat.ltb (logLevels c.1.1) (currentLevel lg)).

End Logger.

(** ** The popup's activity log *)

Module CONFIG_ui.
(** [CONFIG.ui.activityLog.maxEntries] *)
Definition maxEntries : nat := 50.
End CONFIG_ui.

(** A [div] of the activity log. *)
Record LogDiv := { className : string; textContent : string }.

(** The loop that limits the log: the first child is removed while
    there are more than [maxEntries] children. *)
Fixpoint limit (maxEntries : nat) (children : list LogDiv) : list LogDiv :=
  match children with
  | [] => []
  | _ :: rest =>
      if Nat.ltb maxEntries (length children) then limit maxEntries rest
      else children
  end.

(** [addLogEntry(message, level = 'info')]; [time] is
    [new Date().toLocaleTimeString()]. *)
Definition addLogEntry (time : string) (message level : string)
    (activityLog : list LogDiv) : list LogDiv :=
  let logEntry := {| className := "log-entry " ++ level;
                     textContent := "[" ++ time ++ "] " ++ message |} in
  limit CONFIG_ui.maxEntries (activityLog ++ [logEntry]).

(** [window.logToUI] as [setupUILogging] installs it. *)
Definition popup_logToUI (time : string)
  : string -> string -> JsVal -> list LogDiv -> list LogDiv :=
  fun message level data => addLogEntry time message level.

(** ** ValidationExecutor (utils/validation-executor.js) *)

Module ValidationExecutor.

(** [_verifyTab(tabId)] *)
Definition _verifyTab (chrome : Chrome) (tabId : nat) : Completion Tab :=
  match tabs_get chrome tabId with
  | Throw m => Throw m
  | Normal None => Throw "Tab no longer exists"
  | Normal (Some t) =>
      if negb (String.eqb (tab.status t) "complete") then
        Throw ("Tab is not fully loaded (status: " ++ tab.status t ++ ")")
      else if tab.discarded t then
        Throw "Tab has been discarded - please refresh the page"
      else
        match CONFIG.isDesignerPage (tab.url t) with
        | Throw m => Throw m
        | Normal false => Throw "Not on a Webflow Designer page"
        | Normal true => Normal t
        end
  end.

(** [_executeScriptGetWFDL(tabId, wfdlString)] *)
Definition _executeScriptGetWFDL (chrome : Chrome) (tabId : nat) : Completion JsVal :=
  match executeScript chrome tabId with
  | Throw m => Throw m
  | Normal results =>
      (* results[0]?.result || { ... } *)
      Normal (js_or (default JUndefined (head results))
                    (JObj [("success", JBool false);
                           ("error", JStr "No result from script execution")]))
  end.

(** The [try] block of [executeGetWFDL]. *)
Definition executeGetWFDL_try (chrome : Chrome) (tabId : nat) : M (Completion JsVal) :=
  match _verifyTab chrome tabId with
  | Throw m => ret (Throw m)
  | Normal _ =>
      match _executeScriptGetWFDL chrome tabId with
      | Throw m => ret (Throw m)
      | Normal result =>
          if negb (truthy (prop result "success")) then
            ret (Throw (to_string (js_or (prop result "error")
                                         (JStr "Getting WFDL failed"))))
          else
            logger info "Got WFDL successfully";; ret (Normal result)
      end
  end.

(** [executeGetWFDL(tabId, wfdlString, requestId = null)] *)
Definition executeGetWFDL (chrome : Chrome) (tabId : nat) : M (Completion JsVal) :=
  logger info "getting WFDL";;
  r <- executeGetWFDL_try chrome tabId;;
  match r with
  | Normal formattedResult => ret (Normal formattedResult)
  | Throw m => logger error "Gettng WFDL failed";; ret (Throw m)
  end.

End ValidationExecutor.

(** ** The popup serving a sequence of frames *)

(** The frames delivered to [handleWebSocketMessage] one after the
    other, each with the outcomes of the API calls made while it is
    served. *)
Fixpoint handle_all (requests : list (Chrome * JsVal)) (popup : Popup) : M Popup :=
  match requests with
  | [] => ret popup
  | (chrome, message) :: rest =>
      popup' <- handleWebSocketMessage chrome message popup;;
      handle_all rest popup'
  end.

(** How many of the frames are validation requests. *)
Definition validation_requests (requests : list (Chrome * JsVal)) : nat :=
  length (List.filter (fun r => is_type r.2 "wfdl_validation_request") requests).

(** ** Background service worker (background.js) *)

Module Background.

(** What a call of a promise-returning extension API does: the promise
    it returns resolves or rejects, or the call itself throws. *)
Inductive Outcome :=
| Resolves (v : JsVal)
| Rejects (message : string)
| ThrowsSync (message : string).

(** [await] of such a call. *)
Definition awaited (o : Outcome) : Completion JsVal :=
  match o with
  | Resolves v => Normal v
  | Rejects m | ThrowsSync m => Throw m
  end.

Record Api := {
  runtime_id : string;                               (* chrome.runtime.id *)
  tabs_sendMessage : JsVal -> JsVal -> Outcome;      (* chrome.tabs.sendMessage *)
  captureVisibleTab : Outcome;                       (* chrome.tabs.captureVisibleTab *)
  timestamp : string                                 (* new Date().toISOString() *)
}.

Inductive Call :=
| SendMessage (tabId message : JsVal)
| CaptureVisibleTab.

(** The worker: its variable [extensionId], and what it did so far: the
    console, the calls of [sendResponse] and the API calls. *)
Record State := {
  extensionId : option string;
  console : list LogEntry;
  responses : list JsVal;
  calls : list Call
}.

Definition initial : State :=
  {| extensionId := None; console := []; responses := []; calls := [] |}.

Definition log (level : Level) (message : string) (st : State) : State :=
  {| extensionId := extensionId st; console := _log level message (console st);
     responses := responses st; calls := calls st |}.

Definition sendResponse (response : JsVal) (st : State) : State :=
  {| extensionId := extensionId st; console := console st;
     responses := responses st ++ [response]; calls := calls st |}.

Definition call (c : Call) (st : State) : State :=
  {| extensionId := extensionId st; console := console st;
     responses := responses st; calls := calls st ++ [c] |}.

Definition set_extensionId (id : string) (st : State) : State :=
  {| extensionId := Some id; console := console st;
     responses := responses st; calls := calls st |}.

(** The [onInstalled] and [onStartup] listeners. *)
Definition onInstalled (api : Api) (st : State) : State :=
  let st := log info "Extension installed" st in
  let st := set_extensionId (runtime_id api) st in
  log info ("Extension ID: " ++ runtime_id api) st.

Definition onStartup (api : Api) (st : State) : State :=
  let st := log info "Extension started" st in
  set_extensionId (runtime_id api) st.

(** [forwardToPopup(message)] *)
Definition forwardToPopup (message : JsVal) (st : State) : State :=
  log debug "Forwarding message to popup" st.

Definition prepare_message (request : JsVal) : JsVal :=
  JObj [("type", JStr "prepare_component_screenshot");
        ("componentId", prop request "componentId");
        ("options", js_or (prop request "options") (JObj []))].

Definition crop_message (request screenshotDataUrl prepResult : JsVal) : JsVal :=
  JObj [("type", JStr "crop_component_screenshot");
        ("screenshotDataUrl", screenshotDataUrl);
        ("componentBounds", prop prepResult "componentBounds");
        ("componentId", prop request "componentId")].

Definition cleanup_message (request : JsVal) : JsVal :=
  JObj [("type", JStr "cleanup_component_screenshot");
        ("componentId", prop request "componentId")].

(** The [try] block of [handleComponentScreenshot], for a [request]
    object. A rejection of the clean-up call is handled by its [.catch]
    after the response was sent. *)
Definition handleComponentScreenshot_try (api : Api) (request : JsVal) (st : State)
  : Completion unit * State :=
  let st := log info "Handling component screenshot request" st in
  let tabId := prop request "tabId" in
  let st := call (SendMessage tabId (prepare_message request)) st in
  match awaited (tabs_sendMessage api tabId (prepare_message request)) with
  | Throw m => (Throw m, st)
  | Normal prepResult =>
      match get prepResult "success" with
      | Throw m => (Throw m, st)
      | Normal success =>
          if negb (truthy success) then
            (Throw (to_string (js_or (prop prepResult "error")
                      (JStr "Failed to prepare component for screenshot"))), st)
          else
            let st := call CaptureVisibleTab st in
            match awaited (captureVisibleTab api) with
            | Throw m => (Throw m, st)
            | Normal screenshotDataUrl =>
                let crop := crop_message request screenshotDataUrl prepResult in
                let st := call (SendMessage tabId crop) st in
                match awaited (tabs_sendMessage api tabId crop) with
                | Throw m => (Throw m, st)
                | Normal cropResult =>
                    match get cropResult "success" with
                    | Throw m => (Throw m, st)
                    | Normal success =>
                        if negb (truthy success) then
                          (Throw (to_string (js_or (prop cropResult "error")
                                    (JStr "Failed to crop component screenshot"))), st)
                        else
                          let st := call (SendMessage tabId (cleanup_message request)) st in
                          match tabs_sendMessage api tabId (cleanup_message request) with
                          | ThrowsSync m => (Throw m, st)
                          | cleaned =>
                              let st :=
                                sendResponse
                                  (JObj [("success", JBool true);
                                         ("screenshot", prop cropResult "croppedImage");
                                         ("componentId", prop request "componentId");
                                         ("bounds", prop prepResult "componentBounds")]) st in
                              (Normal tt,
                               match cleaned with
                               | Rejects _ => log warn "Cleanup failed" st
                               | _ => st
                               end)
                          end
                    end
                end
            end
      end
  end.

(** [handleComponentScreenshot(request, sender, sendResponse)]; [Throw]
    is the rejection of the promise it returns, which nothing handles. *)
Definition handleComponentScreenshot (api : Api) (request : JsVal) (st : State)
  : Completion unit * State :=
  match handleComponentScreenshot_try api request st with
  | (Normal _, st) => (Normal tt, st)
  | (Throw m, st) =>
      let st := log error "Component screenshot failed" st in
      let respond :=
        sendResponse (JObj [("success", JBool false); ("error", JStr m)]) in
      if truthy (prop request "tabId") then
        let st := call (SendMessage (prop request "tabId") (cleanup_message request)) st in
        match tabs_sendMessage api (prop request "tabId") (cleanup_message request) with
        | ThrowsSync m' => (Throw m', st)
        | _ => (Normal tt, respond st)
        end
      else (Normal tt, respond st)
  end.

(** The [onMessage] listener, followed to the end of the asynchronous
    work it starts; [Normal] carries the value the listener returns. *)
Definition onMessage (api : Api) (request : JsVal) (st : State)
  : Completion bool * State :=
  match get request "type" with
  | Throw m => (Throw m, st)
  | Normal _ =>
      let st := log debug "Background received message" st in
      if is_type request "get_extension_status" then
        let id :=
          match extensionId st with
          | Some id => js_or (JStr id) (JStr (runtime_id api))
          | None => JStr (runtime_id api)
          end in
        (Normal true,
         sendResponse (JObj [("success", JBool true);
                             ("extensionId", id);
                             ("timestamp", JStr (timestamp api))]) st)
      else if is_type request "connection_status" then
        let st := forwardToPopup request st in
        (Normal true, sendResponse (JObj [("success", JBool true)]) st)
      else if is_type request "capture_component_screenshot" then
        (Normal true, snd (handleComponentScreenshot api request st))
      else
        let st := log warn "Unknown message type" st in
        (Normal true,
         sendResponse (JObj [("success", JBool false);
                             ("error", JStr "Unknown message type")]) st)
  end.

Inductive Event := Installed | Startup | Incoming (request : JsVal).

Definition step (api : Api) (st : State) (e : Event) : State :=
  match e with
  | Installed => onInstalled api st
  | Startup => onStartup api st
  | Incoming request => snd (onMessage api request st)
  end.

Definition run (api : Api) (es : list Event) (st : State) : State :=
  fold_left (step api) es st.

Definition is_incoming (e : Event) : bool :=
  match e with Incoming _ => true | _ => false end.

(** The call asks the content script to clean up. *)
Definition is_cleanup (c : Call) : bool :=
  match c with
  | SendMessage _ message => is_type message "cleanup_component_screenshot"
  | CaptureVisibleTab => false
  end.

(** The API calls made for a screenshot that succeeds. *)
Definition full_protocol (request screenshotDataUrl prepResult : JsVal) : list Call :=
  let tabId := prop request "tabId" in
  [SendMessage tabId (prepare_message request);
   CaptureVisibleTab;
   SendMessage tabId (crop_message request screenshotDataUrl prepResult);
   SendMessage tabId (cleanup_message request)].

End Background.

(** A tab whose content script and capture always succeed, for concrete
    runs. *)
Definition cooperative : Background.Api :=
  {| Background.runtime_id := "abcdef";
     Background.tabs_sendMessage := fun _ message =>
       if is_type message "prepare_component_screenshot" then
         Background.Resolves (JObj [("success", JBool true);
                                    ("componentBounds", JObj [("x", JNum 0)])])
       else if is_type message "crop_component_screenshot" then
         Background.Resolves (JObj [("success", JBool true);
                                    ("croppedImage", JStr "data:image/png;base64,AAAA")])
       else Background.Resolves (JObj [("success", JBool true)]);
     Background.captureVisibleTab := Background.Resolves (JStr "data:image/png;base64,BBBB");
     Background.timestamp := "2025-01-01T00:00:00.000Z" |}.

Definition screenshot_request : JsVal :=
  JObj [("type", JStr "capture_component_screenshot");
        ("componentId", JStr "c1"); ("tabId", JNum 7)].

(** ** Content script (WFDLContentScript, the version with the screenshot handlers) *)

Module ContentScript.

(** What the content script sees of its page: the page-context state,
    the document, and whether the value that an injected script stores
    on [window] is there when the content script reads it back. *)
Record Env := {
  page : Page;
  href : string;            (* window.location.href *)
  title : string;           (* document.title *)
  visible : bool;
  timestamp : string        (* new Date().toISOString() *)
}.

Record State := { console : list LogEntry; responses : list JsVal }.

Definition log (level : Level) (message : string) (st : State) : State :=
  {| console := _log level message (console st); responses := responses st |}.

Definition sendResponse (response : JsVal) (st : State) : State :=
  {| console := console st; responses := responses st ++ [response] |}.

(** The [message] of [new Error(v)]. *)
Definition new_Error (v : JsVal) : string :=
  match v with JUndefined => EmptyString | _ => to_string v end.

(** What the script injected by [executeGetWFDLInPageContext] stores. *)
Definition stored_result (page : Page) : JsVal :=
  match wf page with
  | Undeclared | DeclaredUndefined | WfObject NotAFunction _ =>
      JObj [("success", JBool false);
            ("error", JStr "wf.exportTrainingData not available in page context")]
  | IsNull =>
      JObj [("success", JBool false);
            ("error", JStr "Cannot read properties of null (reading 'exportTrainingData')")]
  | WfObject (ReturnsValue result) _ =>
      JObj [("success", JBool true); ("data", result)]
  | WfObject (ThrowsError m) _ =>
      JObj [("success", JBool false); ("error", JStr m)]
  end.

(** [executeGetWFDLInPageContext(wfdlString)] *)
Definition executeGetWFDLInPageContext (env : Env) : Completion JsVal :=
  let result := if visible env then stored_result (page env) else JUndefined in
  if negb (truthy result) then Throw "No get WFDL result received"
  else if truthy (prop result "success") then Normal (prop result "data")
  else Throw (new_Error (prop result "error")).

(** [executeGetWFDL(wfdlString, requestId = null)] *)
Definition executeGetWFDL (env : Env) (wfdlString requestId : JsVal) (st : State)
  : Completion JsVal * State :=
  let requestId := match requestId with JUndefined => JNull | _ => requestId end in
  let st := log info "getting WFDL" st in
  match executeGetWFDLInPageContext env with
  | Normal result =>
      (Normal (JObj [("success", JBool true);
                     ("requestId", requestId);
                     ("wfdl", wfdlString);
                     ("validationResult", result);
                     ("source", JStr "wf.exportTrainingData");
                     ("context", JObj [("url", JStr (href env));
                                       ("title", JStr (title env))]);
                     ("timestamp", JStr (timestamp env))]), st)
  | Throw m =>
      (Throw ("getting WFDL failed: " ++ m), log error "Getting WFDL execution failed" st)
  end.

(** The [available] of the object that [checkGetWFDLAvailability]
    resolves with; its [wfType] and [validateType], which only
    [getDebugInfo] passes on, are left out. *)
Definition available (env : Env) : bool :=
  visible env &&
  match wf (page env) with
  | WfObject (ReturnsValue _) _ | WfObject (ThrowsError _) _ => true
  | _ => false
  end.

(** [handlePing(sendResponse)] *)
Definition handlePing (env : Env) (st : State) : State :=
  sendResponse (JObj [("success", JBool true);
                      ("message", JStr "Pong from content script");
                      ("available", JBool (available env));
                      ("url", JStr (href env));
                      ("timestamp", JStr (timestamp env))]) st.

(** [handleGetWFDLRequest(message, sendResponse)] *)
Definition handleGetWFDLRequest (env : Env) (message : JsVal) (st : State) : State :=
  let st := log info "Handling get WFDL request" st in
  match executeGetWFDL env (prop message "wfdl") (prop message "requestId") st with
  | (Normal result, st) => sendResponse result st
  | (Throw m, st) =>
      let st := log error "get WFDL failed" st in
      sendResponse (JObj [("success", JBool false);
                          ("error", JStr m);
                          ("requestId", prop message "requestId");
                          ("timestamp", JStr (timestamp env))]) st
  end.

(** [handleTestValidation(message, sendResponse)] *)
Definition handleTestValidation (env : Env) (message : JsVal) (st : State) : State :=
  let st := log info "Handling test validation" st in
  match executeGetWFDL env (prop message "wfdl") JUndefined st with
  | (Normal result, st) => sendResponse result st
  | (Throw m, st) =>
      sendResponse (JObj [("success", JBool false);
                          ("error", JStr m);
                          ("timestamp", JStr (timestamp env))]) st
  end.

(** [this.executeScript(...)]: the class has no such method. *)
Definition executeScript : Completion JsVal :=
  Throw "this.executeScript is not a function".

(** [handleDebugRequest(sendResponse)] *)
Definition handleDebugRequest (env : Env) (st : State) : State :=
  let st := log info "Handling debug request" st in
  match executeScript with
  | Normal result =>
      sendResponse (JObj [("success", JBool true);
                          ("debugInfo", result);
                          ("timestamp", JStr (timestamp env))]) st
  | Throw m =>
      let st := log error "Debug request failed" st in
      sendResponse (JObj [("success", JBool false);
                          ("error", JStr m);
                          ("timestamp", JStr (timestamp env))]) st
  end.

(** [handleStatusRequest(sendResponse)] *)
Definition handleStatusRequest (env : Env) (st : State) : State :=
  sendResponse (JObj [("success", JBool true);
                      ("available", JBool (available env));
                      ("url", JStr (href env));
                      ("title", JStr (title env));
                      ("timestamp", JStr (timestamp env))]) st.

(** [prepareComponentScreenshot(message, sendResponse)] *)
Definition prepareComponentScreenshot (message : JsVal) (st : State) : State :=
  let st := log info "Preparing component for screenshot" st in
  let outcome :=
    (* try *)
    match executeScript with
    | Throw m => Throw m
    | Normal result =>
        match get result "success" with
        | Throw m => Throw m
        | Normal success =>
            if negb (truthy success) then
              Throw (to_string (js_or (prop result "error")
                                      (JStr "Failed to find component")))
            else
              Normal (JObj [("success", JBool true);
                            ("componentBounds", prop result "bounds");
                            ("elementInfo", prop result "elementInfo")])
        end
    end in
  match outcome with
  | Normal response => sendResponse response st
  | Throw m =>
      let st := log error "Component preparation failed" st in
      sendResponse (JObj [("success", JBool false); ("error", JStr m)]) st
  end.

(** [cropComponentScreenshot(message, sendResponse)] *)
Definition cropComponentScreenshot (message : JsVal) (st : State) : State :=
  let st := log info "Cropping component screenshot" st in
  let outcome :=
    (* try *)
    match executeScript with
    | Throw m => Throw m
    | Normal result =>
        match get result "success" with
        | Throw m => Throw m
        | Normal success =>
            if negb (truthy success) then
              Throw (to_string (js_or (prop result "error")
                                      (JStr "Failed to crop image")))
            else
              Normal (JObj [("success", JBool true);
                            ("croppedImage", prop result "croppedImage")])
        end
    end in
  match outcome with
  | Normal response => sendResponse response st
  | Throw m =>
      let st := log error "Image cropping failed" st in
      sendResponse (JObj [("success", JBool false); ("error", JStr m)]) st
  end.

(** [cleanupComponentScreenshot(message, sendResponse)] *)
Definition cleanupComponentScreenshot (message : JsVal) (st : State) : State :=
  let st := log info "Cleaning up component screenshot" st in
  match executeScript with
  | Normal _ => sendResponse (JObj [("success", JBool true)]) st
  | Throw m =>
      let st := log error "Cleanup failed" st in
      sendResponse (JObj [("success", JBool false); ("error", JStr m)]) st
  end.

(** [handleMessage(message, sender, sendResponse)]; [Throw] is the
    rejection of the promise it returns. None of the handlers lets an
    exception escape, so the [catch] of [handleMessage] is not reached. *)
Definition handleMessage (env : Env) (message : JsVal) (st : State)
  : Completion unit * State :=
  match get message "type" with
  | Throw m => (Throw m, st)
  | Normal _ =>
      let st := log debug "Received message" st in
      (Normal tt,
       if is_type message "ping" then handlePing env st
       else if is_type message "get_wfdl" then handleGetWFDLRequest env message st
       else if is_type message "test_validation" then handleTestValidation env message st
       else if is_type message "debug_page" then handleDebugRequest env st
       else if is_type message "get_designer_status" then handleStatusRequest env st
       else if is_type message "prepare_component_screenshot" then
         prepareComponentScreenshot message st
       else if is_type message "crop_component_screenshot" then
         cropComponentScreenshot message st
       else if is_type message "cleanup_component_screenshot" then
         cleanupComponentScreenshot message st
       else
         let st := log warn "Unknown message type" st in
         sendResponse (JObj [("success", JBool false);
                             ("error", JStr "Unknown message type");
                             ("timestamp", JStr (timestamp env))]) st)
  end.

(** The content script as the receiving end of [chrome.tabs.sendMessage]:
    the promise resolves with the response sent. *)
Definition answer (env : Env) (message : JsVal) : Background.Outcome :=
  match handleMessage env message {| console := []; responses := [] |} with
  | (Normal _, st) =>
      match responses st with
      | response :: _ => Background.Resolves response
      | [] => Background.Rejects "The message port closed before a response was received."
      end
  | (Throw m, _) =>
      Background.Rejects "The message port closed before a response was received."
  end.

End ContentScript.

(** A Designer page whose [wf.exportTrainingData] returns, as the
    content script sees it. *)
Definition designer_env : ContentScript.Env :=
  {| ContentScript.page :=
       {| wf := WfObject (ReturnsValue (JStr "wfdl")) NotAFunction;
          __wfdlValidationError := JUndefined;
          __wfdlValidationResult := JUndefined;
          dom_exception := None |};
     ContentScript.href := "https://site.design.webflow.com/";
     ContentScript.title := "Site";
     ContentScript.visible := true;
     ContentScript.timestamp := "2025-01-01T00:00:00.000Z" |}.

(** ** The Gemini helpers *)

Module Gemini.

(** [a-z] *)
Definition is_lower (c : Ascii.ascii) : bool :=
  let n := Ascii.nat_of_ascii c in Nat.leb 97 n && Nat.leb n 122.

(** The rest of [s] after the prefix [p], if [s] starts with [p]. *)
Fixpoint after (p s : string) : option string :=
  match p, s with
  | EmptyString, _ => Some s
  | String a p', String b s' => if Ascii.eqb a b then after p' s' else None
  | String _ _, EmptyString => None
  end.

(** The rest of [s] after its longest prefix of lower-case letters. *)
Fixpoint skip_lower (s : string) : string :=
  match s with
  | String c r => if is_lower c then skip_lower r else s
  | EmptyString => EmptyString
  end.

(** [base64Image.replace(/^data:image\/[a-z]+;base64,/, '')]. The
    letters matched by [[a-z]+] are the longest run: no shorter run can
    be followed by the semicolon. *)
Definition stripDataUrl (base64Image : string) : string :=
  match after "data:image/" base64Image with
  | Some (String c r) =>
      if is_lower c then
        match after ";base64," (skip_lower r) with
        | Some imageData => imageData
        | None => base64Image
        end
      else base64Image
  | _ => base64Image
  end.

(** [s.split(',')] *)
Fixpoint split_comma (s : string) : list string :=
  match s with
  | EmptyString => [EmptyString]
  | String c r =>
      if Ascii.eqb c (Ascii.ascii_of_nat 44) then EmptyString :: split_comma r
      else
        match split_comma r with
        | first :: rest => String c first :: rest
        | [] => [String c EmptyString]
        end
  end.

(** The response of the Express handler: the status (200 unless set)
    and the JSON body. *)
Record Response := { status : nat; body : JsVal }.

(** [app.post('/generate-summary', ...)], for the [base64Image] of the
    request body. [generateContent] is the call of the model with the
    inline data, followed by [result.response.text()]. *)
Definition generate_summary (generateContent : JsVal -> Completion JsVal)
    (base64Image : JsVal) : Response :=
  if negb (truthy base64Image) then
    {| status := 400; body := JObj [("error", JStr "No image provided")] |}
  else
    let outcome :=
      match base64Image with
      | JStr s =>
          generateContent
            (match split_comma s !! 1 with Some data => JStr data | None => JUndefined end)
      | _ => Throw "base64Image.split is not a function"
      end in
    match outcome with
    | Normal text => {| status := 200; body := JObj [("summary", text)] |}
    | Throw m =>
        {| status := 500;
           body := JObj [("error", JStr "Gemini call failed"); ("detail", JStr m)] |}
    end.

(** [v[0]] on a value that is neither [undefined] nor [null]. *)
Definition first (v : JsVal) : JsVal :=
  match v with
  | JArr (x :: _) => x
  | JStr (String c _) => JStr (String c EmptyString)
  | JObj fs => lookup_field "0" fs
  | _ => JUndefined
  end.

(** The response of [fetch], as far as the popup reads it. *)
Record FetchResponse := {
  ok : bool;
  text : Completion string;       (* await response.text() *)
  json : Completion JsVal         (* await response.json() *)
}.

(** [callGeminiWithScreenshot(base64Image)] of the popup: the promise
    resolves with a summary or rejects with an [Error]. The request it
    sends is left out. *)
Definition callGeminiWithScreenshot (geminiApiKey : JsVal)
    (fetch : Completion FetchResponse) : Completion JsVal :=
  if negb (truthy geminiApiKey) then
    Throw "No Gemini API key found. Please save it in the extension."
  else
    (* try *)
    let outcome :=
      match fetch with
      | Throw m => Throw m
      | Normal response =>
          if negb (ok response) then
            match text response with
            | Throw m => Throw m
            | Normal errText => Normal (inl errText)
            end
          else
            match json response with
            | Throw m => Throw m
            | Normal data =>
                (* data?.candidates?.[0]?.content?.parts?.[0]?.text *)
                let text :=
                  prop (first (prop (prop (first (prop data "candidates"))
                                          "content") "parts")) "text" in
                Normal (inr (js_or text (JStr "No summary returned")))
            end
      end in
    match outcome with
    | Normal (inl errText) => Throw ("Gemini API call failed: " ++ errText)
    | Normal (inr summary) => Normal summary
    | Throw m => Throw ("Gemini request error: " ++ m)
    end.

(** The [onload] handler of the popup's file reader: what it leaves in
    the output element. *)
Definition show_summary (geminiApiKey : JsVal) (fetch : Completion FetchResponse)
  : string :=
  match callGeminiWithScreenshot geminiApiKey fetch with
  | Normal summary => to_string (js_or summary (JStr "No summary returned."))
  | Throw m => "Error: " ++ m
  end.

End Gemini.

(** Text made of lower-case letters only, and text without a comma. *)
Fixpoint all_lower (t : string) : bool :=
  match t with
  | EmptyString => true
  | String c r => Gemini.is_lower c && all_lower r
  end.

Fixpoint no_comma (s : string) : bool :=
  match s with
  | EmptyString => true
  | String c r => negb (Ascii.eqb c (Ascii.ascii_of_nat 44)) && no_comma r
  end.

(** A data URL: [data:image/<subtype>;base64,<payload>]. *)
Definition data_url (subtype payload : string) : string :=
  "data:image/" ++ subtype ++ ";base64," ++ payload.


(** * Foreign code that throws any value

    The callbacks subscribed to the manager, the functions of the page's
    [wf] object, the DOM as the page has patched it and the hooks that
    [JSON.stringify] and a property read run on a message are not code
    of the extension, and JavaScript lets them throw any value, not only
    an [Error]. The [catch] blocks of the extension read [error.message],
    which itself throws when the value caught is [null] or [undefined].
    The definitions above take every thrown value to be an [Error] with
    a string message; those of this module take it as it comes, and
    coincide with the ones above on such errors. *)
Module Thrown.

(** How a call into foreign code completes: with the value it returns
    or with the value it throws. *)
Inductive Result (A : Type) : Type :=
| Returned (a : A)
| Raised (thrown : JsVal).
Arguments Returned {A} a.
Arguments Raised {A} thrown.

(** An [Error] object, as far as a [catch] block looks at it. *)
Definition Error (message : string) : JsVal := JObj [("message", JStr message)].

Definition of_completion {A} (c : Completion A) : Result A :=
  match c with
  | Normal a => Returned a
  | Throw m => Raised (Error m)
  end.

(** The values whose properties cannot be read. *)
Definition nullish (v : JsVal) : bool :=
  match v with
  | JUndefined | JNull => true
  | _ => false
  end.


(** ** Subscribers *)

(** A subscribed callback: [call_throws] is the value it throws, if it
    throws. *)
Record Callback := { call_id : nat; call_throws : option JsVal }.

(** The body of the loop of [_emitEvent]. The argument of
    [logger.error] is evaluated before the call, so nothing is logged
    when reading [error.message] throws. *)
Definition invoke (data : Payload) (callback : Callback) : M (Completion unit) :=
  (* try *)
  effect (fun b => set_invoked (invoked b ++ [(call_id callback, data)]) b);;
  match call_throws callback with
  | None => ret (Normal tt)
  | Some thrown =>
      (* catch (error) *)
      match get thrown "message" with
      | Throw m => ret (Throw m)
      | Normal _ => logger error "Error in event listener";; ret (Normal tt)
      end
  end.

(** [Array.prototype.forEach]: an exception of the function ends it. *)
Fixpoint forEach {A} (f : A -> M (Completion unit)) (l : list A)
  : M (Completion unit) :=
  match l with
  | [] => ret (Normal tt)
  | x :: rest =>
      c <- f x;;
      match c with
      | Normal _ => forEach f rest
      | Throw m => ret (Throw m)
      end
  end.

(** [WebSocketManager._emitEvent(event, data)], where [subscribed] is
    [this.eventListeners[event]]: the array of the event, if it has one. *)
Definition _emitEvent (subscribed : option (list Callback)) (data : Payload)
  : M (Completion unit) :=
  match subscribed with
  | Some callbacks => forEach (invoke data) callbacks
  | None => ret (Normal tt)
  end.

(** The callback ends the loop: it throws [null] or [undefined]. *)
Definition stops (callback : Callback) : bool :=
  match call_throws callback with
  | Some thrown => nullish thrown
  | None => false
  end.

(** The callback throws a value whose [message] can be read. *)
Definition isolated (callback : Callback) : bool :=
  match call_throws callback with
  | Some thrown => negb (nullish thrown)
  | None => false
  end.

(** The callbacks up to and including the first one that ends the loop. *)
Fixpoint reached (callbacks : list Callback) : list Callback :=
  match callbacks with
  | [] => []
  | callback :: rest =>
      callback :: (if stops callback then [] else reached rest)
  end.

(** ** Messages *)

(** A message as [send] uses it: what [JSON.stringify(message)] and the
    read of [message.type] do. *)
Record Message := {
  stringify : Result (option string);
  read_type : Result JsVal
}.

(** [WebSocketManager.send(message)] *)
Definition send (message : Message) : M (Completion bool) :=
  connected <- this isConnected;;
  transport <- this ws;;
  match connected, transport with
  | true, Some s =>
      (* try *)
      attempt <-
        match stringify message with
        | Raised thrown => ret (Raised thrown)
        | Returned messageString =>
            sent <- ws_send s (default "undefined" messageString);;
            match sent with
            | Throw m => ret (Raised (Error m))
            | Normal _ =>
                match read_type message with
                | Raised thrown => ret (Raised thrown)
                | Returned _ => logger debug "Message sent";; ret (Returned true)
                end
            end
        end;;
      match attempt with
      | Returned sent => ret (Normal sent)
      | Raised thrown =>
          (* catch (error) *)
          match get thrown "message" with
          | Throw m => ret (Throw m)
          | Normal _ => logger error "Error sending message";; ret (Normal false)
          end
      end
  | _, _ =>
      logger error "Cannot send message: not connected";; ret (Normal false)
  end.

(** ** Page-context executors *)

(** A method of the page's [wf] object. *)
Inductive Method :=
| NotAFunction                   (* absent, or not callable *)
| ReturnsValue (v : JsVal)
| Throws (thrown : JsVal).

(** The global [wf] of the Designer page. *)
Inductive WfBinding :=
| Undeclared                     (* no such global *)
| DeclaredUndefined
| IsNull
| WfObject (exportTrainingData extractTrainingData : Method).

(** The page as the executors see it; [dom_exception] is the value
    thrown by the DOM calls of [getWFDL], if they throw. *)
Record Page := {
  wf : WfBinding;
  __wfdlValidationError : JsVal;
  __wfdlValidationResult : JsVal;
  dom_exception : option JsVal
}.

(** [validationCode], the script inside the [try] of [wrappedCode]. *)
Definition validationCode (page : Page) : Result Page :=
  match wf page with
  | Undeclared =>
      (* typeof wf?.exportTrainingData *)
      Raised (Error "wf is not defined")
  | DeclaredUndefined | WfObject NotAFunction _ =>
      Raised (Error not_available)
  | IsNull =>
      Raised (Error "Cannot read properties of null (reading 'exportTrainingData')")
  | WfObject (Throws thrown) _ => Raised thrown
  | WfObject (ReturnsValue result) _ =>
      Returned {| wf := wf page;
                  __wfdlValidationError := __wfdlValidationError page;
                  __wfdlValidationResult := result;
                  dom_exception := dom_exception page |}
  end.

(** [wrappedCode]: when the read of [error.message] throws in its
    [catch], the slot is not written. What the script throws goes to
    the page, not to [getWFDL]. *)
Definition wrappedCode (page : Page) : Page :=
  match validationCode page with
  | Returned page' => page'
  | Raised thrown =>
      (* catch (error) *)
      match get thrown "message" with
      | Throw _ => page
      | Normal message =>
          {| wf := wf page;
             __wfdlValidationError := message;
             __wfdlValidationResult := __wfdlValidationResult page;
             dom_exception := dom_exception page |}
      end
  end.

(** [getWFDL()]: the result object, or the exception that leaves it,
    and the page afterwards. *)
Definition getWFDL (page : Page) : Completion JsVal * Page :=
  (* try *)
  match dom_exception page with
  | Some thrown =>
      (* catch (error) *)
      match get thrown "message" with
      | Throw m => (Throw m, page)
      | Normal message =>
          (Normal (JObj [("success", JBool false);
                         ("error", JStr ("JavaScript Error: " ++ to_string message))]),
           page)
      end
  | None =>
      let page := wrappedCode page in
      if truthy (__wfdlValidationError page) then
        (Normal (JObj [("success", JBool false);
                       ("error", __wfdlValidationError page)]),
         {| wf := wf page;
            __wfdlValidationError := JUndefined;
            __wfdlValidationResult := __wfdlValidationResult page;
            dom_exception := dom_exception page |})
      else
        (Normal (JObj [("success", JBool true);
                       ("data", __wfdlValidationResult page)]),
         {| wf := wf page;
            __wfdlValidationError := __wfdlValidationError page;
            __wfdlValidationResult := JUndefined;
            dom_exception := dom_exception page |})
  end.

(** [ValidationExecutor._executeWfdlGet(notuse)] *)
Definition _executeWfdlGet (page : Page) : Completion JsVal :=
  (* try *)
  match wf page with
  | Undeclared | DeclaredUndefined | WfObject _ NotAFunction =>
      Normal (JObj [("success", JBool false);
                    ("error", JStr "wf.extractTrainingData not available in page context")])
  | IsNull =>
      Normal (JObj [("success", JBool false);
                    ("error", JStr ("get WFDL failed: " ++
                       "Cannot read properties of null (reading 'extractTrainingData')"))])
  | WfObject _ (ReturnsValue result) =>
      Normal (JObj [("success", JBool true); ("data", result)])
  | WfObject _ (Throws thrown) =>
      (* catch (error) *)
      match get thrown "message" with
      | Throw m => Throw m
      | Normal message =>
          Normal (JObj [("success", JBool false);
                        ("error", JStr ("get WFDL failed: " ++ to_string message))])
      end
  end.





End Thrown.

(** ** The errors of the definitions above, as thrown values *)

Definition thrown_callback (callback : Callback) : Thrown.Callback :=
  {| Thrown.call_id := cb_id callback;
     Thrown.call_throws := Thrown.Error <$> cb_throws callback |}.

Definition thrown_message (message : JsVal) : Thrown.Message :=
  {| Thrown.stringify := Thrown.of_completion (JSON_stringify message);
     Thrown.read_type := Thrown.of_completion (get message "type") |}.

Definition thrown_method (method : Method) : Thrown.Method :=
  match method with
  | NotAFunction => Thrown.NotAFunction
  | ReturnsValue v => Thrown.ReturnsValue v
  | ThrowsError m => Thrown.Throws (Thrown.Error m)
  end.

Definition thrown_wf (binding : WfBinding) : Thrown.WfBinding :=
  match binding with
  | Undeclared => Thrown.Undeclared
  | DeclaredUndefined => Thrown.DeclaredUndefined
  | IsNull => Thrown.IsNull
  | WfObject exportTrainingData extractTrainingData =>
      Thrown.WfObject (thrown_method exportTrainingData)
                      (thrown_method extractTrainingData)
  end.

Definition thrown_page (page : Page) : Thrown.Page :=
  {| Thrown.wf := thrown_wf (wf page);
     Thrown.__wfdlValidationError := __wfdlValidationError page;
     Thrown.__wfdlValidationResult := __wfdlValidationResult page;
     Thrown.dom_exception := Thrown.Error <$> dom_exception page |}.
(** * Reasoning about monadic code *)

Local Open Scope list_scope.

(** [exec] and [eval] along the monad operations. *)
Lemma exec_bind {A B} (m : M A) (k : A -> M B) (w : World) :
  exec (bind m k) w = exec (k (eval m w)) (exec m w).
Proof. unfold exec, eval, bind. destruct (m w); reflexivity. Qed.

Lemma eval_bind {A B} (m : M A) (k : A -> M B) (w : World) :
  eval (bind m k) w = eval (k (eval m w)) (exec m w).
Proof. unfold exec, eval, bind. destruct (m w); reflexivity. Qed.

Lemma exec_ret {A} (a : A) w : exec (ret a) w = w.
Proof. reflexivity. Qed.
Lemma eval_ret {A} (a : A) w : eval (ret a) w = a.
Proof. reflexivity. Qed.
Lemma exec_gets {A} (f : World -> A) w : exec (gets f) w = w.
Proof. reflexivity. Qed.
Lemma eval_gets {A} (f : World -> A) w : eval (gets f) w = f w.
Proof. reflexivity. Qed.
Lemma exec_this {A} (f : WebSocketManager -> A) w : exec (this f) w = w.
Proof. reflexivity. Qed.
Lemma eval_this {A} (f : WebSocketManager -> A) w : eval (this f) w = f (manager w).
Proof. reflexivity. Qed.

(** Pushes [exec] and [eval] through binds and reads. *)
Ltac msimpl :=
  repeat first
    [ rewrite exec_bind | rewrite eval_bind | rewrite exec_ret | rewrite eval_ret
    | rewrite exec_gets | rewrite eval_gets | rewrite exec_this | rewrite eval_this ].

Section Preserves.
Context {X : Type} (obs : World -> X).

Lemma preserves_ret {A} (a : A) : preserves obs (ret a).
Proof. intros w; reflexivity. Qed.

Lemma preserves_gets {A} (f : World -> A) : preserves obs (gets f).
Proof. intros w; reflexivity. Qed.

Lemma preserves_this {A} (f : WebSocketManager -> A) : preserves obs (this f).
Proof. intros w; reflexivity. Qed.

Lemma preserves_bind {A B} (m : M A) (k : A -> M B) :
  preserves obs m -> (forall a, preserves obs (k a)) -> preserves obs (bind m k).
Proof. intros Hm Hk w. rewrite exec_bind, Hk, Hm. reflexivity. Qed.

Lemma preserves_forEach {A} (f : A -> M unit) (l : list A) :
  (forall a, preserves obs (f a)) -> preserves obs (forEach f l).
Proof.
  intros Hf. induction l as [|a l IH]; simpl.
  - apply preserves_ret.
  - apply preserves_bind; auto.
Qed.
End Preserves.

Lemma preserves_repeat_log {X} (obs : World -> X) n level message :
  (preserves obs (logger level message)) -> preserves obs (repeat_log n level message).
Proof.
  intros H. induction n as [|n IH]; simpl.
  - apply preserves_ret.
  - apply preserves_bind; auto.
Qed.

Create HintDb pres.

(** Decomposes a goal [preserves obs m] along the structure of [m]. *)
Ltac pres_leaf := solve [ intros ?; reflexivity ].
Ltac pres :=
  repeat first
    [ progress intros
    | solve [ auto with pres ]
    | apply preserves_ret
    | apply preserves_gets
    | apply preserves_this
    | apply preserves_bind
    | apply preserves_forEach
    | apply preserves_repeat_log
    | match goal with
      | |- preserves _ (match ?x with _ => _ end) => destruct x
      end
    | pres_leaf ].

(** ** Timers and the reconnection state *)

(** Clearing a timer keeps its kind; creating one appends its kind. *)
Lemma kind_alter (f : Timer -> Timer) (h : nat) (l : list Timer) :
  (forall t, kind (f t) = kind t) -> kind <$> alter f h l = kind <$> l.
Proof.
  intros Hf. revert h. induction l as [|t l IH]; intros [|h]; simpl; try reflexivity.
  - rewrite Hf. reflexivity.
  - f_equal. apply IH.
Qed.

Lemma clear_timer_kinds h : preserves kinds (clear_timer h).
Proof. intros w. unfold kinds; simpl. apply kind_alter. reflexivity. Qed.

Lemma clear_timer_manager h : preserves manager (clear_timer h).
Proof. pres. Qed.

Lemma new_timer_kinds k w : kinds (exec (new_timer k) w) = kinds w ++ [k].
Proof. unfold kinds; simpl. rewrite fmap_app. reflexivity. Qed.

Lemma new_timer_manager k : preserves manager (new_timer k).
Proof. pres. Qed.

Lemma reconnects_scheduled_new k w :
  reconnects_scheduled (exec (new_timer k) w) =
  (if is_reconnect k then 1 else 0) + reconnects_scheduled w.
Proof.
  unfold reconnects_scheduled. rewrite new_timer_kinds.
  rewrite List.filter_app, length_app. simpl. destruct (is_reconnect k); simpl; lia.
Qed.

Lemma new_timer_recon k : is_reconnect k = false -> preserves recon (new_timer k).
Proof.
  intros Hk w. unfold recon. rewrite reconnects_scheduled_new, Hk.
  rewrite new_timer_manager. reflexivity.
Qed.

Lemma clear_timer_recon h : preserves recon (clear_timer h).
Proof.
  intros w. unfold recon, reconnects_scheduled.
  rewrite clear_timer_kinds, clear_timer_manager. reflexivity.
Qed.

#[local] Hint Resolve new_timer_recon clear_timer_recon : pres.

(** Every operation of the manager but [_attemptReconnection] leaves the
    reconnection state alone. *)
Lemma send_recon message : preserves recon (send message).
Proof. unfold send, ws_send. pres. Qed.
#[local] Hint Resolve send_recon : pres.

Lemma _emitEvent_recon event data : preserves recon (_emitEvent event data).
Proof. unfold _emitEvent, invoke. pres. Qed.
#[local] Hint Resolve _emitEvent_recon : pres.

Lemma resolve_recon p v : preserves recon (resolve p v).
Proof. pres. Qed.

Lemma reject_recon p r : preserves recon (reject p r).
Proof. unfold reject. pres. Qed.
#[local] Hint Resolve resolve_recon reject_recon : pres.

Lemma connect_recon : preserves recon connect.
Proof.
  unfold connect, _attemptConnection, new_Promise, new_WebSocket, setTimeout,
    install_handlers. pres.
Qed.

Lemma disconnect_recon : preserves recon disconnect.
Proof. unfold disconnect, clearInterval, ws_close, set_readyState. pres. Qed.

Lemma _handleMessage_recon parse data : preserves recon (_handleMessage parse data).
Proof. unfold _handleMessage. pres. Qed.

Lemma onerror_recon h : preserves recon (onerror h).
Proof. unfold onerror, clearTimeout. pres. Qed.

Lemma timeout_tick_recon p : preserves recon (timeout_tick p).
Proof. unfold timeout_tick, ws_close, set_readyState. pres. Qed.

Lemma heartbeat_tick_recon : preserves recon heartbeat_tick.
Proof. unfold heartbeat_tick, toISOString. pres. Qed.

#[local] Hint Resolve connect_recon : pres.
Lemma reconnect_tick_recon : preserves recon reconnect_tick.
Proof. unfold reconnect_tick. pres. Qed.

(** [_attemptReconnection] schedules one timer and counts it, unless the
    counter has reached the maximum. *)
Lemma _attemptReconnection_recon w :
  recon (exec _attemptReconnection w) = bump (recon w).
Proof.
  unfold _attemptReconnection, bump, recon. msimpl. cbn [fst snd].
  destruct (Nat.leb CONFIG.maxReconnectAttempts (reconnectAttempts (manager w))).
  - reflexivity.
  - msimpl. unfold setTimeout.
    rewrite reconnects_scheduled_new, new_timer_manager. reflexivity.
Qed.

(** Unfolds the methods down to the browser primitives. *)
Ltac unfold_ops :=
  unfold onopen, onclose, onerror, timeout_tick, reconnect_tick, heartbeat_tick,
    connect, disconnect, _attemptConnection, _attemptReconnection,
    _registerExtension, _startHeartbeat, _emitEvent, invoke, send, ws_send,
    ws_close, set_readyState, install_handlers, new_Promise, new_WebSocket,
    resolve, reject, setTimeout, setInterval, clearTimeout, clearInterval,
    toISOString.

(** Rewrites [obs (exec m w)] to [obs w] for the outermost [m], as long
    as [m] provably preserves [obs]. *)
Ltac peel obs :=
  repeat match goal with
  | |- context [obs (exec ?m ?w)] =>
      let H := fresh in
      assert (H : preserves obs m) by (unfold_ops; pres);
      rewrite (H w); clear H
  end.

(** Only an unclean close reaches [_attemptReconnection]. *)
Lemma onclose_recon h code w :
  recon (exec (onclose h code) w) =
  if Nat.eqb code 1000 then recon w else bump (recon w).
Proof.
  unfold onclose. msimpl. rewrite resolve_recon.
  destruct (Nat.eqb code 1000).
  - peel recon. reflexivity.
  - rewrite _attemptReconnection_recon. peel recon. reflexivity.
Qed.

Section Traces.
Variable JSON_parse : string -> Completion JsVal.

(** One event other than an open: the reconnection state moves only on
    an unclean close. *)
Lemma step_recon e w :
  is_open e = false ->
  recon (exec (step JSON_parse e) w) =
  if unclean_close e w then bump (recon w) else recon w.
Proof.
  intros Hopen. destruct e as [| |m|s|s data|s code|s|h]; simpl in *;
    try discriminate; msimpl.
  - peel recon. reflexivity.
  - apply disconnect_recon.
  - peel recon. reflexivity.
  - destruct (sockets (browser w) !! s) as [[[] [hd|]]|]; msimpl; try reflexivity;
      apply _handleMessage_recon.
  - destruct (sockets (browser w) !! s) as [[[] [hd|]]|]; simpl; msimpl;
      try reflexivity; rewrite ?onclose_recon; unfold set_readyState;
      peel recon; destruct (Nat.eqb code 1000); reflexivity.
  - destruct (sockets (browser w) !! s) as [[[] [hd|]]|]; simpl; msimpl;
      try reflexivity; rewrite ?onerror_recon; unfold set_readyState;
      peel recon; reflexivity.
  - destruct (timers (browser w) !! h) as [[[p| |] []]|]; msimpl; try reflexivity.
    + rewrite timeout_tick_recon. peel recon. reflexivity.
    + rewrite reconnect_tick_recon. peel recon. reflexivity.
    + apply heartbeat_tick_recon.
Qed.
End Traces.

Lemma bump_le r :
  fst r <= CONFIG.maxReconnectAttempts ->
  fst (bump r) = Nat.min CONFIG.maxReconnectAttempts (S (fst r)) /\
  snd (bump r) + fst r = snd r + fst (bump r).
Proof.
  unfold bump. destruct r as [a n]. cbn [fst snd]. intros H.
  destruct (Nat.leb_spec CONFIG.maxReconnectAttempts a); cbn [fst snd]; lia.
Qed.

Lemma run_app parse es more w :
  run parse (es ++ more) w = run parse more (run parse es w).
Proof. revert w. induction es as [|e es IH]; intros w; simpl; auto. Qed.

(** The counter is capped, and every increment is matched by one
    scheduled timer. *)
Lemma step_attempts parse e w :
  is_open e = false ->
  reconnectAttempts (manager w) <= CONFIG.maxReconnectAttempts ->
  reconnectAttempts (manager (exec (step parse e) w)) =
    Nat.min CONFIG.maxReconnectAttempts
      (reconnectAttempts (manager w) + if unclean_close e w then 1 else 0) /\
  reconnects_scheduled (exec (step parse e) w) + reconnectAttempts (manager w) =
    reconnects_scheduled w + reconnectAttempts (manager (exec (step parse e) w)).
Proof.
  intros He Hw.
  pose proof (step_recon parse e w He) as Hstep.
  pose proof (bump_le (recon w) Hw) as [Hb1 Hb2].
  assert (Ha := f_equal fst Hstep). assert (Hr := f_equal snd Hstep).
  destruct (unclean_close e w); unfold recon in *; cbn [fst snd] in *; split; lia.
Qed.

(** The same along a run without opens. *)
Lemma run_recon parse es w :
  no_open es = true ->
  reconnectAttempts (manager w) <= CONFIG.maxReconnectAttempts ->
  reconnectAttempts (manager (run parse es w)) =
    Nat.min CONFIG.maxReconnectAttempts
            (reconnectAttempts (manager w) + unclean_closes parse es w) /\
  reconnects_scheduled (run parse es w) + reconnectAttempts (manager w) =
    reconnects_scheduled w + reconnectAttempts (manager (run parse es w)).
Proof.
  revert w. induction es as [|e es IH]; intros w Hes Hw; cbn [run unclean_closes].
  - split; lia.
  - apply andb_prop in Hes as [He Hes].
    apply negb_true_iff in He.
    destruct (step_attempts parse e w He Hw) as [Ha Hr].
    set (w1 := exec (step parse e) w) in *.
    assert (Hw1 : reconnectAttempts (manager w1) <= CONFIG.maxReconnectAttempts) by lia.
    destruct (IH w1 Hes Hw1) as [IH1 IH2].
    split; lia.
Qed.

(** An open leaves the manager connected with a counter of 0, and nothing
    else lowers the counter. *)
Lemma onopen_link h w : link (exec (onopen h) w) = (true, 0).
Proof. unfold onopen. msimpl. peel link. reflexivity. Qed.

Lemma bump_mono r : fst r <= fst (bump r).
Proof.
  unfold bump. destruct (Nat.leb CONFIG.maxReconnectAttempts (fst r)); cbn [fst]; lia.
Qed.

Lemma counter_reset_by_open parse e w :
  reconnectAttempts (manager (exec (step parse e) w)) < reconnectAttempts (manager w) ->
  exists s, e = Opened s /\ link (exec (step parse e) w) = (true, 0).
Proof.
  intros Hlt. destruct (is_open e) eqn:He.
  - destruct e; try discriminate. exists s. split; [reflexivity|].
    revert Hlt. simpl. msimpl.
    destruct (sockets (browser w) !! s) as [[[] [hd|]]|]; msimpl;
      try (intros; apply onopen_link); unfold set_readyState; simpl; lia.
  - pose proof (f_equal fst (step_recon parse e w He)) as H.
    pose proof (bump_mono (recon w)) as Hm.
    destruct (unclean_close e w); unfold recon in *; cbn [fst] in *; lia.
Qed.

(** ** C2: the reconnection bound *)

(** C2. Starting from a counter of 0, once [maxReconnectAttempts] unclean
    closes were handled with no successful open in between, exactly
    [maxReconnectAttempts] reconnection timers were scheduled and no
    later event schedules another one as long as no transport opens;
    and the only event that ever lowers the attempt counter is a
    transport opening, which leaves the manager connected with a counter
    of 0. *)
Theorem reconnect_bound (JSON_parse : string -> Completion JsVal)
    (w : World) (es more : list Event) :
  reconnectAttempts (manager w) = 0 ->
  no_open (es ++ more) = true ->
  unclean_closes JSON_parse es w = CONFIG.maxReconnectAttempts ->
  reconnects_scheduled (run JSON_parse es w) =
    reconnects_scheduled w + CONFIG.maxReconnectAttempts /\
  reconnects_scheduled (run JSON_parse (es ++ more) w) =
    reconnects_scheduled (run JSON_parse es w) /\
  (forall e w0,
      reconnectAttempts (manager (exec (step JSON_parse e) w0)) <
        reconnectAttempts (manager w0) ->
      exists s, e = Opened s /\
        isConnected (manager (exec (step JSON_parse e) w0)) = true /\
        reconnectAttempts (manager (exec (step JSON_parse e) w0)) = 0).
Proof.
  intros Hw Hno Hn.
  unfold no_open in Hno. rewrite forallb_app in Hno.
  apply andb_prop in Hno as [Hes Hmore].
  assert (Hle : reconnectAttempts (manager w) <= CONFIG.maxReconnectAttempts) by lia.
  destruct (run_recon JSON_parse es w Hes Hle) as [Ha Hr].
  rewrite Hw, Hn in Ha. cbn [Nat.add] in Ha. rewrite Nat.min_id in Ha.
  assert (Hle' : reconnectAttempts (manager (run JSON_parse es w))
                 <= CONFIG.maxReconnectAttempts) by lia.
  destruct (run_recon JSON_parse more _ Hmore Hle') as [Ha' Hr'].
  rewrite <- run_app in Ha', Hr'.
  split; [lia|]. split; [lia|].
  intros e w0 Hlt.
  destruct (counter_reset_by_open JSON_parse e w0 Hlt) as (s & -> & Hl).
  exists s. unfold link in Hl. inversion Hl as [[H1 H2]]. rewrite H1, H2. auto.
Qed.

Lemma reconnect_bound_witness :
  let w := initial "ext" no_listeners "2025-01-01T00:00:00.000Z" in
  let es := [Connect; Closed 0 1006; Fired 1; Closed 1 1006; Fired 3; Closed 2 1006] in
  let more := [Fired 5; Closed 3 1006; Closed 3 1006; Connect; Closed 4 1006] in
  reconnects_scheduled (run reject_all es w) = 3 /\
  reconnects_scheduled (run reject_all (es ++ more) w) = 3.
Proof.
  intros w es more.
  destruct (reconnect_bound reject_all w es more) as (H1 & H2 & _);
    [reflexivity | reflexivity | reflexivity |].
  split; [exact H1 | rewrite H2; exact H1].
Defined.

(** ** C5: send *)

Lemma send_but_wire message : preserves but_wire (send message).
Proof. unfold_ops. pres. Qed.



Lemma get_nullish thrown k :
  Thrown.nullish thrown = true -> exists m, get thrown k = Throw m.
Proof. destruct thrown; cbn; intros H; try discriminate H; eauto. Qed.





(** On the values of the definitions above, [Thrown.send] is [send]. *)
Lemma send_refines (message : JsVal) (w : World) :
  Thrown.send (thrown_message message) w =
  (Normal (eval (send message) w), exec (send message) w).
Proof.
  unfold Thrown.send, send, thrown_message, ws_send, readyState_of. cbn [Thrown.stringify Thrown.read_type].
  msimpl. unfold eval, exec, bind, this, gets, ret, effect, logger. cbn.
  destruct (isConnected (manager w)); [|reflexivity].
  destruct (ws (manager w)) as [s|]; [|reflexivity].
  destruct (JSON_stringify message) as [text|m]; cbn; [|reflexivity].
  destruct (sockets (browser w) !! s) as [[[] hd]|]; cbn;
    destruct (get message "type"); reflexivity.
Qed.

(** Outside the provisos of C5. The read of [message.type] follows the
    transmission: [send(null)] puts the text on the wire and then
    reports a failure. And a value thrown by the serialisation that is
    [null] makes the [catch] block throw in its turn. *)
Lemma send_null_transmits_and_returns_false :
  eval (send JNull) connected_world = false /\
  wire (browser (exec (send JNull) connected_world))
    = wire (browser connected_world) ++ [(0, "null")].
Proof. split; reflexivity. Qed.

Lemma send_throws_for_thrown_null :
  eval (Thrown.send {| Thrown.stringify := Thrown.Raised JNull;
                       Thrown.read_type := Thrown.Returned JUndefined |})
       connected_world
  = Throw "Cannot read properties of null (reading 'message')".
Proof. reflexivity. Qed.

(** ** C7: malformed frames *)

Lemma forEach_invoke_invoked data callbacks w :
  invoked (browser (exec (forEach (invoke data) callbacks) w)) =
  invoked (browser w) ++ map (fun cb => (cb_id cb, data)) callbacks.
Proof.
  revert w. induction callbacks as [|cb l IH]; intros w; cbn [forEach map].
  - rewrite exec_ret, app_nil_r. reflexivity.
  - msimpl. rewrite IH. unfold invoke. msimpl.
    destruct (cb_throws cb); simpl; rewrite <- app_assoc; reflexivity.
Qed.

Lemma _emitEvent_state event data : preserves state (_emitEvent event data).
Proof. unfold_ops. pres. Qed.

Lemma _emitEvent_message_invoked data w :
  invoked (browser (exec (_emitEvent "message" data) w)) =
  invoked (browser w) ++
  map (fun cb => (cb_id cb, data)) (on_message (eventListeners (manager w))).
Proof. unfold _emitEvent. msimpl. cbn [listeners_of String.eqb]. simpl. apply forEach_invoke_invoked. Qed.

Lemma forEach_invoke_console data callbacks w :
  console (browser (exec (forEach (invoke data) callbacks) w)) =
  console (browser w) ++
  map (fun _ => (error, "Error in event listener"))
      (List.filter (fun cb => bool_decide (is_Some (cb_throws cb))) callbacks).
Proof.
  revert w. induction callbacks as [|cb l IH]; intros w; cbn [forEach map List.filter].
  - rewrite exec_ret, app_nil_r. reflexivity.
  - msimpl. rewrite IH. unfold invoke. msimpl.
    destruct (cb_throws cb); cbn; rewrite <- ?app_assoc; reflexivity.
Qed.

Lemma _emitEvent_message_console data w :
  console (browser (exec (_emitEvent "message" data) w)) =
  console (browser w) ++
  map (fun _ => (error, "Error in event listener"))
      (List.filter (fun cb => bool_decide (is_Some (cb_throws cb)))
                   (on_message (eventListeners (manager w)))).
Proof. unfold _emitEvent. msimpl. cbn [listeners_of String.eqb]. simpl. apply forEach_invoke_console. Qed.

(** The classification of [_handleMessage], read off the [type] of the
    frame. *)
Lemma is_type_spec message name :
  is_type message name = true <-> prop message "type" = JStr name.
Proof.
  unfold is_type. destruct (prop message "type"); try (split; [discriminate|discriminate]).
  rewrite String.eqb_eq. split; [intros ->; reflexivity|intros [= ->]; reflexivity].
Qed.

Lemma is_type_false message name :
  prop message "type" <> JStr name -> is_type message name = false.
Proof.
  intros H. destruct (is_type message name) eqn:E; [|reflexivity].
  apply is_type_spec in E. contradiction.
Qed.

(** C7. A frame on which [JSON.parse] throws only adds one error to the
    console: the manager and the browser objects are as before and no
    subscriber runs. The well-formed frame that follows is classified
    and dispatched, again without any change to the connection state:
    a [registered] frame is logged as a successful registration and an
    [error] frame as a server error (the acknowledgement of a heartbeat
    is logged below the level of the logger, as is the receipt of every
    frame), and then every [message] subscriber is called with the
    frame, in order, those that throw an [Error] being logged. *)
Theorem malformed_frame_isolated (JSON_parse : string -> Completion JsVal)
    (w : World) (s : nat) (h : Handlers) (bad good reason : string)
    (fields : list (string * JsVal)) :
  sockets (browser w) !! s = Some {| readyState := OPEN; handlers := Some h |} ->
  JSON_parse bad = Throw reason ->
  JSON_parse good = Normal (JObj fields) ->
  let w1 := run JSON_parse [Received s bad] w in
  let w2 := run JSON_parse [Received s bad; Received s good] w in
  let subscribers := on_message (eventListeners (manager w)) in
  let listener_errors :=
    map (fun _ => (error, "Error in event listener"))
        (List.filter (fun cb => bool_decide (is_Some (cb_throws cb))) subscribers) in
  state w1 = state w /\
  invoked (browser w1) = invoked (browser w) /\
  console (browser w1) = console (browser w) ++ [(error, "Error parsing message")] /\
  state w2 = state w /\
  invoked (browser w2) =
    invoked (browser w) ++
    map (fun cb => (cb_id cb, Message (JObj fields))) subscribers /\
  (prop (JObj fields) "type" = JStr "registered" ->
     console (browser w2) =
       console (browser w1) ++
       [(info, "Successfully registered with server")] ++ listener_errors) /\
  (prop (JObj fields) "type" = JStr "error" ->
     console (browser w2) =
       console (browser w1) ++ [(error, "Server error")] ++ listener_errors) /\
  (prop (JObj fields) "type" <> JStr "registered" ->
   prop (JObj fields) "type" <> JStr "error" ->
     console (browser w2) = console (browser w1) ++ listener_errors).
Proof.
  intros Hs Hbad Hgood w1 w2 subscribers listener_errors.
  assert (E1 : w1 = exec (logger error "Error parsing message") w).
  { subst w1. cbn [run step]. msimpl. rewrite Hs.
    unfold _handleMessage. rewrite Hbad. reflexivity. }
  assert (Hs1 : sockets (browser w1) !! s
                = Some {| readyState := OPEN; handlers := Some h |}).
  { rewrite E1. exact Hs. }
  assert (E2 : w2 = exec (_handleMessage JSON_parse good) w1).
  { change w2 with (exec (step JSON_parse (Received s good)) w1).
    cbn [step]. msimpl. rewrite Hs1. reflexivity. }
  set (W := exec (if is_type (JObj fields) "registered" then
                    logger info "Successfully registered with server"
                  else if is_type (JObj fields) "heartbeat_ack" then
                    logger debug "Heartbeat acknowledged"
                  else if is_type (JObj fields) "error" then
                    logger error "Server error"
                  else ret tt)
               (exec (logger debug "Received message") w1)).
  assert (E3 : w2 = exec (_emitEvent "message" (Message (JObj fields))) W).
  { rewrite E2. unfold _handleMessage. rewrite Hgood. cbn [get]. msimpl.
    reflexivity. }
  assert (HW : state W = state w /\ invoked (browser W) = invoked (browser w)).
  { subst W. rewrite E1.
    destruct (is_type (JObj fields) "registered");
      [|destruct (is_type (JObj fields) "heartbeat_ack");
        [|destruct (is_type (JObj fields) "error")]]; split; reflexivity. }
  destruct HW as [HW1 HW2].
  assert (HWm : manager W = manager w) by (injection HW1; auto).
  assert (Hc : console (browser w2) = console (browser W) ++ listener_errors).
  { rewrite E3, _emitEvent_message_console, HWm. reflexivity. }
  split; [rewrite E1; reflexivity|]. split; [rewrite E1; reflexivity|].
  split; [rewrite E1; reflexivity|].
  split; [rewrite E3, _emitEvent_state; exact HW1|].
  split; [rewrite E3, _emitEvent_message_invoked, HW2, HWm; reflexivity|].
  rewrite Hc. subst W. clear -w1. repeat split.
  - intros H. apply is_type_spec in H. rewrite H, app_assoc. reflexivity.
  - intros H.
    rewrite (is_type_false (JObj fields) "registered"),
            (is_type_false (JObj fields) "heartbeat_ack") by (rewrite H; discriminate).
    apply is_type_spec in H. rewrite H, app_assoc. reflexivity.
  - intros H1 H2.
    rewrite (is_type_false _ _ H1), (is_type_false _ _ H2).
    destruct (is_type (JObj fields) "heartbeat_ack"); reflexivity.
Qed.

Lemma malformed_frame_isolated_witness :
  let w1 := run parse_registered [Received 0 "{"] subscribed_world in
  let w2 := run parse_registered [Received 0 "{"; Received 0 registered_frame]
                subscribed_world in
  let registered := Message (JObj [("type", JStr "registered")]) in
  state w1 = state subscribed_world /\
  invoked (browser w1) = invoked (browser subscribed_world) /\
  console (browser w1) =
    console (browser subscribed_world) ++ [(error, "Error parsing message")] /\
  state w2 = state subscribed_world /\
  invoked (browser w2) = [(7, registered); (8, registered)] /\
  console (browser w2) =
    console (browser w1) ++
    [(info, "Successfully registered with server");
     (error, "Error in event listener")].
Proof.
  destruct (malformed_frame_isolated parse_registered subscribed_world 0
              {| timeout := 0; promise := 0 |} "{" registered_frame
              "Unexpected token in JSON" [("type", JStr "registered")]
              eq_refl eq_refl eq_refl) as (H1 & H2 & H3 & H4 & H5 & H6 & _).
  exact (conj H1 (conj H2 (conj H3 (conj H4 (conj H5 (H6 eq_refl)))))).
Defined.

(** ** C4: disconnect *)

Lemma onclose_connected h code w : connected (exec (onclose h code) w) = false.
Proof.
  unfold onclose. msimpl. peel connected.
  destruct (Nat.eqb code 1000); peel connected; reflexivity.
Qed.

Lemma lookup_cleared (l : list Timer) (i : nat) :
  active <$> alter (fun t => {| kind := kind t; active := false |}) i l !! i
  <> Some true.
Proof.
  rewrite list_lookup_alter.
  destruct (l !! i); destruct (decide (i = i)); cbn; congruence.
Qed.

(** What holds of [disconnect()]: the call itself creates no
    reconnection timer and leaves the attempt counter alone, whatever
    its value. When the manager is not connected it only logs a
    warning. When it is connected the heartbeat interval is cleared, the
    transport is closed with code 1000 and the manager is marked
    disconnected; a close event that carries the code 1000 then creates
    no reconnection timer. *)
Lemma disconnect_clean_close (JSON_parse : string -> Completion JsVal)
    (w : World) :
  let w' := exec disconnect w in
  recon w' = recon w /\
  ((isConnected (manager w) = false \/ ws (manager w) = None) ->
     state w' = state w /\
     invoked (browser w') = invoked (browser w) /\
     console (browser w') = console (browser w) ++ [(warn, "Not connected to WebSocket")]) /\
  (forall s, isConnected (manager w) = true -> ws (manager w) = Some s ->
     isConnected (manager w') = false /\
     heartbeatInterval (manager w') = None /\
     (forall i, heartbeatInterval (manager w) = Some i ->
        active <$> timers (browser w') !! i <> Some true) /\
     closes (browser w') = closes (browser w) ++ [(s, Some 1000)] /\
     let w'' := exec (step JSON_parse (Closed s 1000)) w' in
     recon w'' = recon w /\ isConnected (manager w'') = false).
Proof.
  intros w'. split; [apply disconnect_recon|]. split.
  - subst w'. unfold disconnect. msimpl.
    intros [H|H]; rewrite H; [|destruct (isConnected (manager w))]; repeat split.
  - intros s Hc Hs.
    assert (Hw' : isConnected (manager w') = false /\
                  heartbeatInterval (manager w') = None /\
                  (forall i, heartbeatInterval (manager w) = Some i ->
                     active <$> timers (browser w') !! i <> Some true) /\
                  closes (browser w') = closes (browser w) ++ [(s, Some 1000)]).
    { subst w'. unfold disconnect, ws_close, clearInterval, clear_timer,
        set_readyState, readyState_of, logger, exec, bind, this, gets, assign,
        effect, ret. cbn. rewrite Hc, Hs. cbn.
      destruct (heartbeatInterval (manager w)) as [i|] eqn:Hi; cbn;
        destruct (sockets (browser w) !! s) as [[[] hd]|]; cbn;
        (split; [reflexivity|split; [first [reflexivity|assumption]|split; [|reflexivity]]]);
        intros j Hj; try discriminate Hj; injection Hj as <-; apply lookup_cleared. }
    destruct Hw' as (H1 & H2 & H3 & H4). repeat split; auto.
    + assert (Hno : unclean_close (Closed s 1000) w' = false).
      { simpl. destruct (sockets (browser w') !! s) as [[[] hd]|]; simpl;
          auto using andb_false_r. }
      rewrite (step_recon JSON_parse (Closed s 1000) w' eq_refl), Hno.
      apply disconnect_recon.
    + cbn [step]. msimpl.
      destruct (sockets (browser w') !! s) as [[[] [hd|]]|]; msimpl;
        try exact H1; try apply onclose_connected; unfold set_readyState; exact H1.
Qed.

(** C4 fails on the code. [disconnect()] records nowhere that the close
    was asked for: the close handler decides on the code of the close
    event alone, and that code is the browser's, 1006 when the
    connection is lost before the closing handshake ends. After
    [disconnect()] such a close event runs the reconnection algorithm:
    the attempt counter goes from 0 to 1, a reconnection timer is
    scheduled, and when it fires a second transport is opened, which
    connects and registers again. *)
Theorem disconnect_then_abnormal_close_reconnects :
  let w := run reject_all [Connect; Opened 0; Disconnect]
               (initial "ext" no_listeners "t") in
  let w1 := run reject_all [Closed 0 1006] w in
  let w2 := run reject_all [Fired 2] w1 in
  let w3 := run reject_all [Opened 1] w2 in
  closes (browser w) = [(0, Some 1000)] /\
  isConnected (manager w) = false /\
  recon w = (0, 0) /\
  recon w1 = (1, 1) /\
  timers (browser w1) !! 2 = Some {| kind := ReconnectTimer; active := true |} /\
  console (browser w1) =
    console (browser w) ++ [(info, "WebSocket connection closed");
                            (info, "Attempting reconnection (1/3)")] /\
  length (sockets (browser w1)) = 1 /\
  length (sockets (browser w2)) = 2 /\
  readyState_of 1 w2 = Some CONNECTING /\
  isConnected (manager w3) = true /\
  length (wire (browser w3)) = 2.
Proof. vm_compute. repeat split. Qed.

(** ** C8: the outcome of connect() *)










(** ** C3: connect() while a connection is in progress *)

(** What holds of [connect()]: called while the manager is connected or
    holds a connection promise, it opens no transport and changes nothing
    but the console. *)
Lemma connect_idempotent (w : World) :
  isConnected (manager w) = true \/ is_Some (connectionPromise (manager w)) ->
  state (exec connect w) = state w /\
  eval connect w =
    if isConnected (manager w) then Returns true
    else match connectionPromise (manager w) with
         | Some p => Follows p
         | None => Returns true
         end.
Proof.
  unfold connect. msimpl.
  intros [H|[p H]]; rewrite H; [|destruct (isConnected (manager w))];
    msimpl; try rewrite H; split; reflexivity.
Qed.

(** C3 fails on the code. After a disconnect and a new [connect()], the
    close event of the first transport clears the connection promise of
    the attempt in progress; the next [connect()] does not return that
    pending promise but opens another transport, so that two transports
    are connecting at once. *)
Theorem stale_close_opens_second_transport :
  let w := run reject_all [Connect; Opened 0; Disconnect; Connect; Closed 0 1000]
               (initial "ext" no_listeners "t") in
  readyState_of 1 w = Some CONNECTING /\
  settled_of 1 w = Some Pending /\
  connectionPromise (manager w) = None /\
  eval connect w = Follows 2 /\
  readyState_of 1 (exec connect w) = Some CONNECTING /\
  readyState_of 2 (exec connect w) = Some CONNECTING /\
  live_transports (exec connect w) = 2.
Proof. vm_compute. repeat split. Qed.

(** ** C9: the heartbeat *)

(** While the manager is connected over an open transport, a heartbeat
    tick puts one heartbeat frame on the wire. *)
Lemma heartbeat_tick_sends w s :
  isConnected (manager w) = true ->
  ws (manager w) = Some s ->
  readyState_of s w = Some OPEN ->
  exists text,
    JSON_stringify (JObj [("type", JStr "heartbeat");
                          ("id", JStr (extensionId (manager w)));
                          ("timestamp", JStr (now (browser w)))])
      = Normal (Some text) /\
    wire (browser (exec heartbeat_tick w)) = wire (browser w) ++ [(s, text)].
Proof.
  intros Hc Hs Ho. eexists. split; [reflexivity|].
  unfold heartbeat_tick, toISOString, send, ws_send. msimpl. rewrite Hc. msimpl.
  rewrite Hc, Hs. cbn [JSON_stringify]. msimpl. rewrite Ho. reflexivity.
Qed.

(** While the manager is not connected, a tick does nothing at all. *)
Lemma heartbeat_tick_idle w :
  isConnected (manager w) = false -> exec heartbeat_tick w = w.
Proof. intros Hc. unfold heartbeat_tick. msimpl. rewrite Hc. reflexivity. Qed.

Lemma scheduled_new_timer k i w :
  is_Some (timers (browser w) !! i) ->
  scheduled i (exec (new_timer k) w) = scheduled i w.
Proof.
  intros Hi. unfold scheduled. cbn.
  rewrite lookup_app_l; [reflexivity|]. apply lookup_lt_is_Some. exact Hi.
Qed.

Lemma scheduled_clear_timer i w : scheduled i (exec (clear_timer i) w) = false.
Proof.
  unfold scheduled. cbn. rewrite list_lookup_alter.
  destruct (decide (i = i)); [|congruence].
  destruct (timers (browser w) !! i); reflexivity.
Qed.

(** The close handler clears the interval it finds. *)
Lemma onclose_clears_heartbeat h code w i :
  heartbeatInterval (manager w) = Some i ->
  is_Some (timers (browser w) !! i) ->
  heartbeat (exec (onclose h code) w) = None /\
  scheduled i (exec (onclose h code) w) = false.
Proof.
  intros Hi Hv. unfold onclose. msimpl.
  change (heartbeatInterval (manager (exec (assign (set_connectionPromise None)) _)))
    with (heartbeatInterval (manager w)).
  rewrite Hi. msimpl.
  set (w1 := exec (assign (set_heartbeatInterval None)) _).
  assert (H1 : heartbeat w1 = None) by reflexivity.
  assert (H2 : scheduled i w1 = false).
  { subst w1. change (scheduled i (exec (clear_timer i)
      (exec (logger info "WebSocket connection closed")
         (exec (clear_timer (timeout h)) w))) = false).
    apply scheduled_clear_timer. }
  assert (H3 : is_Some (timers (browser w1) !! i)).
  { subst w1. apply lookup_lt_is_Some. cbn. rewrite !length_alter.
    apply lookup_lt_is_Some. exact Hv. }
  split.
  - peel heartbeat.
    destruct (Nat.eqb code 1000); peel heartbeat; exact H1.
  - peel (scheduled i).
    destruct (Nat.eqb code 1000).
    + peel (scheduled i). exact H2.
    + unfold _attemptReconnection. msimpl.
      destruct (Nat.leb _ _); msimpl; peel (scheduled i); try exact H2.
      unfold setTimeout. rewrite scheduled_new_timer.
      * peel (scheduled i). exact H2.
      * match goal with
        | |- is_Some (timers (browser ?W) !! i) => change (is_Some (timers_of W !! i))
        end.
        peel timers_of. exact H3.
Qed.

(** C9 fails on the code. After a transport error the manager is no
    longer connected but the heartbeat interval is still held and still
    active, and it runs (sending nothing) when it comes due; [disconnect()]
    and the close event both clear it. *)
Theorem heartbeat_survives_transport_error :
  let w0 := initial "ext" no_listeners "t" in
  let w := run reject_all [Connect; Opened 0; Errored 0] w0 in
  isConnected (manager w) = false /\
  heartbeatInterval (manager w) = Some 1 /\
  timers (browser w) !! 1 = Some {| kind := HeartbeatTimer; active := true |} /\
  wire (browser (run reject_all [Fired 1] w)) = wire (browser w) /\
  timers (browser (run reject_all [Connect; Opened 0; Disconnect] w0)) !! 1
    = Some {| kind := HeartbeatTimer; active := false |} /\
  timers (browser (run reject_all [Connect; Opened 0; Closed 0 1006] w0)) !! 1
    = Some {| kind := HeartbeatTimer; active := false |}.
Proof. vm_compute. repeat split. Qed.

(** ** C1: one response frame per request *)




(** A frame of any other kind is answered with nothing. *)
Lemma other_kinds_send_nothing chrome message popup w :
  is_type message "wfdl_validation_request" = false ->
  but_console (exec (handleWebSocketMessage chrome message popup) w) = but_console w.
Proof.
  intros H. unfold handleWebSocketMessage. rewrite H.
  match goal with |- but_console (exec ?m w) = _ =>
    assert (Hm : preserves but_console m) by pres; apply Hm
  end.
Qed.

(** C1 fails on the code. For a request that carries its correlation id
    in [id], the frame sent when no Designer tab is found has no
    [requestId] at all, while the frame sent on success carries "r1". *)
Theorem failure_frame_loses_correlation_id :
  let failed := exec (handleValidationRequest no_tabs request_r1 fresh_popup)
                     connected_world in
  let served := exec (handleValidationRequest one_tab request_r1 fresh_popup)
                     connected_world in
  match JSON_stringify
          (JObj [("type", JStr "validation_result");
                 ("requestId", JUndefined);
                 ("id", JStr "ext");
                 ("result",
                  JObj [("success", JBool false);
                        ("error", JStr "No Webflow Designer tabs found - validation requires Designer page");
                        ("requestId", JUndefined)])]) with
  | Normal (Some text) =>
      wire (browser failed) = wire (browser connected_world) ++ [(0, text)] /\
      includes text "requestId" = false /\
      includes text "r1" = false
  | _ => False
  end /\
  match wire (browser served) with
  | [_; (0, text)] =>
      includes text (quote "requestId" ++ ":" ++ quote "r1")%string = true
  | _ => False
  end.
Proof. vm_compute. repeat split. Qed.

(** ** C6: target selection *)

(** The focused tab is returned as soon as its URL is a Designer URL,
    whatever its [status] and [discarded] say. *)
Lemma findDesignerTab_active chrome t rest w :
  query_active chrome = Normal (t :: rest) ->
  CONFIG.isDesignerPage (tab.url t) = Normal true ->
  eval (findDesignerTab chrome) w = Normal (tab.id t).
Proof.
  intros Hq Hd. unfold findDesignerTab. rewrite Hq. cbn [head]. rewrite Hd.
  reflexivity.
Qed.

(** Otherwise the first tab that is loaded, not discarded and a Designer
    page is returned, and the search fails when there is none. *)
Lemma findDesignerTab_first_loaded chrome tabs w :
  (query_active chrome = Normal [] \/
   exists t rest, query_active chrome = Normal (t :: rest) /\
                  CONFIG.isDesignerPage (tab.url t) = Normal false) ->
  query_designer chrome = Normal tabs ->
  eval (findDesignerTab chrome) w =
    match tabs with
    | [] => Throw "No Webflow Designer tabs found - validation requires Designer page"
    | _ =>
        match filter_tabs loaded tabs with
        | Throw m => Throw m
        | Normal [] =>
            Throw "No loaded Designer tabs found - please refresh Designer page"
        | Normal (selectedTab :: _) => Normal (tab.id selectedTab)
        end
    end.
Proof.
  intros Ha Hq. unfold findDesignerTab.
  destruct Ha as [Ha|(t & rest & Ha & Hd)]; rewrite Ha; cbn [head];
    rewrite ?Hd, Hq; destruct tabs as [|t0 tabs]; try reflexivity;
    destruct (filter_tabs loaded (t0 :: tabs)) as [[|t1 l]|m]; reflexivity.
Qed.

(** The background routine asks the active tab among the loaded ones, or
    the first loaded tab when none of them is active. *)
Lemma handleGetWFDLRequest_selection chrome messageData tabs first rest w :
  query_designer chrome = Normal tabs ->
  filter_tabs loaded tabs = Normal (first :: rest) ->
  eval (handleGetWFDLRequest_try chrome messageData) w =
    sendMessage chrome
      (tab.id (default first (List.find tab.active (first :: rest))))
      (JObj [("type", JStr "get_wfdl");
             ("wfdl", js_or (prop messageData "payload") (prop messageData "wfdl"));
             ("requestId", prop messageData "requestId")]).
Proof.
  intros Hq Hf. unfold handleGetWFDLRequest_try. rewrite Hq.
  destruct tabs as [|t0 tabs]; [discriminate Hf|]. rewrite Hf. cbv beta iota zeta.
  match goal with
  | |- context [match ?X with Normal _ => _ | Throw _ => _ end] =>
      destruct X eqn:E
  end; msimpl; reflexivity.
Qed.

(** C6 fails on the code. [findDesignerTab] returns the focused Designer
    tab although it is still loading and a loaded Designer tab exists, and
    the request then fails; on the same tabs the background routine
    addresses the loaded tab. *)
Theorem active_tab_selected_while_loading :
  loaded loading_active = Normal false /\
  loaded loaded_background = Normal true /\
  eval (findDesignerTab two_tabs) connected_world = Normal (tab.id loading_active) /\
  eval (handleGetWFDLRequest two_tabs request_r1) connected_world
    = JObj [("answeredBy", JNum 2)] /\
  match wire (browser (exec (handleValidationRequest two_tabs request_r1 fresh_popup)
                            connected_world)) with
  | [_; (0, text)] =>
      includes text
        "Designer validation failed: Designer tab is not fully loaded (status: loading)"
        = true
  | _ => False
  end.
Proof. vm_compute. repeat split. Qed.

(** ** C10: the page executors are total *)







(** On the pages of the definitions above the two models agree. *)
Lemma _executeWfdlGet_refines (page : Page) :
  Thrown._executeWfdlGet (thrown_page page) = _executeWfdlGet page.
Proof.
  unfold Thrown._executeWfdlGet, _executeWfdlGet, thrown_page. cbn.
  destruct (wf page) as [| | |m1 [|v|m]]; reflexivity.
Qed.

Lemma getWFDL_refines (page : Page) :
  Thrown.getWFDL (thrown_page page) =
  (fst (getWFDL page), thrown_page (snd (getWFDL page))).
Proof.
  destruct page as [binding slot result [m|]]; [reflexivity|].
  unfold Thrown.getWFDL, getWFDL, thrown_page,
    Thrown.wrappedCode, wrappedCode, Thrown.validationCode, validationCode.
  cbn.
  destruct binding as [| | |[|v|m] m2]; cbn;
    first [ reflexivity
          | destruct (truthy slot); reflexivity
          | destruct m; reflexivity ].
Qed.

(** Outside the provisos of C10: when [wf.exportTrainingData] throws
    [null], the injected script records no error and [getWFDL] reports
    a success without data. *)
Lemma getWFDL_thrown_null_reports_success :
  fst (Thrown.getWFDL {| Thrown.wf := Thrown.WfObject (Thrown.Throws JNull) Thrown.NotAFunction;
                         Thrown.__wfdlValidationError := JUndefined;
                         Thrown.__wfdlValidationResult := JUndefined;
                         Thrown.dom_exception := None |})
  = Normal (JObj [("success", JBool true); ("data", JUndefined)]).
Proof. reflexivity. Qed.

(** * Further properties of the extension *)

(** ** WebSocketManager: listeners *)

Lemma emit_invoked_of event data callbacks w :
  listeners_of event (eventListeners (manager w)) = Some callbacks ->
  invoked (browser (exec (_emitEvent event data) w)) =
    invoked (browser w) ++ map (fun cb => (cb_id cb, data)) callbacks /\
  console (browser (exec (_emitEvent event data) w)) =
    console (browser w) ++
    map (fun _ => (error, "Error in event listener"))
        (List.filter (fun cb => bool_decide (is_Some (cb_throws cb))) callbacks).
Proof.
  intros H. unfold _emitEvent. msimpl. rewrite H. split.
  - apply forEach_invoke_invoked.
  - apply forEach_invoke_console.
Qed.

Lemma thrown_invoke_eval data callback w :
  (Thrown.stops callback = false -> eval (Thrown.invoke data callback) w = Normal tt) /\
  (Thrown.stops callback = true ->
     Thrown.isolated callback = false /\
     exists m, eval (Thrown.invoke data callback) w = Throw m).
Proof.
  unfold Thrown.invoke, Thrown.stops, Thrown.isolated.
  destruct (Thrown.call_throws callback) as [[]|]; split; intros H;
    try discriminate H; try reflexivity; split; try reflexivity; eexists; reflexivity.
Qed.

Lemma thrown_invoke_exec data callback w :
  let w' := exec (Thrown.invoke data callback) w in
  invoked (browser w') = invoked (browser w) ++ [(Thrown.call_id callback, data)] /\
  console (browser w') =
    console (browser w) ++
    (if Thrown.isolated callback then [(error, "Error in event listener")] else []) /\
  state w' = state w.
Proof.
  unfold Thrown.invoke, Thrown.isolated.
  destruct (Thrown.call_throws callback) as [[]|]; cbn; rewrite ?app_nil_r; repeat split.
Qed.

Lemma thrown_emit data callbacks w :
  let r := eval (Thrown._emitEvent (Some callbacks) data) w in
  let w' := exec (Thrown._emitEvent (Some callbacks) data) w in
  invoked (browser w') =
    invoked (browser w) ++
    map (fun cb => (Thrown.call_id cb, data)) (Thrown.reached callbacks) /\
  console (browser w') =
    console (browser w) ++
    map (fun _ => (error, "Error in event listener"))
        (List.filter Thrown.isolated (Thrown.reached callbacks)) /\
  state w' = state w /\
  (r = Normal tt <-> existsb Thrown.stops callbacks = false).
Proof.
  unfold Thrown._emitEvent. revert w.
  induction callbacks as [|cb l IH]; intros w; cbn zeta.
  - cbn. rewrite !app_nil_r. repeat split.
  - cbn [Thrown.forEach Thrown.reached existsb]. msimpl.
    destruct (thrown_invoke_exec data cb w) as (E1 & E2 & E3).
    destruct (thrown_invoke_eval data cb w) as [V1 V2].
    destruct (Thrown.stops cb) eqn:Hstop.
    + destruct (V2 eq_refl) as (Hi & m & Hm). rewrite Hm. msimpl.
      rewrite E1, E2, E3, Hi. cbn. rewrite Hi. cbn.
      split; [reflexivity|]. split; [reflexivity|]. split; [reflexivity|].
      split; intros H; discriminate H.
    + rewrite (V1 eq_refl).
      destruct (IH (exec (Thrown.invoke data cb) w)) as (I1 & I2 & I3 & I4).
      rewrite I1, I2, I3, E1, E2, E3. cbn [map List.filter orb].
      destruct (Thrown.isolated cb); cbn; rewrite <- ?app_assoc; repeat split; apply I4.
Qed.

(** X1. [_emitEvent] calls the callbacks subscribed to the event in
    subscription order and with the event's data. A callback that throws
    a value other than [null] and [undefined] is isolated: it costs one
    error in the console and the next callback is called. A callback
    that throws [null] or [undefined] ends the emission: the [catch]
    block throws on [error.message], the callbacks after it are not
    called and the exception leaves [_emitEvent]. Nothing but the
    console changes. *)
Theorem emit_isolates_readable_errors (callbacks : list Thrown.Callback)
    (data : Payload) (w : World) :
  let r := eval (Thrown._emitEvent (Some callbacks) data) w in
  let w' := exec (Thrown._emitEvent (Some callbacks) data) w in
  invoked (browser w') =
    invoked (browser w) ++
    map (fun cb => (Thrown.call_id cb, data)) (Thrown.reached callbacks) /\
  console (browser w') =
    console (browser w) ++
    map (fun _ => (error, "Error in event listener"))
        (List.filter Thrown.isolated (Thrown.reached callbacks)) /\
  state w' = state w /\
  (existsb Thrown.stops callbacks = false ->
     r = Normal tt /\ Thrown.reached callbacks = callbacks) /\
  (forall before callback after,
     callbacks = before ++ callback :: after ->
     existsb Thrown.stops before = false ->
     Thrown.stops callback = true ->
     (exists m, r = Throw m) /\
     Thrown.reached callbacks = before ++ [callback]).
Proof.
  intros r w'.
  destruct (thrown_emit data callbacks w) as (H1 & H2 & H3 & H4).
  split; [exact H1|]. split; [exact H2|]. split; [exact H3|]. split.
  - intros Hn. split; [apply H4; exact Hn|].
    clear -Hn. induction callbacks as [|cb l IH]; [reflexivity|].
    cbn in *. apply orb_false_iff in Hn as [Hc Hl]. rewrite Hc, IH by exact Hl.
    reflexivity.
  - intros before callback after -> Hb Hs. split.
    + fold r in H4. destruct r as [[]|m] eqn:Hr; [|eauto].
      assert (Hf : existsb Thrown.stops (before ++ callback :: after) = false)
        by (apply H4; reflexivity).
      rewrite existsb_app in Hf. cbn in Hf. rewrite Hs, orb_true_r in Hf.
      discriminate Hf.
    + clear -Hb Hs. induction before as [|cb l IH]; cbn in *.
      * rewrite Hs. reflexivity.
      * apply orb_false_iff in Hb as [Hc Hl]. rewrite Hc, IH by exact Hl.
        reflexivity.
Qed.

Lemma emit_isolates_readable_errors_witness :
  let callbacks := [{| Thrown.call_id := 7; Thrown.call_throws := Some (JStr "failed") |};
                    {| Thrown.call_id := 8; Thrown.call_throws := Some JNull |};
                    {| Thrown.call_id := 9; Thrown.call_throws := None |}] in
  let w' := exec (Thrown._emitEvent (Some callbacks) NoData) connected_world in
  invoked (browser w') = invoked (browser connected_world) ++ [(7, NoData); (8, NoData)] /\
  console (browser w') =
    console (browser connected_world) ++ [(error, "Error in event listener")] /\
  exists m, eval (Thrown._emitEvent (Some callbacks) NoData) connected_world = Throw m.
Proof.
  intros callbacks w'.
  destruct (emit_isolates_readable_errors callbacks NoData connected_world)
    as (H1 & H2 & _ & _ & H5).
  split; [exact H1|]. split; [exact H2|].
  apply (H5 [{| Thrown.call_id := 7; Thrown.call_throws := Some (JStr "failed") |}]
            {| Thrown.call_id := 8; Thrown.call_throws := Some JNull |}
            [{| Thrown.call_id := 9; Thrown.call_throws := None |}]);
    reflexivity.
Defined.

(** On callbacks that throw an [Error], [Thrown._emitEvent] is
    [_emitEvent]. *)
Lemma forEach_refines data callbacks w :
  Thrown.forEach (Thrown.invoke data) (map thrown_callback callbacks) w =
  (Normal tt, exec (forEach (invoke data) callbacks) w).
Proof.
  revert w.
  induction callbacks as [|cb l IH]; intros w; [reflexivity|].
  cbn [map Thrown.forEach forEach].
  unfold Thrown.invoke, invoke, thrown_callback, exec, bind, effect, ret, logger in *.
  cbn [Thrown.call_id Thrown.call_throws].
  destruct (cb_throws cb) as [m|]; cbn; rewrite IH; reflexivity.
Qed.

Lemma emit_refines event data w :
  Thrown._emitEvent
    (map thrown_callback <$> listeners_of event (eventListeners (manager w))) data w =
  (Normal tt, exec (_emitEvent event data) w).
Proof.
  unfold Thrown._emitEvent, _emitEvent. msimpl.
  destruct (listeners_of event (eventListeners (manager w))) as [callbacks|];
    cbn [fmap option_fmap option_map]; [apply forEach_refines|reflexivity].
Qed.

(** The four own keys of [eventListeners]. *)
Lemma listeners_of_Some event ls callbacks :
  listeners_of event ls = Some callbacks ->
  event = "open" \/ event = "close" \/ event = "error" \/ event = "message".
Proof.
  unfold listeners_of.
  destruct (String.eqb event "open") eqn:E1; [apply String.eqb_eq in E1; auto|].
  destruct (String.eqb event "close") eqn:E2; [apply String.eqb_eq in E2; auto|].
  destruct (String.eqb event "error") eqn:E3; [apply String.eqb_eq in E3; auto|].
  destruct (String.eqb event "message") eqn:E4; [apply String.eqb_eq in E4; auto|].
  discriminate.
Qed.

Lemma listeners_of_set event ls callbacks l :
  listeners_of event ls = Some callbacks ->
  listeners_of event (set_listeners event l ls) = Some l.
Proof.
  intros H. destruct (listeners_of_Some _ _ _ H) as [-> | [-> | [-> | ->]]]; reflexivity.
Qed.

Lemma listeners_of_set_other event other ls l :
  other <> event ->
  listeners_of other (set_listeners event l ls) = listeners_of other ls.
Proof.
  intros Hne. unfold set_listeners.
  destruct (String.eqb_spec event "open") as [->|_];
    [|destruct (String.eqb_spec event "close") as [->|_];
      [|destruct (String.eqb_spec event "error") as [->|_];
        [|destruct (String.eqb_spec event "message") as [->|_]; [|reflexivity]]]];
    unfold listeners_of;
    destruct (String.eqb_spec other "open"); try congruence;
    destruct (String.eqb_spec other "close"); try congruence;
    destruct (String.eqb_spec other "error"); try congruence;
    destruct (String.eqb_spec other "message"); try congruence; reflexivity.
Qed.

Lemma set_listeners_same event ls callbacks :
  listeners_of event ls = Some callbacks -> set_listeners event callbacks ls = ls.
Proof.
  intros H. destruct ls.
  destruct (listeners_of_Some _ _ _ H) as [-> | [-> | [-> | ->]]];
    cbn in H; injection H as <-; reflexivity.
Qed.

Lemma set_listeners_twice event ls l1 l2 :
  set_listeners event l2 (set_listeners event l1 ls) = set_listeners event l2 ls.
Proof.
  unfold set_listeners.
  destruct (String.eqb event "open"); [reflexivity|].
  destruct (String.eqb event "close"); [reflexivity|].
  destruct (String.eqb event "error"); [reflexivity|].
  destruct (String.eqb event "message"); reflexivity.
Qed.

Lemma indexOf_None callback l : callback ∉ l -> indexOf callback l = None.
Proof.
  induction l as [|c l IH]; intros Hn; cbn; [reflexivity|].
  destruct (decide (c = callback)) as [->|Hne].
  - exfalso. apply Hn. left.
  - rewrite IH; [reflexivity|]. intros Hin. apply Hn. right. exact Hin.
Qed.

Lemma indexOf_first callback before after :
  callback ∉ before ->
  indexOf callback (before ++ callback :: after) = Some (length before).
Proof.
  induction before as [|c l IH]; intros Hn; cbn.
  - destruct (decide (callback = callback)); congruence.
  - destruct (decide (c = callback)) as [->|Hne].
    + exfalso. apply Hn. left.
    + rewrite IH; [reflexivity|]. intros Hin. apply Hn. right. exact Hin.
Qed.

Lemma delete_middle (before after : list Callback) c :
  delete (length before) (before ++ c :: after) = before ++ after.
Proof. induction before as [|x l IH]; cbn; [reflexivity|]. f_equal. exact IH. Qed.

(** X2. [on] with one of the four event names appends the callback to
    the subscribers of that event and touches nothing else; the next
    [_emitEvent] of the event calls the earlier subscribers first and the
    new one last. For a name that [eventListeners] neither owns nor
    inherits, [on] only logs a warning. *)
Theorem on_subscribes (event : string) (callback : Callback) (data : Payload)
    (w : World) :
  let w1 := exec (on event callback) w in
  (forall callbacks,
     listeners_of event (eventListeners (manager w)) = Some callbacks ->
     eval (on event callback) w = Normal tt /\
     listeners_of event (eventListeners (manager w1)) = Some (callbacks ++ [callback]) /\
     (forall other, other <> event ->
        listeners_of other (eventListeners (manager w1)) =
        listeners_of other (eventListeners (manager w))) /\
     browser w1 = browser w /\
     invoked (browser (exec (_emitEvent event data) w1)) =
       invoked (browser w) ++ map (fun cb => (cb_id cb, data)) callbacks
                           ++ [(cb_id callback, data)]) /\
  (listeners_of event (eventListeners (manager w)) = None ->
   inherited event = false ->
     eval (on event callback) w = Normal tt /\
     manager w1 = manager w /\
     console (browser w1) =
       console (browser w) ++ [(warn, ("Unknown event type: " ++ event)%string)]).
Proof.
  intros w1. subst w1. unfold on. msimpl. split.
  - intros callbacks H. rewrite H. msimpl. cbn [exec assign snd manager browser].
    cbn [eventListeners set_eventListeners].
    split; [reflexivity|]. split; [eapply listeners_of_set; eassumption|].
    split; [intros other Hne; apply listeners_of_set_other; exact Hne|].
    split; [reflexivity|].
    match goal with |- invoked (browser (exec _ ?W)) = _ =>
      destruct (emit_invoked_of event data (callbacks ++ [callback]) W) as [Hi _]
    end.
    + cbn. eapply listeners_of_set; eassumption.
    + rewrite Hi. cbn. rewrite map_app. reflexivity.
  - intros H Hi. rewrite H, Hi. msimpl. repeat split.
Qed.

Lemma on_subscribes_witness :
  let cb := {| cb_id := 9; cb_throws := None |} in
  invoked (browser (exec (_emitEvent "message" (Message JNull))
                         (exec (on "message" cb) subscribed_world)))
    = [(7, Message JNull); (8, Message JNull); (9, Message JNull)] /\
  console (browser (exec (on "mesage" cb) subscribed_world))
    = console (browser subscribed_world) ++ [(warn, "Unknown event type: mesage")].
Proof.
  intros cb.
  pose proof (on_subscribes "message" cb (Message JNull) subscribed_world) as [H _].
  pose proof (on_subscribes "mesage" cb (Message JNull) subscribed_world) as [_ H'].
  split.
  - apply (H _ eq_refl).
  - apply (H' eq_refl eq_refl).
Defined.

Lemma set_eventListeners_same m : set_eventListeners (eventListeners m) m = m.
Proof. destruct m; reflexivity. Qed.

(** X3. [off] with one of the four event names removes the first
    subscription of the callback and no other; when the callback is not
    subscribed nothing changes; and unsubscribing a callback right after
    subscribing it, when it was not subscribed before, restores the
    manager exactly. *)
Theorem off_unsubscribes (event : string) (callback : Callback)
    (callbacks : list Callback) (w : World) :
  listeners_of event (eventListeners (manager w)) = Some callbacks ->
  let w1 := exec (off event callback) w in
  eval (off event callback) w = Normal tt /\
  browser w1 = browser w /\
  (forall other, other <> event ->
     listeners_of other (eventListeners (manager w1)) =
     listeners_of other (eventListeners (manager w))) /\
  (callback ∉ callbacks -> w1 = w) /\
  (forall before after,
     callbacks = before ++ callback :: after -> callback ∉ before ->
     listeners_of event (eventListeners (manager w1)) = Some (before ++ after)) /\
  (callback ∉ callbacks ->
     exec (off event callback) (exec (on event callback) w) = w).
Proof.
  intros H w1. subst w1. unfold off. msimpl. rewrite H.
  split; [destruct (indexOf callback callbacks); reflexivity|].
  split; [destruct (indexOf callback callbacks); reflexivity|].
  split.
  { intros other Hne. destruct (indexOf callback callbacks); [|reflexivity].
    msimpl. cbn. apply listeners_of_set_other. exact Hne. }
  split.
  { intros Hn. rewrite (indexOf_None _ _ Hn). reflexivity. }
  split.
  { intros before after -> Hn. rewrite (indexOf_first _ _ _ Hn). msimpl. cbn.
    rewrite delete_middle. eapply listeners_of_set. eassumption. }
  intros Hn. unfold on. msimpl. rewrite H. msimpl.
  cbn [exec assign snd manager browser eventListeners set_eventListeners].
  rewrite (listeners_of_set _ _ _ (callbacks ++ [callback]) H).
  rewrite (indexOf_first callback callbacks [] Hn). msimpl.
  cbn [exec assign snd manager browser eventListeners set_eventListeners].
  rewrite delete_middle, app_nil_r, set_listeners_twice, (set_listeners_same _ _ _ H).
  destruct w as [m b]. cbn. f_equal. destruct m; reflexivity.
Qed.

Lemma off_unsubscribes_witness :
  let cb := {| cb_id := 8; cb_throws := None |} in
  listeners_of "message"
    (eventListeners (manager (exec (off "message" cb) subscribed_world)))
    = Some [{| cb_id := 7; cb_throws := Some "handler failed" |}].
Proof.
  intros cb.
  pose proof (off_unsubscribes "message" cb _ subscribed_world eq_refl)
    as (_ & _ & _ & _ & H & _).
  apply (H [{| cb_id := 7; cb_throws := Some "handler failed" |}] []).
  - reflexivity.
  - intros Hin. apply list_elem_of_singleton in Hin. discriminate Hin.
Defined.

(** ** WebSocketManager: registration and heartbeat *)

Lemma lookup_alter_same {A} (f : A -> A) (l : list A) i x :
  l !! i = Some x -> alter f i l !! i = Some (f x).
Proof.
  intros H. rewrite list_lookup_alter. destruct (decide (i = i)); [|congruence].
  rewrite H. reflexivity.
Qed.

(** X4. When the transport held in [this.ws] opens, the manager becomes
    connected with a counter of 0, transmits exactly one [register] frame
    carrying the extension id, creates exactly one heartbeat interval and
    keeps its handle, and tells every [open] subscriber. *)
Theorem open_registers (JSON_parse : string -> Completion JsVal)
    (s : nat) (h : Handlers) (w : World) :
  sockets (browser w) !! s = Some {| readyState := CONNECTING; handlers := Some h |} ->
  ws (manager w) = Some s ->
  let w' := exec (step JSON_parse (Opened s)) w in
  link w' = (true, 0) /\
  connectionPromise (manager w') = None /\
  (exists text,
      JSON_stringify (registrationMessage w) = Normal (Some text) /\
      wire_of w' = wire_of w ++ [(s, text)]) /\
  kinds w' = kinds w ++ [HeartbeatTimer] /\
  heartbeat w' = Some (length (timers (browser w))) /\
  scheduled (length (timers (browser w))) w' = true /\
  invoked (browser w') =
    invoked (browser w) ++
    map (fun cb => (cb_id cb, NoData)) (on_open (eventListeners (manager w))).
Proof.
  intros Hs Hws w'. subst w'. cbn [step]. msimpl. rewrite Hs. msimpl.
  set (w0 := exec (set_readyState s OPEN) w).
  assert (Hs0 : readyState_of s w0 = Some OPEN).
  { unfold readyState_of, w0. cbn. rewrite (lookup_alter_same _ _ _ _ Hs). reflexivity. }
  unfold onopen. msimpl.
  set (w1 := exec (assign (set_connectionPromise None)) _).
  assert (Hw1 : isConnected (manager w1) = true /\ ws (manager w1) = Some s /\
                readyState_of s w1 = Some OPEN /\
                extensionId (manager w1) = extensionId (manager w) /\
                now (browser w1) = now (browser w) /\
                wire_of w1 = wire_of w /\ invoked (browser w1) = invoked (browser w) /\
                eventListeners (manager w1) = eventListeners (manager w) /\
                link w1 = (true, 0) /\ connectionPromise (manager w1) = None /\
                kinds w1 = kinds w /\
                length (timers (browser w1)) = length (timers (browser w))).
  { subst w1. unfold clearTimeout, clear_timer, logger, exec, bind, assign, effect, ret.
    cbn. repeat split; try assumption; try exact Hs0.
    - unfold kinds. cbn. apply kind_alter. reflexivity.
    - apply length_alter. }
  destruct Hw1 as (Hc & Hw & Ho & Hid & Hnow & Hwire & Hinv & Hls & Hlink & Hp & Hk & Hlen).
  clearbody w1.
  set (w2 := exec _registerExtension w1).
  assert (Hw2 : wire_of w2 = wire_of w ++ [(s, default "undefined"
                  match JSON_stringify (registrationMessage w) with
                  | Normal o => o | Throw _ => None end)] /\
                but_wire w2 = but_wire w1).
  { subst w2. split.
    - unfold _registerExtension, toISOString, send, ws_send. msimpl.
      rewrite Hc, Hw, Hid, Hnow. cbn [JSON_stringify]. msimpl. rewrite Ho.
      unfold wire_of in *. cbn. try rewrite Hwire. reflexivity.
    - match goal with |- but_wire (exec ?m ?w0) = _ =>
        assert (Hm : preserves but_wire m) by (unfold_ops; pres); apply Hm
      end. }
  destruct Hw2 as [Hwire2 Hbw]. clearbody w2.
  assert (Hm2 : manager w2 = manager w1) by (injection Hbw; auto).
  assert (Ht2 : timers (browser w2) = timers (browser w1)) by (injection Hbw; auto).
  assert (Hi2 : invoked (browser w2) = invoked (browser w1)) by (injection Hbw; auto).
  set (w3 := exec _startHeartbeat w2).
  assert (Hw3 : manager w3 = set_heartbeatInterval (Some (length (timers (browser w)))) (manager w1)
                /\ timers (browser w3) = timers (browser w1) ++ [{| kind := HeartbeatTimer; active := true |}]
                /\ wire_of w3 = wire_of w2 /\ invoked (browser w3) = invoked (browser w2)).
  { subst w3. unfold _startHeartbeat, setInterval, new_timer, exec, bind, gets, assign,
      effect, ret. cbn. rewrite Hm2, Ht2, Hlen. repeat split. }
  destruct Hw3 as (Hm3 & Ht3 & Hwire3 & Hi3). clearbody w3.
  repeat split.
  - peel link. unfold link. rewrite Hm3. exact Hlink.
  - peel (fun w => connectionPromise (manager w)).
    change (connectionPromise (manager (exec (resolve (promise h) true)
              (exec (_emitEvent "open" NoData) w3))) = None).
    assert (Hr : preserves manager (resolve (promise h) true)) by pres.
    rewrite Hr. assert (He : preserves manager (_emitEvent "open" NoData))
      by (unfold_ops; pres).
    rewrite He, Hm3. exact Hp.
  - eexists. split; [reflexivity|].
    peel wire_of. rewrite Hwire3, Hwire2. reflexivity.
  - peel kinds. unfold kinds. rewrite Ht3, fmap_app. fold (kinds w1). rewrite Hk.
    reflexivity.
  - peel heartbeat. unfold heartbeat. rewrite Hm3. reflexivity.
  - peel (scheduled (length (timers (browser w)))). unfold scheduled.
    rewrite Ht3, <- Hlen, lookup_app_r, Nat.sub_diag by lia. reflexivity.
  - assert (Hr : preserves (fun w => invoked (browser w)) (resolve (promise h) true))
      by pres.
    rewrite Hr. destruct (emit_invoked_of "open" NoData
                            (on_open (eventListeners (manager w))) w3) as [Hi _].
    { rewrite Hm3. cbn. rewrite Hls. reflexivity. }
    rewrite Hi, Hi3, Hi2, Hinv. reflexivity.
Qed.

Lemma open_registers_witness :
  let w := run reject_all [Connect] (initial "ext" no_listeners "t") in
  let w' := exec (step reject_all (Opened 0)) w in
  link w' = (true, 0) /\ kinds w' = kinds w ++ [HeartbeatTimer] /\
  heartbeat w' = Some 1.
Proof.
  intros w w'.
  destruct (open_registers reject_all 0 {| timeout := 0; promise := 0 |} w)
    as (H1 & _ & _ & H4 & H5 & _); [reflexivity | reflexivity |].
  split; [exact H1 | split; [exact H4 | exact H5]].
Defined.

Lemma fired_unscheduled (JSON_parse : string -> Completion JsVal) i w :
  scheduled i w = false -> exec (step JSON_parse (Fired i)) w = w.
Proof.
  unfold scheduled. cbn [step]. msimpl.
  destruct (timers (browser w) !! i) as [[k a]|]; cbn [active].
  - intros ->. destruct k; reflexivity.
  - reflexivity.
Qed.

Lemma length_timers_clear i w :
  length (timers_of (exec (clear_timer i) w)) = length (timers_of w).
Proof. unfold timers_of. cbn. apply length_alter. Qed.

(** X5. Once a transport has opened, the connect timeout that was armed
    for it is cancelled: when the browser later fires that timer nothing
    happens, so an established connection is never closed by its own
    timeout. *)
Theorem timeout_cancelled_by_open (JSON_parse : string -> Completion JsVal)
    (s : nat) (h : Handlers) (w : World) :
  sockets (browser w) !! s = Some {| readyState := CONNECTING; handlers := Some h |} ->
  timeout h < length (timers (browser w)) ->
  let w' := exec (step JSON_parse (Opened s)) w in
  scheduled (timeout h) w' = false /\
  exec (step JSON_parse (Fired (timeout h))) w' = w'.
Proof.
  intros Hs Hlt w'.
  assert (H : scheduled (timeout h) w' = false).
  { subst w'. cbn [step]. msimpl. rewrite Hs. msimpl. unfold onopen. msimpl.
    peel (scheduled (timeout h)).
    unfold _startHeartbeat, setInterval. msimpl. peel (scheduled (timeout h)).
    rewrite scheduled_new_timer.
    - peel (scheduled (timeout h)). unfold clearTimeout.
      apply scheduled_clear_timer.
    - apply lookup_lt_is_Some.
      change (timeout h < length (timers_of (exec _registerExtension
        (exec (assign (set_connectionPromise None))
           (exec (assign (set_reconnectAttempts 0))
              (exec (assign (set_isConnected true))
                 (exec (logger info "WebSocket connected successfully")
                    (exec (clearTimeout (timeout h))
                       (exec (set_readyState s OPEN) w))))))))).
      peel timers_of. unfold clearTimeout. rewrite length_timers_clear.
      peel timers_of. exact Hlt. }
  split; [exact H | apply fired_unscheduled; exact H].
Qed.

Lemma timeout_cancelled_by_open_witness :
  let w := run reject_all [Connect] (initial "ext" no_listeners "t") in
  run reject_all [Opened 0; Fired 0] w = run reject_all [Opened 0] w.
Proof.
  intros w.
  destruct (timeout_cancelled_by_open reject_all 0 {| timeout := 0; promise := 0 |} w)
    as [_ H]; [reflexivity | cbn; lia |].
  exact H.
Defined.

(** X6. A heartbeat tick transmits one [heartbeat] frame carrying the
    extension id on the transport in [this.ws] when the manager is
    connected and that transport is open, and nothing otherwise; it
    changes nothing but the wire and the console, so it never stops its
    own interval. *)
Theorem heartbeat_tick_contract (w : World) :
  but_wire (exec heartbeat_tick w) = but_wire w /\
  exists text,
    JSON_stringify (heartbeatMessage w) = Normal (Some text) /\
    wire_of (exec heartbeat_tick w) =
      wire_of w ++ match transmits w with Some s => [(s, text)] | None => [] end.
Proof.
  split.
  - assert (H : preserves but_wire heartbeat_tick) by (unfold_ops; pres). apply H.
  - eexists. split; [reflexivity|].
    unfold transmits, wire_of.
    destruct (isConnected (manager w)) eqn:Hc.
    + destruct (ws (manager w)) as [s|] eqn:Hw.
      * unfold heartbeat_tick, toISOString, send, ws_send. msimpl. rewrite Hc. msimpl.
        rewrite Hc, Hw. cbn [JSON_stringify]. msimpl.
        destruct (readyState_of s w) as [[]|]; cbn; rewrite ?app_nil_r; reflexivity.
      * unfold heartbeat_tick, toISOString, send. msimpl. rewrite Hc. msimpl.
        rewrite Hc, Hw. cbn. rewrite app_nil_r. reflexivity.
    + rewrite heartbeat_tick_idle by exact Hc. rewrite app_nil_r. reflexivity.
Qed.

(** ** CONFIG: Designer pages *)

Lemma prefix_split (a s : string) :
  String.prefix a s = true <-> exists post, s = (a ++ post)%string.
Proof.
  revert s. induction a as [|c a IH]; intros s; simpl.
  - split; [intros _; exists s; reflexivity | destruct s; reflexivity].
  - destruct s as [|d s]; simpl.
    + split; [discriminate | intros [post H]; discriminate].
    + destruct (Ascii.ascii_dec c d) as [->|Hn].
      * rewrite IH. split; intros [post H]; exists post; [rewrite H; reflexivity|].
        injection H as H. exact H.
      * split; [discriminate|]. intros [post H]. injection H as H1 H2. congruence.
Qed.

Lemma includes_split (s sub : string) :
  includes s sub = true <-> exists pre post, s = (pre ++ sub ++ post)%string.
Proof.
  split.
  - induction s as [|c s IH]; cbn [includes]; rewrite orb_true_iff.
    + intros [H|H]; [|discriminate].
      apply prefix_split in H as [post H]. exists EmptyString, post. exact H.
    + intros [H|H].
      * apply prefix_split in H as [post H]. exists EmptyString, post. exact H.
      * destruct (IH H) as (pre & post & ->). exists (String c pre), post. reflexivity.
  - intros (pre & post & ->). induction pre as [|c pre IH].
    + assert (H : String.prefix sub (sub ++ post)%string = true)
        by (apply prefix_split; eexists; reflexivity).
      change (EmptyString ++ sub ++ post)%string with (sub ++ post)%string.
      destruct (sub ++ post)%string; cbn [includes]; rewrite H; reflexivity.
    + change (String c pre ++ sub ++ post)%string
        with (String c (pre ++ sub ++ post))%string.
      cbn [includes]. rewrite IH. apply orb_true_r.
Qed.

Lemma string_app_assoc (a b c : string) :
  ((a ++ b) ++ c)%string = (a ++ b ++ c)%string.
Proof.
  induction a as [|x a IH]; [reflexivity|].
  change (String x ((a ++ b) ++ c)%string = String x (a ++ b ++ c)%string).
  f_equal. exact IH.
Qed.

Lemma includes_suffix_of_pattern (s a b : string) :
  includes s (a ++ b)%string = true -> includes s b = true.
Proof.
  rewrite !includes_split. intros (pre & post & ->).
  exists (pre ++ a)%string, post. rewrite !string_app_assoc. reflexivity.
Qed.

(** X7. A page counts as a Designer page exactly when its URL contains
    [.design.webflow.com] or [.wfdev.io], anywhere in the URL: the test
    for [.design.wfdev.io] never decides. *)
Theorem isDesignerPage_two_patterns (url : string) :
  CONFIG.isDesignerPage (Some url) =
  Normal (includes url ".design.webflow.com" || includes url ".wfdev.io").
Proof.
  unfold CONFIG.isDesignerPage. f_equal.
  destruct (includes url ".design.webflow.com"); [reflexivity|]. cbn [orb].
  destruct (includes url ".design.wfdev.io") eqn:H; [|reflexivity].
  cbn [orb]. symmetry.
  apply (includes_suffix_of_pattern url ".design" ".wfdev.io"). exact H.
Qed.

(** ** Logger *)

Lemma own_name (l : Level) : Logger.own (Logger.name l) = Some l.
Proof. destruct l; reflexivity. Qed.

Lemma find_level (l : Level) :
  List.find (fun k => Nat.eqb (logLevels k) (logLevels l)) Logger.keys = Some l.
Proof. destruct l; reflexivity. Qed.

Lemma own_sound (key : string) (l : Level) :
  Logger.own key = Some l -> key = Logger.name l.
Proof.
  unfold Logger.own. intros H. apply find_some in H as [_ H].
  apply String.eqb_eq in H. congruence.
Qed.

(** The level of a logger made by [new], [setLevel] and [child] is one
    of the four of the table. *)
Lemma derive_level (ops : list Logger.Op) (lg : Logger.t) :
  (exists l, Logger.currentLevel lg = logLevels l) ->
  exists l, Logger.currentLevel (Logger.derive ops lg) = logLevels l.
Proof.
  revert lg. induction ops as [|op ops IH]; intros lg Hl; [exact Hl|].
  cbn. apply IH. destruct op as [v|c]; cbn.
  - unfold Logger.setLevel. destruct (Logger.own (to_string v)) as [l|].
    + exists l. reflexivity.
    + exact Hl.
  - destruct Hl as [l Hl]. exists l. unfold Logger.child.
    rewrite Hl, find_level. cbn [to_string Logger.setLevel].
    unfold Logger.setLevel. cbn [to_string]. rewrite own_name. reflexivity.
Qed.

(** X8. A child logger starts at the level of its parent, whatever calls
    of [setLevel] (with known or unknown level names) and [child] made the
    parent, and its context is the parent's followed by a colon and its
    own. *)
Theorem child_inherits_level (ops : list Logger.Op) (ctx c : string) :
  let parent := Logger.derive ops (Logger.new ctx) in
  Logger.currentLevel (Logger.child c parent) = Logger.currentLevel parent /\
  Logger.context (Logger.child c parent) = (Logger.context parent ++ ":" ++ c)%string.
Proof.
  intros parent.
  destruct (derive_level ops (Logger.new ctx)) as [l Hl]; [exists info; reflexivity|].
  fold parent in Hl. unfold Logger.child. rewrite Hl, find_level.
  unfold Logger.setLevel. cbn [to_string]. rewrite own_name. split; reflexivity.
Qed.

(** X9. No sequence of [setLevel] and [child] calls silences errors: a
    call of [error] always writes one line with [console.error], stamped
    with the time, the context and the level in upper case; the data is
    passed along only when it is truthy. *)
Theorem error_never_silenced {UI : Type} (ops : list Logger.Op) (ctx : string)
    (timestamp : string) (logToUI : option (string -> string -> JsVal -> UI -> UI))
    (message : string) (data : JsVal) (out : Logger.Sink UI) :
  let lg := Logger.derive ops (Logger.new ctx) in
  Logger.lines (Logger._log timestamp logToUI lg error message data out) =
  Logger.lines out ++
  [{| Logger.method := Logger.console_error;
      Logger.logMessage :=
        ("[" ++ timestamp ++ "] [" ++ Logger.context lg ++ "] [ERROR] " ++ message)%string;
      Logger.logData := if truthy data then Some data else None |}].
Proof.
  intros lg.
  destruct (derive_level ops (Logger.new ctx)) as [l Hl]; [exists info; reflexivity|].
  fold lg in Hl. unfold Logger._log. rewrite Hl.
  replace (Nat.ltb (logLevels error) (logLevels l)) with false by (destruct l; reflexivity).
  cbn [Logger.lines]. do 2 f_equal. destruct data; reflexivity.
Qed.

(** X10. After [setLevel] with the name of a level, a message is written
    exactly when its level is at least that one: one console line is
    added, or the sink is left as it was. A name that is not in the table
    changes nothing. *)
Theorem setLevel_threshold {UI : Type} (lg : Logger.t) (l level : Level)
    (timestamp : string) (logToUI : option (string -> string -> JsVal -> UI -> UI))
    (message : string) (data : JsVal) (out : Logger.Sink UI) :
  let lg' := Logger.setLevel (JStr (Logger.name l)) lg in
  let out' := Logger._log timestamp logToUI lg' level message data out in
  (if Nat.leb (logLevels l) (logLevels level)
   then length (Logger.lines out') = S (length (Logger.lines out))
   else out' = out) /\
  (forall v, Logger.own (to_string v) = None -> Logger.setLevel v lg = lg).
Proof.
  intros lg' out'. split.
  - subst out' lg'. unfold Logger.setLevel. cbn [to_string]. rewrite own_name.
    unfold Logger._log. cbn [Logger.currentLevel].
    destruct l, level; cbn [logLevels Nat.leb Nat.ltb]; cbn;
      rewrite ?length_app; cbn; try reflexivity; lia.
  - intros v Hv. unfold Logger.setLevel. rewrite Hv. reflexivity.
Qed.

Lemma setLevel_threshold_witness :
  Logger.setLevel (JStr "verbose") (Logger.new "Popup") = Logger.new "Popup".
Proof.
  destruct (setLevel_threshold (UI := unit) (Logger.new "Popup") warn info "t" None
              "m" JNull {| Logger.lines := []; Logger.ui := tt |}) as [_ H].
  apply H. reflexivity.
Defined.

(** ** The popup's activity log *)

Lemma limit_drop (m : nat) (l : list LogDiv) : limit m l = drop (length l - m) l.
Proof.
  induction l as [|a l IH]; [reflexivity|].
  cbn [limit]. destruct (Nat.ltb_spec m (length (a :: l))) as [H|H].
  - rewrite IH. cbn [length] in *.
    replace (S (length l) - m) with (S (length l - m)) by lia. reflexivity.
  - replace (length (a :: l) - m) with 0 by lia. reflexivity.
Qed.

Lemma latest_snoc (m : nat) (l : list LogDiv) (e : LogDiv) :
  0 < m ->
  drop (length (drop (length l - m) l ++ [e]) - m) (drop (length l - m) l ++ [e]) =
  drop (length (l ++ [e]) - m) (l ++ [e]).
Proof.
  intros Hm. rewrite !length_app, length_drop. cbn [length].
  destruct (Nat.le_gt_cases (length l) m) as [H|H].
  - replace (length l - m) with 0 by lia. rewrite drop_0, Nat.sub_0_r. reflexivity.
  - replace (length l - (length l - m) + 1 - m) with 1 by lia.
    rewrite drop_app_le by (rewrite length_drop; lia).
    rewrite drop_drop.
    replace (length l + 1 - m) with (length l - m + 1) by lia.
    rewrite drop_app_le by lia. reflexivity.
Qed.

(** X11. However full the log was, after [addLogEntry] it holds at most
    [maxEntries] entries: the most recent ones, ending with the entry
    just added. *)
Theorem addLogEntry_bounded (time message level : string) (activityLog : list LogDiv) :
  let entry := {| className := ("log-entry " ++ level)%string;
                  textContent := ("[" ++ time ++ "] " ++ message)%string |} in
  let log' := addLogEntry time message level activityLog in
  length log' = Nat.min (S (length activityLog)) CONFIG_ui.maxEntries /\
  log' = drop (S (length activityLog) - CONFIG_ui.maxEntries) (activityLog ++ [entry]) /\
  last log' = Some entry.
Proof.
  intros entry log'. subst log'. unfold addLogEntry. fold entry.
  rewrite limit_drop, length_app. cbn [length]. rewrite Nat.add_1_r.
  unfold CONFIG_ui.maxEntries.
  split; [|split].
  - rewrite length_drop, length_app. cbn [length]. lia.
  - reflexivity.
  - destruct (Nat.le_gt_cases (S (length activityLog)) 50) as [H|H].
    + replace (S (length activityLog) - 50) with 0 by lia.
      rewrite drop_0. apply last_snoc.
    + rewrite drop_app_le by lia. apply last_snoc.
Qed.

Lemma _log_ui (timestamp time : string) (lg : Logger.t) (c : Logger.Call)
    (out : Logger.Sink (list LogDiv)) :
  Logger.ui (Logger._log timestamp (Some (popup_logToUI time)) lg c.1.1 c.1.2 c.2 out) =
  if Logger.passes lg c then addLogEntry time c.1.2 (Logger.name c.1.1) (Logger.ui out)
  else Logger.ui out.
Proof.
  unfold Logger._log, Logger.passes.
  destruct (Nat.ltb (logLevels c.1.1) (Logger.currentLevel lg)); reflexivity.
Qed.

Lemma log_all_snoc {UI : Type} (timestamp : string)
    (logToUI : option (string -> string -> JsVal -> UI -> UI)) (lg : Logger.t)
    (calls : list Logger.Call) (c : Logger.Call) (out : Logger.Sink UI) :
  Logger.log_all timestamp logToUI lg (calls ++ [c]) out =
  Logger._log timestamp logToUI lg c.1.1 c.1.2 c.2
    (Logger.log_all timestamp logToUI lg calls out).
Proof. unfold Logger.log_all. rewrite fold_left_app. reflexivity. Qed.

Lemma log_all_ui (timestamp time : string) (lg : Logger.t)
    (calls : list Logger.Call) (out : Logger.Sink (list LogDiv)) :
  length (Logger.ui out) <= CONFIG_ui.maxEntries ->
  let shown :=
    Logger.ui out ++
    map (fun c : Logger.Call =>
           {| className := ("log-entry " ++ Logger.name c.1.1)%string;
              textContent := ("[" ++ time ++ "] " ++ c.1.2)%string |})
        (List.filter (Logger.passes lg) calls) in
  Logger.ui (Logger.log_all timestamp (Some (popup_logToUI time)) lg calls out) =
  drop (length shown - CONFIG_ui.maxEntries) shown.
Proof.
  intros Hlen shown. subst shown. unfold CONFIG_ui.maxEntries in *.
  induction calls as [|c calls IH] using rev_ind.
  - cbn. rewrite app_nil_r. replace (length (Logger.ui out) - 50) with 0 by lia.
    reflexivity.
  - rewrite log_all_snoc, List.filter_app. cbn [List.filter].
    rewrite _log_ui, IH.
    destruct (Logger.passes lg c).
    + unfold addLogEntry.
      rewrite limit_drop, map_app, app_assoc. cbn [map].
      unfold CONFIG_ui.maxEntries. apply latest_snoc. lia.
    + rewrite !app_nil_r. reflexivity.
Qed.

(** X12. In the popup, where [window.logToUI] feeds [addLogEntry], the
    activity log shows the calls that pass the logger's level filter, in
    order, and of those only the latest [maxEntries]. *)
Theorem activity_log_shows_latest (timestamp time : string) (lg : Logger.t)
    (calls : list Logger.Call) (out : Logger.Sink (list LogDiv)) :
  length (Logger.ui out) <= CONFIG_ui.maxEntries ->
  let shown :=
    Logger.ui out ++
    map (fun c : Logger.Call =>
           {| className := ("log-entry " ++ Logger.name c.1.1)%string;
              textContent := ("[" ++ time ++ "] " ++ c.1.2)%string |})
        (List.filter (Logger.passes lg) calls) in
  let out' := Logger.log_all timestamp (Some (popup_logToUI time)) lg calls out in
  Logger.ui out' = drop (length shown - CONFIG_ui.maxEntries) shown /\
  length (Logger.ui out') <= CONFIG_ui.maxEntries /\
  length (Logger.lines out') =
    length (Logger.lines out) + length (List.filter (Logger.passes lg) calls).
Proof.
  intros Hlen shown out'.
  pose proof (log_all_ui timestamp time lg calls out Hlen) as H.
  cbv zeta in H. fold shown in H. fold out' in H.
  split; [exact H | split].
  - rewrite H, length_drop. unfold CONFIG_ui.maxEntries in *. lia.
  - subst out'. clear H Hlen shown. revert out.
    induction calls as [|c calls IH]; intros out; [cbn; lia|].
    cbn [Logger.log_all fold_left List.filter] in *.
    unfold Logger.log_all in IH. rewrite IH.
    assert (Hp : Logger.passes lg c =
                 negb (Nat.ltb (logLevels c.1.1) (Logger.currentLevel lg)))
      by reflexivity.
    rewrite Hp. unfold Logger._log.
    destruct (Nat.ltb (logLevels c.1.1) (Logger.currentLevel lg)); cbn [negb].
    + reflexivity.
    + cbn [Logger.lines length]. rewrite length_app. cbn [length]. lia.
Qed.

Lemma activity_log_shows_latest_witness :
  let out := {| Logger.lines := []; Logger.ui := [] |} in
  let out' := Logger.log_all "t" (Some (popup_logToUI "9:00")) (Logger.new "Popup")
                [(debug, "a", JNull); (info, "b", JNull); (error, "c", JNull)] out in
  Logger.ui out' = [{| className := "log-entry info"; textContent := "[9:00] b" |};
                    {| className := "log-entry error"; textContent := "[9:00] c" |}].
Proof.
  intros out out'.
  destruct (activity_log_shows_latest "t" "9:00" (Logger.new "Popup")
              [(debug, "a", JNull); (info, "b", JNull); (error, "c", JNull)] out)
    as [H _]; [cbn; lia|].
  exact H.
Defined.

(** ** ValidationExecutor *)

(** X13. [_verifyTab] accepts a tab exactly when the tab exists and
    passes the filter that the popup and the background worker apply to
    the Designer tabs: loaded, not discarded and on a Designer URL. *)
Theorem verifyTab_accepts_loaded (chrome : Chrome) (tabId : nat) (t : Tab) :
  ValidationExecutor._verifyTab chrome tabId = Normal t <->
  tabs_get chrome tabId = Normal (Some t) /\ loaded t = Normal true.
Proof.
  unfold ValidationExecutor._verifyTab, loaded. split.
  - destruct (tabs_get chrome tabId) as [[t'|]|m]; try discriminate.
    destruct (String.eqb (tab.status t') "complete") eqn:Hs; cbn [negb andb];
      try discriminate.
    destruct (tab.discarded t') eqn:Hd; cbn [negb]; try discriminate.
    destruct (CONFIG.isDesignerPage (tab.url t')) as [[|]|m] eqn:Hp; try discriminate.
    intros [= ->]. rewrite Hs, Hd, Hp. split; reflexivity.
  - intros [-> H].
    destruct (String.eqb (tab.status t) "complete"); cbn [negb andb] in *;
      try discriminate.
    destruct (tab.discarded t); cbn [negb] in *; try discriminate.
    rewrite H. reflexivity.
Qed.

Lemma _verifyTab_loaded_helper chrome tabId t :
  ValidationExecutor._verifyTab chrome tabId = Normal t ->
  tabs_get chrome tabId = Normal (Some t) /\ loaded t = Normal true.
Proof.
  unfold ValidationExecutor._verifyTab, loaded.
  destruct (tabs_get chrome tabId) as [[t'|]|m]; try discriminate.
  destruct (String.eqb (tab.status t') "complete") eqn:Hs; cbn [negb andb];
    try discriminate.
  destruct (tab.discarded t') eqn:Hd; cbn [negb]; try discriminate.
  destruct (CONFIG.isDesignerPage (tab.url t')) as [[|]|m] eqn:Hp; try discriminate.
  intros [= ->]. rewrite Hs, Hd, Hp. split; reflexivity.
Qed.

Lemma _verifyTab_accepts_helper chrome tabId t :
  tabs_get chrome tabId = Normal (Some t) -> loaded t = Normal true ->
  ValidationExecutor._verifyTab chrome tabId = Normal t.
Proof.
  unfold ValidationExecutor._verifyTab, loaded. intros -> H.
  destruct (String.eqb (tab.status t) "complete"); cbn [negb andb] in *;
    try discriminate.
  destruct (tab.discarded t); cbn [negb] in *; try discriminate.
  rewrite H. reflexivity.
Qed.

Lemma executeGetWFDL_but_console chrome tabId :
  preserves but_console (ValidationExecutor.executeGetWFDL chrome tabId).
Proof.
  unfold ValidationExecutor.executeGetWFDL, ValidationExecutor.executeGetWFDL_try. pres.
Qed.

(** X14. [executeGetWFDL] touches nothing but the console. When it
    resolves, the tab passed [_verifyTab] and the value is the first
    result of the injected script, with a truthy [success]; every other
    outcome is a rejection, logged as an error. *)
Theorem executeGetWFDL_contract (chrome : Chrome) (tabId : nat) (w : World) :
  let w' := exec (ValidationExecutor.executeGetWFDL chrome tabId) w in
  but_console w' = but_console w /\
  match eval (ValidationExecutor.executeGetWFDL chrome tabId) w with
  | Normal result =>
      truthy (prop result "success") = true /\
      (exists t, tabs_get chrome tabId = Normal (Some t) /\ loaded t = Normal true) /\
      (exists rest, executeScript chrome tabId = Normal (result :: rest)) /\
      console (browser w') =
        console (browser w) ++ [(info, "getting WFDL"); (info, "Got WFDL successfully")]
  | Throw _ =>
      console (browser w') =
        console (browser w) ++ [(info, "getting WFDL"); (error, "Gettng WFDL failed")]
  end.
Proof.
  intros w'. split; [apply executeGetWFDL_but_console|]. subst w'.
  unfold ValidationExecutor.executeGetWFDL, ValidationExecutor.executeGetWFDL_try.
  destruct (ValidationExecutor._verifyTab chrome tabId) as [t|m] eqn:Hv.
  - apply _verifyTab_loaded_helper in Hv.
    unfold ValidationExecutor._executeScriptGetWFDL.
    destruct (executeScript chrome tabId) as [results|m] eqn:He.
    + destruct results as [|r rest].
      * cbn. rewrite <- app_assoc. reflexivity.
      * change (default JUndefined (head (r :: rest))) with r.
        unfold js_or. destruct (truthy r) eqn:Hr.
        -- destruct (truthy (prop r "success")) eqn:Hs; cbn [negb].
           ++ cbn. rewrite Hs, <- app_assoc.
              split; [reflexivity|]. split; [exists t; exact Hv|].
              split; [exists rest; reflexivity|]. reflexivity.
           ++ cbn. rewrite <- app_assoc. reflexivity.
        -- cbn. rewrite <- app_assoc. reflexivity.
    + cbn. rewrite <- app_assoc. reflexivity.
  - cbn. rewrite <- app_assoc. reflexivity.
Qed.

(** X15. With [_executeWfdlGet] as the injected script, on a tab that
    passes [_verifyTab]: [executeGetWFDL] resolves exactly when the
    page's [wf.extractTrainingData] is a function that returns, with the
    returned value as [data]; otherwise it rejects with the message the
    script reports, never with one of the stand-in messages. *)
Theorem executeGetWFDL_runs_page_script (chrome : Chrome) (tabId : nat) (t : Tab)
    (page : Page) (r : JsVal) (w : World) :
  tabs_get chrome tabId = Normal (Some t) ->
  loaded t = Normal true ->
  _executeWfdlGet page = Normal r ->
  executeScript chrome tabId = Normal [r] ->
  eval (ValidationExecutor.executeGetWFDL chrome tabId) w =
    match wf page with
    | WfObject _ (ReturnsValue v) =>
        Normal (JObj [("success", JBool true); ("data", v)])
    | WfObject _ (ThrowsError m) => Throw ("get WFDL failed: " ++ m)%string
    | IsNull =>
        Throw "get WFDL failed: Cannot read properties of null (reading 'extractTrainingData')"
    | _ => Throw "wf.extractTrainingData not available in page context"
    end.
Proof.
  intros Hg Hl Hp He.
  assert (Hv : ValidationExecutor._verifyTab chrome tabId = Normal t)
    by (apply _verifyTab_accepts_helper; assumption).
  unfold ValidationExecutor.executeGetWFDL, ValidationExecutor.executeGetWFDL_try,
    ValidationExecutor._executeScriptGetWFDL.
  rewrite Hv, He. change (default JUndefined (head [r])) with r.
  unfold _executeWfdlGet in Hp.
  destruct (wf page) as [| | |m1 [|v|m]]; injection Hp as <-; reflexivity.
Qed.

Lemma executeGetWFDL_runs_page_script_witness :
  let page := {| wf := WfObject NotAFunction (ReturnsValue (JStr "wfdl"));
                 __wfdlValidationError := JUndefined;
                 __wfdlValidationResult := JUndefined;
                 dom_exception := None |} in
  let chrome := mk_chrome [] [loaded_active] in
  eval (ValidationExecutor.executeGetWFDL chrome 3) connected_world =
  Normal (JObj [("success", JBool true); ("data", JStr "wfdl")]).
Proof.
  intros page chrome.
  apply (executeGetWFDL_runs_page_script chrome 3 loaded_active page
           (JObj [("success", JBool true); ("data", JStr "wfdl")]) connected_world);
    reflexivity.
Defined.

(** ** The popup *)

(** X16. With [getWFDL] as the injected script on a loaded tab of a page
    whose error slot is empty: the popup resolves with exactly the value
    that [wf.exportTrainingData()] returned as [validationResult], under
    the request's id ([null] when there is none); and when the injected
    code fails with a message, the popup rejects with that message behind
    the prefix [Designer validation failed: ] (unless the message reads
    like a messaging failure or a timeout). *)
Theorem popup_validation_runs_getWFDL (chrome : Chrome) (tabId : nat) (t : Tab)
    (page : Page) (r : JsVal) (requestId : JsVal) (w : World) :
  tabs_get chrome tabId = Normal (Some t) ->
  tab.status t = "complete" ->
  tab.discarded t = false ->
  executeScript chrome tabId = Normal [r] ->
  fst (getWFDL page) = Normal r ->
  dom_exception page = None ->
  truthy (__wfdlValidationError page) = false ->
  (forall v other, wf page = WfObject (ReturnsValue v) other ->
     eval (executeDesignerValidation chrome tabId requestId) w =
     Normal (JObj [("success", JBool true);
                   ("requestId", match requestId with JUndefined => JNull | _ => requestId end);
                   ("validationResult", v);
                   ("source", JStr "wf.exportTrainingData");
                   ("context", JObj [("url", opt_str (tab.url t));
                                     ("title", JStr (tab.title t));
                                     ("tabId", JNum (Z.of_nat (tab.id t)))]);
                   ("timestamp", JStr (now (browser w)))])) /\
  (forall m, validationCode page = Throw m ->
     m <> EmptyString ->
     includes m "Could not establish connection" = false ->
     includes m "Receiving end does not exist" = false ->
     includes m "timeout" = false ->
     eval (executeDesignerValidation chrome tabId requestId) w =
     Throw ("Designer validation failed: " ++ m)%string).
Proof.
  intros Hg Hs Hd He Hr Hdom Hslot.
  unfold getWFDL in Hr. rewrite Hdom in Hr. unfold wrappedCode in Hr.
  split.
  - intros v other Hwf. unfold validationCode in Hr. rewrite Hwf in Hr.
    cbn [__wfdlValidationError __wfdlValidationResult] in Hr.
    rewrite Hslot in Hr. cbn [fst] in Hr. injection Hr as <-.
    unfold executeDesignerValidation, executeDesignerValidation_try, toISOString.
    rewrite Hg, Hs, Hd, He. reflexivity.
  - intros m Hm Hne H1 H2 H3. rewrite Hm in Hr.
    cbn [__wfdlValidationError] in Hr.
    assert (Ht : truthy (JStr m) = true).
    { cbn. destruct (String.eqb m EmptyString) eqn:E; [|reflexivity].
      apply String.eqb_eq in E. contradiction. }
    rewrite Ht in Hr. cbn [fst] in Hr. injection Hr as <-.
    unfold executeDesignerValidation, executeDesignerValidation_try, toISOString.
    rewrite Hg, Hs, Hd, He. cbn. cbn in Ht. unfold js_or. cbn [truthy].
    rewrite Ht. cbn [to_string]. msimpl. cbv beta iota. msimpl.
    rewrite H1, H2, H3. reflexivity.
Qed.

Lemma popup_validation_runs_getWFDL_witness :
  let page := {| wf := WfObject (ReturnsValue (JStr "wfdl")) NotAFunction;
                 __wfdlValidationError := JUndefined;
                 __wfdlValidationResult := JUndefined;
                 dom_exception := None |} in
  match eval (executeDesignerValidation (mk_chrome [] [loaded_active]) 3 (JStr "r1"))
             connected_world with
  | Normal obj => prop obj "validationResult" = JStr "wfdl"
  | Throw _ => False
  end.
Proof.
  intros page.
  destruct (popup_validation_runs_getWFDL (mk_chrome [] [loaded_active]) 3 loaded_active
              page (JObj [("success", JBool true); ("data", JStr "wfdl")]) (JStr "r1")
              connected_world) as [H _]; [reflexivity..|].
  rewrite (H (JStr "wfdl") NotAFunction eq_refl). reflexivity.
Defined.









Lemma handleValidationRequest_counts chrome message popup w :
  let popup' := eval (handleValidationRequest chrome message popup) w in
  requestCount popup' = S (requestCount popup) /\
  successCount popup <= successCount popup' <= S (successCount popup).
Proof.
  unfold handleValidationRequest. msimpl.
  match goal with
  | |- context [match ?r with Normal _ => _ | Throw _ => _ end] =>
      match r with
      | eval _ _ => destruct r
      end
  end; msimpl; cbn [requestCount successCount]; lia.
Qed.

Lemma handleWebSocketMessage_counts chrome message popup w :
  let popup' := eval (handleWebSocketMessage chrome message popup) w in
  let n := if is_type message "wfdl_validation_request" then 1 else 0 in
  requestCount popup' = requestCount popup + n /\
  successCount popup <= successCount popup' <= successCount popup + n.
Proof.
  unfold handleWebSocketMessage. msimpl.
  destruct (is_type message "wfdl_validation_request").
  - pose proof (handleValidationRequest_counts chrome message popup
                  (exec (logger debug "Received WebSocket message") w)) as H.
    cbv zeta in *. lia.
  - repeat match goal with
           | |- context [if ?b then _ else _] => destruct b
           end; msimpl; cbv zeta; lia.
Qed.

(** X18. Whatever frames the popup is given and however they are
    served, its statistics stay consistent: [requestCount] grows by the
    number of validation requests among the frames, and [successCount] by
    at most as much, so it never overtakes [requestCount]. *)
Theorem stats_consistent (requests : list (Chrome * JsVal)) (popup : Popup) (w : World) :
  let popup' := eval (handle_all requests popup) w in
  requestCount popup' = requestCount popup + validation_requests requests /\
  successCount popup <= successCount popup' /\
  successCount popup' <= successCount popup + validation_requests requests.
Proof.
  revert popup w. induction requests as [|[chrome message] rest IH]; intros popup w.
  - cbn. lia.
  - cbn [handle_all]. msimpl.
    pose proof (handleWebSocketMessage_counts chrome message popup w) as H.
    specialize (IH (eval (handleWebSocketMessage chrome message popup) w)
                   (exec (handleWebSocketMessage chrome message popup) w)).
    unfold validation_requests in *. cbn [List.filter snd].
    cbv zeta in *.
    destruct (is_type message "wfdl_validation_request"); cbn [length]; lia.
Qed.

(** ** Background service worker *)

Lemma log_extensionId level message st :
  Background.extensionId (Background.log level message st) = Background.extensionId st.
Proof. reflexivity. Qed.

Lemma handleComponentScreenshot_try_extensionId api request st :
  Background.extensionId (snd (Background.handleComponentScreenshot_try api request st)) =
  Background.extensionId st.
Proof.
  unfold Background.handleComponentScreenshot_try.
  repeat match goal with
         | |- context [match ?x with _ => _ end] => destruct x
         end; reflexivity.
Qed.

Lemma handleComponentScreenshot_extensionId api request st :
  Background.extensionId (snd (Background.handleComponentScreenshot api request st)) =
  Background.extensionId st.
Proof.
  unfold Background.handleComponentScreenshot.
  pose proof (handleComponentScreenshot_try_extensionId api request st) as H.
  destruct (Background.handleComponentScreenshot_try api request st) as [[[]|m] st1].
  - exact H.
  - cbn [snd] in H.
    repeat match goal with
           | |- context [match ?x with _ => _ end] => destruct x
           end; exact H.
Qed.

Lemma onMessage_extensionId api request st :
  Background.extensionId (snd (Background.onMessage api request st)) =
  Background.extensionId st.
Proof.
  unfold Background.onMessage.
  destruct (get request "type"); [|reflexivity].
  destruct (is_type request "get_extension_status"); [reflexivity|].
  destruct (is_type request "connection_status"); [reflexivity|].
  destruct (is_type request "capture_component_screenshot"); [|reflexivity].
  cbn [snd]. rewrite handleComponentScreenshot_extensionId. reflexivity.
Qed.

(** The worker's [extensionId] is [null] or [chrome.runtime.id]. *)
Lemma run_extensionId api es st :
  (Background.extensionId st = None \/
   Background.extensionId st = Some (Background.runtime_id api)) ->
  Background.extensionId (Background.run api es st) = None \/
  Background.extensionId (Background.run api es st) = Some (Background.runtime_id api).
Proof.
  revert st. induction es as [|e es IH]; intros st H; [exact H|].
  cbn. apply IH. destruct e; cbn [Background.step].
  - right. reflexivity.
  - right. reflexivity.
  - rewrite onMessage_extensionId. exact H.
Qed.

(** X19. Whatever happened to the worker before (installation, start-up,
    any messages, or nothing at all), a [get_extension_status] request is
    answered with the id of the extension, [chrome.runtime.id]. *)
Theorem status_reports_runtime_id (api : Background.Api) (es : list Background.Event)
    (request : JsVal) :
  is_type request "get_extension_status" = true ->
  let st := Background.run api es Background.initial in
  Background.onMessage api request st =
  (Normal true,
   Background.sendResponse
     (JObj [("success", JBool true);
            ("extensionId", JStr (Background.runtime_id api));
            ("timestamp", JStr (Background.timestamp api))])
     (Background.log debug "Background received message" st)).
Proof.
  intros Ht st. unfold Background.onMessage.
  assert (Hg : exists v, get request "type" = Normal v).
  { unfold is_type in Ht. destruct request; try discriminate Ht; eexists; reflexivity. }
  destruct Hg as [v ->]. rewrite Ht. rewrite log_extensionId.
  destruct (run_extensionId api es Background.initial (or_introl eq_refl)) as [H|H];
    fold st in H; rewrite H; [reflexivity|].
  unfold js_or. destruct (truthy (JStr (Background.runtime_id api))); reflexivity.
Qed.

Lemma status_reports_runtime_id_witness :
  let api := {| Background.runtime_id := "abcdef";
                Background.tabs_sendMessage := fun _ _ => Background.Rejects "no tab";
                Background.captureVisibleTab := Background.Rejects "no window";
                Background.timestamp := "t" |} in
  Background.responses
    (Background.run api
       [Background.Startup;
        Background.Incoming (JObj [("type", JStr "get_extension_status")])]
       Background.initial) =
  [JObj [("success", JBool true); ("extensionId", JStr "abcdef"); ("timestamp", JStr "t")]].
Proof.
  intros api.
  pose proof (status_reports_runtime_id api [Background.Startup]
                (JObj [("type", JStr "get_extension_status")]) eq_refl) as H.
  cbv zeta in H. unfold Background.run at 1. cbn [fold_left Background.step].
  unfold Background.run in H. cbn [fold_left Background.step] in H.
  rewrite H. reflexivity.
Defined.

Ltac screenshot_cases Hc :=
  unfold Background.handleComponentScreenshot, Background.handleComponentScreenshot_try,
    Background.awaited;
  repeat match goal with
         | |- context [Background.tabs_sendMessage ?api ?t ?m] =>
             let E := fresh "E" in
             destruct (Background.tabs_sendMessage api t m) eqn:E;
             try (exfalso; eapply Hc; first [eassumption | reflexivity])
         | |- context [Background.captureVisibleTab ?api] =>
             let E := fresh "E" in
             destruct (Background.captureVisibleTab api) eqn:E
         | |- context [get ?v "success"] =>
             let E := fresh "E" in
             destruct (get v "success") eqn:E
         | |- context [truthy ?v] =>
             let E := fresh "E" in
             destruct (truthy v) eqn:E
         end.

(** X20. A screenshot request is answered exactly once, whatever the
    content script and the capture do, as long as the clean-up message
    can be sent at all (the call does not throw): the handler's promise
    is fulfilled, one response is sent, and the content script is asked
    to clean up exactly once when the request names a tab or the
    screenshot succeeded, and never otherwise. The tab is captured only
    after the content script reported that the component is prepared. *)
Theorem screenshot_answered_once (api : Background.Api) (request : JsVal)
    (st : Background.State) :
  (forall m, Background.tabs_sendMessage api (prop request "tabId")
               (Background.cleanup_message request) <> Background.ThrowsSync m) ->
  let r := Background.handleComponentScreenshot api request st in
  fst r = Normal tt /\
  exists resp new,
    Background.responses (snd r) = Background.responses st ++ [resp] /\
    Background.calls (snd r) = Background.calls st ++ new /\
    length (List.filter Background.is_cleanup new) =
      (if truthy (prop request "tabId") || truthy (prop resp "success") then 1 else 0) /\
    (In Background.CaptureVisibleTab new ->
     exists prepResult,
       Background.tabs_sendMessage api (prop request "tabId")
         (Background.prepare_message request) = Background.Resolves prepResult /\
       truthy (prop prepResult "success") = true).
Proof.
  intros Hc r. subst r.
  screenshot_cases Hc; cbn [fst snd]; (split; [reflexivity|]);
    eexists; eexists;
    (split; [cbn; reflexivity|]);
    (split; [cbn; rewrite <- ?app_assoc; reflexivity|]);
    (split; [cbn; rewrite ?E; reflexivity|]).
  all: intros Hin; cbn in Hin.
  all: try (exfalso; intuition discriminate).
  all: eexists; split; [reflexivity|].
  all: match goal with
       | H : get ?v "success" = Normal ?s |- truthy (prop ?v "success") = true =>
           destruct v; try discriminate H; injection H as <-; assumption
       end.
Qed.

Lemma screenshot_answered_once_witness :
  let r := Background.handleComponentScreenshot cooperative screenshot_request
             Background.initial in
  fst r = Normal tt /\ length (Background.responses (snd r)) = 1.
Proof.
  intros r.
  destruct (screenshot_answered_once cooperative screenshot_request Background.initial)
    as (H1 & resp & new & H2 & _).
  { intros m. discriminate. }
  split; [exact H1|]. fold r in H2. rewrite H2. reflexivity.
Defined.

Lemma get_of_truthy (v : JsVal) (k : string) :
  truthy (prop v k) = true -> get v k = Normal (prop v k).
Proof. destruct v; try discriminate; reflexivity. Qed.

(** X21. A screenshot request is answered with [success: true] exactly
    when the content script prepared the component, the tab was captured
    and the content script cropped the capture. The response then carries
    the cropped image and the bounds the content script reported, and the
    calls made are: prepare, capture, crop, clean up. *)
Theorem screenshot_success (api : Background.Api) (request : JsVal)
    (st : Background.State) :
  (forall m, Background.tabs_sendMessage api (prop request "tabId")
               (Background.cleanup_message request) <> Background.ThrowsSync m) ->
  let r := Background.handleComponentScreenshot api request st in
  let tabId := prop request "tabId" in
  let succeeded prepResult screenshotDataUrl cropResult :=
    Background.tabs_sendMessage api tabId (Background.prepare_message request)
      = Background.Resolves prepResult /\
    truthy (prop prepResult "success") = true /\
    Background.captureVisibleTab api = Background.Resolves screenshotDataUrl /\
    Background.tabs_sendMessage api tabId
      (Background.crop_message request screenshotDataUrl prepResult)
      = Background.Resolves cropResult /\
    truthy (prop cropResult "success") = true in
  (forall prepResult screenshotDataUrl cropResult,
     succeeded prepResult screenshotDataUrl cropResult ->
     Background.responses (snd r) =
       Background.responses st ++
       [JObj [("success", JBool true);
              ("screenshot", prop cropResult "croppedImage");
              ("componentId", prop request "componentId");
              ("bounds", prop prepResult "componentBounds")]] /\
     Background.calls (snd r) =
       Background.calls st ++
       Background.full_protocol request screenshotDataUrl prepResult) /\
  (forall resp,
     last (Background.responses (snd r)) = Some resp ->
     truthy (prop resp "success") = true ->
     exists prepResult screenshotDataUrl cropResult,
       succeeded prepResult screenshotDataUrl cropResult).
Proof.
  intros Hc r tabId succeeded. subst r tabId succeeded. cbv beta. split.
  - intros p s c (Hp & Hps & Hs & Hcr & Hcs).
    unfold Background.handleComponentScreenshot,
      Background.handleComponentScreenshot_try, Background.awaited.
    rewrite Hp, (get_of_truthy _ _ Hps), Hps. cbn [negb]. rewrite Hs, Hcr.
    rewrite (get_of_truthy _ _ Hcs), Hcs. cbn [negb].
    destruct (Background.tabs_sendMessage api (prop request "tabId")
                (Background.cleanup_message request)) eqn:E;
      [| | exfalso; eapply Hc; reflexivity];
      cbn; rewrite <- ?app_assoc; split; reflexivity.
  - intros resp Hl Ht. revert Hl.
    screenshot_cases Hc; cbn [snd negb Background.responses Background.sendResponse
                              Background.log Background.call];
      rewrite last_snoc; intros [= <-]; cbn in Ht; try discriminate Ht.
    all: assert (Hget : forall v s, get v "success" = Normal s -> truthy s = true ->
                          truthy (prop v "success") = true)
           by (intros v' s' Hg Hs; destruct v'; try discriminate Hg;
               cbn in Hg; injection Hg as <-; exact Hs).
    all: eexists _, _, _;
         (split; [first [eassumption | reflexivity]|]);
         (split; [eapply Hget; [eassumption | eassumption]|]);
         (split; [first [eassumption | reflexivity]|]);
         (split; [first [eassumption | reflexivity]|]);
         eapply Hget; [eassumption | eassumption].
Qed.

Lemma screenshot_success_witness :
  Background.responses
    (snd (Background.handleComponentScreenshot cooperative screenshot_request
            Background.initial)) =
  [JObj [("success", JBool true);
         ("screenshot", JStr "data:image/png;base64,AAAA");
         ("componentId", JStr "c1");
         ("bounds", JObj [("x", JNum 0)])]].
Proof.
  destruct (screenshot_success cooperative screenshot_request Background.initial)
    as [H _].
  { intros m. discriminate. }
  destruct (H (JObj [("success", JBool true); ("componentBounds", JObj [("x", JNum 0)])])
              (JStr "data:image/png;base64,BBBB")
              (JObj [("success", JBool true);
                     ("croppedImage", JStr "data:image/png;base64,AAAA")]))
    as [H1 _].
  { repeat split. }
  exact H1.
Defined.

Lemma onMessage_one_response api request st :
  request <> JUndefined -> request <> JNull ->
  (forall m, Background.tabs_sendMessage api (prop request "tabId")
               (Background.cleanup_message request) <> Background.ThrowsSync m) ->
  fst (Background.onMessage api request st) = Normal true /\
  length (Background.responses (snd (Background.onMessage api request st))) =
  S (length (Background.responses st)).
Proof.
  intros Hu Hn Hc. unfold Background.onMessage.
  assert (Hg : get request "type" = Normal (prop request "type"))
    by (destruct request; first [reflexivity | congruence]).
  rewrite Hg.
  destruct (is_type request "get_extension_status");
    [cbn; rewrite length_app; cbn; split; [reflexivity | lia]|].
  destruct (is_type request "connection_status");
    [cbn; rewrite length_app; cbn; split; [reflexivity | lia]|].
  destruct (is_type request "capture_component_screenshot");
    [|cbn; rewrite length_app; cbn; split; [reflexivity | lia]].
  split; [reflexivity|]. cbn [snd].
  screenshot_cases Hc; cbn; rewrite length_app; cbn; lia.
Qed.

(** X22. Every message the worker receives is answered exactly once: over
    any sequence of installations, start-ups and messages there are as
    many responses as messages, provided each message is an object or a
    primitive (reading [type] of [null] or [undefined] throws) and the
    clean-up call for it does not throw. *)
Theorem every_message_answered (api : Background.Api) (es : list Background.Event)
    (st : Background.State) :
  Forall (fun e =>
            match e with
            | Background.Incoming request =>
                request <> JUndefined /\ request <> JNull /\
                forall m, Background.tabs_sendMessage api (prop request "tabId")
                            (Background.cleanup_message request)
                          <> Background.ThrowsSync m
            | _ => True
            end) es ->
  length (Background.responses (Background.run api es st)) =
  length (Background.responses st) + length (List.filter Background.is_incoming es).
Proof.
  intros H. revert st. induction H as [|e es He _ IH]; intros st; [cbn; lia|].
  cbn [Background.run fold_left]. fold (Background.run api es (Background.step api st e)).
  rewrite IH. destruct e as [| |request]; cbn [Background.step List.filter
    Background.is_incoming length].
  - cbn. lia.
  - cbn. lia.
  - destruct He as (Hu & Hn & Hc).
    destruct (onMessage_one_response api request st Hu Hn Hc) as [_ ->]. lia.
Qed.

Lemma every_message_answered_witness :
  length (Background.responses
            (Background.run cooperative
               [Background.Installed;
                Background.Incoming (JObj [("type", JStr "connection_status")]);
                Background.Incoming screenshot_request;
                Background.Incoming (JStr "hello")]
               Background.initial)) = 3.
Proof.
  rewrite (every_message_answered cooperative).
  - reflexivity.
  - repeat constructor; discriminate.
Defined.

(** ** Content script *)

(** X23. The content script answers every message exactly once, whatever
    its type and whatever the page holds (a message that is [null] or
    [undefined] apart, for which reading [type] throws). *)
Theorem content_script_answers_once (env : ContentScript.Env) (message : JsVal)
    (st : ContentScript.State) :
  message <> JUndefined -> message <> JNull ->
  let r := ContentScript.handleMessage env message st in
  fst r = Normal tt /\
  exists response,
    ContentScript.responses (snd r) = ContentScript.responses st ++ [response].
Proof.
  intros Hu Hn r. subst r. unfold ContentScript.handleMessage.
  assert (Hg : get message "type" = Normal (prop message "type"))
    by (destruct message; first [reflexivity | congruence]).
  rewrite Hg. split; [reflexivity|]. cbn [snd].
  repeat match goal with
         | |- context [if is_type message ?k then _ else _] =>
             destruct (is_type message k)
         end;
    unfold ContentScript.handlePing, ContentScript.handleGetWFDLRequest,
      ContentScript.handleTestValidation, ContentScript.handleDebugRequest,
      ContentScript.handleStatusRequest, ContentScript.prepareComponentScreenshot,
      ContentScript.cropComponentScreenshot, ContentScript.cleanupComponentScreenshot,
      ContentScript.executeGetWFDL;
    try destruct (ContentScript.executeGetWFDLInPageContext env);
    eexists; reflexivity.
Qed.

Lemma content_script_answers_once_witness :
  let env := {| ContentScript.page :=
                  {| wf := Undeclared; __wfdlValidationError := JUndefined;
                     __wfdlValidationResult := JUndefined; dom_exception := None |};
                ContentScript.href := "https://site.design.webflow.com/";
                ContentScript.title := "Site";
                ContentScript.visible := true;
                ContentScript.timestamp := "t" |} in
  length (ContentScript.responses
            (snd (ContentScript.handleMessage env (JObj [("type", JStr "ping")])
                    {| ContentScript.console := []; ContentScript.responses := [] |}))) = 1.
Proof.
  intros env.
  destruct (content_script_answers_once env (JObj [("type", JStr "ping")])
              {| ContentScript.console := []; ContentScript.responses := [] |})
    as (_ & response & H); [discriminate | discriminate |].
  rewrite H. reflexivity.
Defined.

(** X24. A [get_wfdl] message is answered with [success: true] exactly
    when the injected script's result is visible and the page's
    [wf.exportTrainingData] returned; the answer then carries the returned
    value as [validationResult] and the request's id ([null] when there is
    none). In every other case the answer is a failure whose error starts
    with [getting WFDL failed: ]; if [ping] reports the page as available,
    the rest of it is the message of the exception that
    [wf.exportTrainingData] raised. *)
Theorem get_wfdl_answer (env : ContentScript.Env) (message : JsVal)
    (st : ContentScript.State) :
  is_type message "get_wfdl" = true ->
  let st' := snd (ContentScript.handleMessage env message st) in
  match ContentScript.visible env, wf (ContentScript.page env) with
  | true, WfObject (ReturnsValue v) _ =>
      ContentScript.responses st' =
      ContentScript.responses st ++
      [JObj [("success", JBool true);
             ("requestId", match prop message "requestId" with
                           | JUndefined => JNull
                           | _ => prop message "requestId"
                           end);
             ("wfdl", prop message "wfdl");
             ("validationResult", v);
             ("source", JStr "wf.exportTrainingData");
             ("context", JObj [("url", JStr (ContentScript.href env));
                               ("title", JStr (ContentScript.title env))]);
             ("timestamp", JStr (ContentScript.timestamp env))]]
  | _, _ =>
      exists m,
        ContentScript.responses st' =
        ContentScript.responses st ++
        [JObj [("success", JBool false);
               ("error", JStr ("getting WFDL failed: " ++ m)%string);
               ("requestId", prop message "requestId");
               ("timestamp", JStr (ContentScript.timestamp env))]] /\
        (ContentScript.available env = true ->
         exists other, wf (ContentScript.page env) = WfObject (ThrowsError m) other)
  end.
Proof.
  intros Ht st'. subst st'. unfold ContentScript.handleMessage.
  assert (Hg : get message "type" = Normal (prop message "type")).
  { unfold is_type in Ht. destruct message; try discriminate Ht; reflexivity. }
  assert (Hp : is_type message "ping" = false).
  { unfold is_type in *. destruct (prop message "type"); try reflexivity.
    apply String.eqb_eq in Ht. subst. reflexivity. }
  rewrite Hg, Hp, Ht. cbn [snd].
  unfold ContentScript.handleGetWFDLRequest, ContentScript.executeGetWFDL,
    ContentScript.executeGetWFDLInPageContext, ContentScript.available,
    ContentScript.stored_result.
  destruct (ContentScript.visible env).
  - destruct (wf (ContentScript.page env)) as [| | |[|v|m] other];
      try reflexivity; eexists; (split; [reflexivity|]); cbn; try discriminate.
    intros _. exists other. reflexivity.
  - destruct (wf (ContentScript.page env)) as [| | |[|v|m] other];
      eexists; (split; [reflexivity|]); cbn; discriminate.
Qed.

Lemma get_wfdl_answer_witness :
  match ContentScript.responses
          (snd (ContentScript.handleMessage designer_env
                  (JObj [("type", JStr "get_wfdl"); ("requestId", JStr "r1")])
                  {| ContentScript.console := []; ContentScript.responses := [] |})) with
  | [response] => prop response "validationResult" = JStr "wfdl"
  | _ => False
  end.
Proof.
  pose proof (get_wfdl_answer designer_env
                (JObj [("type", JStr "get_wfdl"); ("requestId", JStr "r1")])
                {| ContentScript.console := []; ContentScript.responses := [] |}
                eq_refl) as H.
  cbv zeta in H. cbn [ContentScript.visible designer_env wf ContentScript.page] in H.
  rewrite H. reflexivity.
Defined.



(** X26. With this content script at the other end, a screenshot request
    never gets past its first step: the content script has no
    [executeScript] method, so the component is never prepared, the tab
    is never captured, and the worker answers with that failure. *)
Theorem screenshot_never_prepared (api : Background.Api) (env : ContentScript.Env)
    (request : JsVal) (st : Background.State) :
  (forall tabId message,
     Background.tabs_sendMessage api tabId message = ContentScript.answer env message) ->
  let r := Background.handleComponentScreenshot api request st in
  Background.responses (snd r) =
    Background.responses st ++
    [JObj [("success", JBool false);
           ("error", JStr "this.executeScript is not a function")]] /\
  exists new,
    Background.calls (snd r) = Background.calls st ++ new /\
    ~ In Background.CaptureVisibleTab new.
Proof.
  intros Hapi r. subst r.
  unfold Background.handleComponentScreenshot, Background.handleComponentScreenshot_try.
  rewrite !Hapi.
  destruct (truthy (prop request "tabId")).
  - split; [reflexivity|]. eexists. split.
    + cbn. rewrite <- app_assoc. reflexivity.
    + cbn. intuition discriminate.
  - split; [reflexivity|]. eexists. split.
    + cbn. reflexivity.
    + cbn. intuition discriminate.
Qed.

Lemma screenshot_never_prepared_witness :
  let api := {| Background.runtime_id := "abcdef";
                Background.tabs_sendMessage := fun _ message =>
                  ContentScript.answer designer_env message;
                Background.captureVisibleTab :=
                  Background.Resolves (JStr "data:image/png;base64,BBBB");
                Background.timestamp := "t" |} in
  Background.responses
    (snd (Background.handleComponentScreenshot api screenshot_request Background.initial)) =
  [JObj [("success", JBool false);
         ("error", JStr "this.executeScript is not a function")]].
Proof.
  intros api.
  destruct (screenshot_never_prepared api designer_env screenshot_request
              Background.initial) as [H _]; [reflexivity|].
  exact H.
Defined.

(** ** The Gemini helpers *)

Lemma after_app (p s : string) : Gemini.after p (p ++ s)%string = Some s.
Proof.
  induction p as [|a p IH]; [destruct s; reflexivity|].
  change (String a p ++ s)%string with (String a (p ++ s)%string).
  cbn [Gemini.after]. rewrite Ascii.eqb_refl. exact IH.
Qed.

Lemma after_split (p s r : string) :
  Gemini.after p s = Some r -> s = (p ++ r)%string.
Proof.
  revert s. induction p as [|a p IH]; intros s.
  - destruct s as [|b s]; cbn [Gemini.after]; intros H; injection H as <-; reflexivity.
  - destruct s as [|b s]; cbn [Gemini.after]; [discriminate|].
    destruct (Ascii.eqb_spec a b) as [->|]; [|discriminate].
    intros H. apply IH in H. rewrite H. reflexivity.
Qed.

Lemma skip_lower_app (t r : string) :
  all_lower t = true ->
  Gemini.skip_lower (t ++ String (Ascii.ascii_of_nat 59) r)%string = String (Ascii.ascii_of_nat 59) r.
Proof.
  induction t as [|c t IH]; [reflexivity|].
  change (String c t ++ String (Ascii.ascii_of_nat 59) r)%string with (String c (t ++ String (Ascii.ascii_of_nat 59) r)%string).
  cbn [all_lower Gemini.skip_lower].
  intros H. apply andb_true_iff in H as [Hc Ht]. rewrite Hc. apply IH. exact Ht.
Qed.

Lemma skip_lower_split (s : string) :
  exists t, all_lower t = true /\ s = (t ++ Gemini.skip_lower s)%string.
Proof.
  induction s as [|c s (t & Ht & Hs)]; [exists EmptyString; split; reflexivity|].
  cbn [Gemini.skip_lower]. destruct (Gemini.is_lower c) eqn:Hc.
  - exists (String c t). split.
    + cbn [all_lower]. rewrite Hc. exact Ht.
    + change (String c t ++ Gemini.skip_lower s)%string
        with (String c (t ++ Gemini.skip_lower s)%string).
      rewrite <- Hs. reflexivity.
  - exists EmptyString. split; reflexivity.
Qed.

(** X27. The prefix strip of the Gemini callers removes exactly a
    leading [data:image/<letters>;base64,] with at least one lower-case
    letter: from such a data URL it returns the payload, and a text it
    changes is such a prefix followed by the result. Every other text,
    for instance one whose subtype has a capital letter, a digit or a
    [+], is passed on unchanged. *)
Theorem stripDataUrl_spec :
  (forall subtype payload,
     all_lower subtype = true -> subtype <> EmptyString ->
     Gemini.stripDataUrl (data_url subtype payload) = payload) /\
  (forall s,
     Gemini.stripDataUrl s = s \/
     exists subtype,
       all_lower subtype = true /\ subtype <> EmptyString /\
       s = data_url subtype (Gemini.stripDataUrl s)).
Proof.
  split.
  - intros t payload Ht Hne. unfold Gemini.stripDataUrl, data_url.
    rewrite after_app. destruct t as [|c t]; [congruence|].
    change (String c t ++ ";base64," ++ payload)%string
      with (String c (t ++ String (Ascii.ascii_of_nat 59) ("base64," ++ payload))%string).
    cbn [all_lower] in Ht.
    apply andb_true_iff in Ht as [Hc Ht]. rewrite Hc.
    rewrite skip_lower_app by exact Ht.
    change (String (Ascii.ascii_of_nat 59) ("base64," ++ payload))%string
      with (";base64," ++ payload)%string.
    rewrite after_app. reflexivity.
  - intros s. unfold Gemini.stripDataUrl.
    destruct (Gemini.after "data:image/" s) as [[|c r]|] eqn:Ha; [left; reflexivity| |left; reflexivity].
    destruct (Gemini.is_lower c) eqn:Hc; [|left; reflexivity].
    destruct (Gemini.after ";base64," (Gemini.skip_lower r)) as [imageData|] eqn:Hb;
      [|left; reflexivity].
    right. destruct (skip_lower_split r) as (t & Ht & Hr).
    exists (String c t). split; [|split; [discriminate|]].
    + cbn [all_lower]. rewrite Hc. exact Ht.
    + apply after_split in Ha. apply after_split in Hb.
      unfold data_url. rewrite Ha, Hr, Hb at 1.
      change (String c t ++ ";base64," ++ imageData)%string
        with (String c (t ++ ";base64," ++ imageData)%string).
      reflexivity.
Qed.

Lemma stripDataUrl_spec_witness :
  Gemini.stripDataUrl "data:image/png;base64,AAAA" = "AAAA".
Proof.
  destruct stripDataUrl_spec as [H _].
  apply (H "png" "AAAA"); [reflexivity | discriminate].
Defined.

Lemma split_no_comma (s : string) : no_comma s = true -> Gemini.split_comma s = [s].
Proof.
  induction s as [|c s IH]; [reflexivity|].
  cbn [no_comma Gemini.split_comma]. intros H. apply andb_true_iff in H as [Hc Hs].
  destruct (Ascii.eqb c (Ascii.ascii_of_nat 44)); [discriminate|].
  rewrite IH by exact Hs. reflexivity.
Qed.

Lemma split_at_comma (a b : string) :
  no_comma a = true ->
  Gemini.split_comma (a ++ String (Ascii.ascii_of_nat 44) b)%string =
  a :: Gemini.split_comma b.
Proof.
  induction a as [|c a IH]; [reflexivity|].
  change (String c a ++ String (Ascii.ascii_of_nat 44) b)%string
    with (String c (a ++ String (Ascii.ascii_of_nat 44) b)%string).
  cbn [no_comma Gemini.split_comma]. intros H. apply andb_true_iff in H as [Hc Ha].
  destruct (Ascii.eqb c (Ascii.ascii_of_nat 44)); [discriminate|].
  rewrite IH by exact Ha. reflexivity.
Qed.

Lemma no_comma_app (a b : string) :
  no_comma (a ++ b)%string = no_comma a && no_comma b.
Proof.
  induction a as [|c a IH]; [reflexivity|].
  change (String c a ++ b)%string with (String c (a ++ b)%string).
  cbn [no_comma]. rewrite IH, andb_assoc. reflexivity.
Qed.

Lemma lower_no_comma (t : string) : all_lower t = true -> no_comma t = true.
Proof.
  induction t as [|c t IH]; [reflexivity|]. cbn [all_lower no_comma].
  intros H. apply andb_true_iff in H as [Hc Ht]. rewrite (IH Ht), andb_true_r.
  destruct (Ascii.eqb_spec c (Ascii.ascii_of_nat 44)) as [->|]; [discriminate Hc|reflexivity].
Qed.

(** X28. The summary server hands the model the payload of a data URL:
    for [data:image/<letters>;base64,<payload>] with a comma-free payload
    the model is called with the payload, the same text the client-side
    strip yields, and the answer is 200 with the model's text or 500 with
    the error. A non-empty image text without any comma, for instance
    bare base64, makes the server call the model with [undefined]. *)
Theorem server_extracts_payload (generateContent : JsVal -> Completion JsVal) :
  (forall subtype payload,
     all_lower subtype = true -> no_comma payload = true ->
     Gemini.generate_summary generateContent (JStr (data_url subtype payload)) =
     match generateContent (JStr payload) with
     | Normal text => {| Gemini.status := 200; Gemini.body := JObj [("summary", text)] |}
     | Throw m =>
         {| Gemini.status := 500;
            Gemini.body := JObj [("error", JStr "Gemini call failed"); ("detail", JStr m)] |}
     end) /\
  (forall s,
     s <> EmptyString -> no_comma s = true ->
     Gemini.generate_summary generateContent (JStr s) =
     match generateContent JUndefined with
     | Normal text => {| Gemini.status := 200; Gemini.body := JObj [("summary", text)] |}
     | Throw m =>
         {| Gemini.status := 500;
            Gemini.body := JObj [("error", JStr "Gemini call failed"); ("detail", JStr m)] |}
     end).
Proof.
  split.
  - intros t payload Ht Hp. unfold Gemini.generate_summary.
    change (truthy (JStr (data_url t payload))) with true. cbn [negb].
    assert (Hs : Gemini.split_comma (data_url t payload) !! 1 = Some payload).
    { unfold data_url.
      replace ("data:image/" ++ t ++ ";base64," ++ payload)%string
        with (("data:image/" ++ t ++ ";base64") ++
              String (Ascii.ascii_of_nat 44) payload)%string.
      - rewrite split_at_comma.
        + rewrite split_no_comma by exact Hp. reflexivity.
        + rewrite !no_comma_app, (lower_no_comma t Ht). reflexivity.
      - rewrite !string_app_assoc. reflexivity. }
    rewrite Hs. reflexivity.
  - intros s Hne Hs. unfold Gemini.generate_summary.
    destruct s as [|c s]; [congruence|].
    change (truthy (JStr (String c s))) with true. cbn [negb].
    rewrite split_no_comma by exact Hs. reflexivity.
Qed.

Lemma server_extracts_payload_witness :
  Gemini.generate_summary (fun data => Normal data) (JStr "data:image/png;base64,AAAA") =
  {| Gemini.status := 200; Gemini.body := JObj [("summary", JStr "AAAA")] |}.
Proof.
  destruct (server_extracts_payload (fun data => Normal data)) as [H _].
  apply (H "png" "AAAA"); reflexivity.
Defined.

(** X29. The popup's Gemini call never resolves with a falsy summary, so
    the result shown is the summary itself and the handler's own stand-in
    text is never used; a rejection is shown after [Error: ] and says that
    the key is missing, that the API call failed, or that the request
    failed. *)
Theorem gemini_summary_never_empty (geminiApiKey : JsVal)
    (fetch : Completion Gemini.FetchResponse) :
  match Gemini.callGeminiWithScreenshot geminiApiKey fetch with
  | Normal summary =>
      truthy summary = true /\
      Gemini.show_summary geminiApiKey fetch = to_string summary
  | Throw m =>
      Gemini.show_summary geminiApiKey fetch = ("Error: " ++ m)%string /\
      (m = "No Gemini API key found. Please save it in the extension." \/
       exists detail,
         m = ("Gemini API call failed: " ++ detail)%string \/
         m = ("Gemini request error: " ++ detail)%string)
  end.
Proof.
  unfold Gemini.show_summary.
  destruct (Gemini.callGeminiWithScreenshot geminiApiKey fetch) as [summary|m] eqn:E.
  - assert (Ht : truthy summary = true).
    { unfold Gemini.callGeminiWithScreenshot in E.
      destruct (truthy geminiApiKey); cbn [negb] in E; [|discriminate].
      destruct fetch as [[ok text json]|]; cbn in E; [|discriminate].
      destruct ok; cbn in E.
      - destruct json as [data|]; [|discriminate]. injection E as <-.
        unfold js_or.
        match goal with
        | |- truthy (if truthy ?x then _ else _) = true =>
            destruct (truthy x) eqn:Hs; [exact Hs | reflexivity]
        end.
      - destruct text; discriminate. }
    split; [exact Ht|]. unfold js_or. rewrite Ht. reflexivity.
  - split; [reflexivity|].
    unfold Gemini.callGeminiWithScreenshot in E.
    destruct (truthy geminiApiKey); cbn [negb] in E; [|left; congruence].
    right. destruct fetch as [[ok text json]|m']; cbn in E.
    + destruct ok; cbn in E.
      * destruct json as [data|m']; [discriminate|]. exists m'. right. congruence.
      * destruct text as [errText|m']; [exists errText; left | exists m'; right];
          congruence.
    + exists m'. right. congruence.
Qed.

(** ** getWFDL across runs *)

